(** * Auto_Doc: project form state and PDF layout, embedded in Rocq

    The repository is a single-page form application (src/App.tsx) with a
    document renderer (utils/generatePDF.ts).  This file embeds the string
    helpers, the list handlers of the form view and the layout routine, and
    proves the properties stated for them. *)

From Stdlib Require Import String Ascii.
From Stdlib Require Import List ZArith NArith QArith Bool Lia.
From Stdlib Require Decimal Hexadecimal DecimalN DecimalPos.
From Stdlib Require Import Sorted.
Import ListNotations.

Close Scope Q_scope.
Open Scope nat_scope.

Set Implicit Arguments.

(* ================================================================== *)
(** ** JavaScript strings and the built-ins the sources call *)

Module Js.

(** A JavaScript string is a sequence of UTF-16 code units; [length],
    [substring], [split] and [trim] all count and cut code units. *)
Definition codeunit := N.
Definition jsstring := list codeunit.

(** String literals of the sources that are plain ASCII. *)
Definition lit (s : string) : jsstring :=
  List.map N_of_ascii (list_ascii_of_string s).

Fixpoint eqb (a b : jsstring) : bool :=
  match a, b with
  | [], [] => true
  | x :: a', y :: b' => N.eqb x y && eqb a' b'
  | _, _ => false
  end.

(** [if (s)] on a string: the empty string is the only falsy one. *)
Definition truthy (s : jsstring) : bool :=
  match s with [] => false | _ :: _ => true end.

(** [if (s)] on [string | undefined]. *)
Definition truthyOpt (s : option jsstring) : bool :=
  match s with Some s' => truthy s' | None => false end.

(** ECMAScript WhiteSpace and LineTerminator code points, the set removed by
    [String.prototype.trim] and matched by the regular expression [\s]. *)
Definition isWhiteSpace (c : codeunit) : bool :=
  ((9 <=? c) && (c <=? 13) || (c =? 32) || (c =? 160) || (c =? 5760)
   || (8192 <=? c) && (c <=? 8202) || (c =? 8232) || (c =? 8233)
   || (c =? 8239) || (c =? 8287) || (c =? 12288) || (c =? 65279))%N.

Fixpoint trimStart (s : jsstring) : jsstring :=
  match s with
  | [] => []
  | c :: s' => if isWhiteSpace c then trimStart s' else s
  end.

Definition trimEnd (s : jsstring) : jsstring := rev (trimStart (rev s)).

Definition trim (s : jsstring) : jsstring := trimEnd (trimStart s).

(** [s.substring(0, n)] for a non-negative integer [n]. *)
Definition substring0 (s : jsstring) (n : nat) : jsstring := firstn n s.

(** [s.split(sep)] for a one-character separator: always at least one
    piece, and one more piece than there are separators. *)
Fixpoint split (sep : codeunit) (s : jsstring) : list jsstring :=
  match s with
  | [] => [[]]
  | c :: s' =>
      if N.eqb c sep then [] :: split sep s'
      else match split sep s' with
           | w :: ws => (c :: w) :: ws
           | [] => [[c]]
           end
  end.

(** [l.join(sep)]. *)
Fixpoint join (sep : jsstring) (l : list jsstring) : jsstring :=
  match l with
  | [] => []
  | [x] => x
  | x :: l' => x ++ sep ++ join sep l'
  end.

(** [s.replace(/\s+/g, r)]: every maximal run of white space becomes [r]. *)
Fixpoint replaceSpaces (r : jsstring) (inRun : bool) (s : jsstring) : jsstring :=
  match s with
  | [] => []
  | c :: s' =>
      if isWhiteSpace c
      then (if inRun then [] else r) ++ replaceSpaces r true s'
      else c :: replaceSpaces r false s'
  end.

(** *** Numbers that hold integers

    The handlers only ever compute with small integers (list lengths,
    identifiers, page numbers); they are modelled by [Z], which agrees with
    IEEE doubles on every integer of magnitude below 2^53.  [NaN] is [None]. *)
Definition number := option Z.

Definition digitChar (d : N) : codeunit := (48 + d)%N.

Fixpoint uintChars (u : Decimal.uint) : jsstring :=
  match u with
  | Decimal.Nil => []
  | Decimal.D0 u' => digitChar 0 :: uintChars u'
  | Decimal.D1 u' => digitChar 1 :: uintChars u'
  | Decimal.D2 u' => digitChar 2 :: uintChars u'
  | Decimal.D3 u' => digitChar 3 :: uintChars u'
  | Decimal.D4 u' => digitChar 4 :: uintChars u'
  | Decimal.D5 u' => digitChar 5 :: uintChars u'
  | Decimal.D6 u' => digitChar 6 :: uintChars u'
  | Decimal.D7 u' => digitChar 7 :: uintChars u'
  | Decimal.D8 u' => digitChar 8 :: uintChars u'
  | Decimal.D9 u' => digitChar 9 :: uintChars u'
  end.

(** [n.toString()] in radix 10. *)
Definition toString (n : number) : jsstring :=
  match n with
  | None => lit "NaN"
  | Some Z0 => lit "0"
  | Some (Zpos p) => uintChars (Pos.to_uint p)
  | Some (Zneg p) => lit "-" ++ uintChars (Pos.to_uint p)
  end.

Definition natToString (n : nat) : jsstring := toString (Some (Z.of_nat n)).

(** The longest prefix of decimal digits, as a decimal numeral. *)
Fixpoint decimalPrefix (s : jsstring) : Decimal.uint :=
  match s with
  | [] => Decimal.Nil
  | c :: s' =>
      match c with
      | 48 => Decimal.D0 (decimalPrefix s')
      | 49 => Decimal.D1 (decimalPrefix s')
      | 50 => Decimal.D2 (decimalPrefix s')
      | 51 => Decimal.D3 (decimalPrefix s')
      | 52 => Decimal.D4 (decimalPrefix s')
      | 53 => Decimal.D5 (decimalPrefix s')
      | 54 => Decimal.D6 (decimalPrefix s')
      | 55 => Decimal.D7 (decimalPrefix s')
      | 56 => Decimal.D8 (decimalPrefix s')
      | 57 => Decimal.D9 (decimalPrefix s')
      | _ => Decimal.Nil
      end%N
  end.

(** The longest prefix of hexadecimal digits (either case). *)
Fixpoint hexPrefix (s : jsstring) : Hexadecimal.uint :=
  match s with
  | [] => Hexadecimal.Nil
  | c :: s' =>
      match c with
      | 48 => Hexadecimal.D0 (hexPrefix s')
      | 49 => Hexadecimal.D1 (hexPrefix s')
      | 50 => Hexadecimal.D2 (hexPrefix s')
      | 51 => Hexadecimal.D3 (hexPrefix s')
      | 52 => Hexadecimal.D4 (hexPrefix s')
      | 53 => Hexadecimal.D5 (hexPrefix s')
      | 54 => Hexadecimal.D6 (hexPrefix s')
      | 55 => Hexadecimal.D7 (hexPrefix s')
      | 56 => Hexadecimal.D8 (hexPrefix s')
      | 57 => Hexadecimal.D9 (hexPrefix s')
      | 65 | 97 => Hexadecimal.Da (hexPrefix s')
      | 66 | 98 => Hexadecimal.Db (hexPrefix s')
      | 67 | 99 => Hexadecimal.Dc (hexPrefix s')
      | 68 | 100 => Hexadecimal.Dd (hexPrefix s')
      | 69 | 101 => Hexadecimal.De (hexPrefix s')
      | 70 | 102 => Hexadecimal.Df (hexPrefix s')
      | _ => Hexadecimal.Nil
      end%N
  end.

(** The digits of [parseInt] once white space and sign are gone: a [0x] or
    [0X] prefix selects radix 16, anything else radix 10; no digit at all
    gives [NaN]. *)
Definition parseMagnitude (s : jsstring) : option N :=
  match s with
  | 48 :: 120 :: h | 48 :: 88 :: h =>
      match hexPrefix h with
      | Hexadecimal.Nil => None
      | u => Some (N.of_hex_uint u)
      end
  | _ =>
      match decimalPrefix s with
      | Decimal.Nil => None
      | u => Some (N.of_uint u)
      end
  end%N.

(** [parseInt(s)] with no radix argument. *)
Definition parseInt (s : jsstring) : number :=
  match trimStart s with
  | 45 :: s' => option_map (fun n => Z.opp (Z.of_N n)) (parseMagnitude s')
  | 43 :: s' => option_map Z.of_N (parseMagnitude s')
  | s' => option_map Z.of_N (parseMagnitude s')
  end%N.

(** [x + 1] on a number. *)
Definition succNumber (x : number) : number := option_map Z.succ x.

End Js.

Import Js.

(* ================================================================== *)
(** ** Shared types (types/projects.ts) *)

Inductive ProjectStatus : Set :=
| planning | in_progress | completed | on_hold | cancelled.

Definition statusLabels (s : ProjectStatus) : jsstring :=
  match s with
  | planning => lit "Planejamento"
  | in_progress => lit "Em Andamento"
  | completed => lit "Conclu" ++ [237%N] ++ lit "do"
  | on_hold => lit "Pausado"
  | cancelled => lit "Cancelado"
  end.

Module PDFColor.
Record t : Set := mk { r : Z; g : Z; b : Z }.
End PDFColor.

Module ProjectMilestone.
Record t : Set := mk {
  id : jsstring;
  title : jsstring;
  description : jsstring;
  completed : bool;
  dueDate : option jsstring
}.
End ProjectMilestone.

Module TechStack.
Record t : Set := mk {
  category : jsstring;
  technologies : list jsstring
}.
End TechStack.

Module Project.
Record t : Set := mk {
  id : jsstring;
  uniqueCode : jsstring;
  name : jsstring;
  description : jsstring;
  sector : jsstring;
  status : ProjectStatus;
  startDate : jsstring;
  endDate : option jsstring;
  projectManager : jsstring;
  team : list jsstring;
  milestones : list ProjectMilestone.t;
  techStack : list TechStack.t;
  repository : option jsstring;
  documentation : option jsstring;
  notes : option jsstring;
  createdAt : jsstring;
  updatedAt : jsstring
}.
End Project.

(* ================================================================== *)
(** ** The document renderer (utils/generatePDF.ts) *)

Module Pdf.

Definition ellipsis : jsstring := lit "...".

Definition truncateName (name : jsstring) (maxLength : nat) : jsstring :=
  if length name <=? maxLength then name
  else substring0 name maxLength ++ ellipsis.

(** One round of the [for (const word of words)] loop of
    [splitNameForHeader], on the pair of [lines] and [currentLine]. *)
Definition wrapWord (maxLineLength : nat)
    (acc : list jsstring * jsstring) (word : jsstring)
  : list jsstring * jsstring :=
  let '(lines, currentLine) := acc in
  let candidate := trim (currentLine ++ lit " " ++ word) in
  if length candidate <=? maxLineLength then (lines, candidate)
  else ((if truthy currentLine then lines ++ [currentLine] else lines), word).

(** The part of [splitNameForHeader] that follows the truncation. *)
Definition wrapTruncated (truncated : jsstring) (maxLineLength : nat)
  : list jsstring :=
  if length truncated <=? maxLineLength then [truncated]
  else
    let words := split 32%N truncated in
    let '(lines, currentLine) :=
      fold_left (wrapWord maxLineLength) words ([], []) in
    let lines := if truthy currentLine then lines ++ [currentLine] else lines in
    if 0 <? length lines then lines
    else [substring0 truncated maxLineLength].

(** A line within the budget, or one of the given words left unbroken. *)
Definition fitsOrWord (maxLineLength : nat) (words : list jsstring)
    (line : jsstring) : Prop :=
  length line <= maxLineLength
  \/ (maxLineLength < length line /\ In line words).

Definition splitNameForHeader (name : jsstring) (maxLineLength : nat)
  : list jsstring :=
  let truncated := truncateName name 30 in
  wrapTruncated truncated maxLineLength.

(** *** Greedy wrapping by words, in the specification's terms

    Reference definitions to compare [splitNameForHeader] with.  They
    follow the wording of the property, not the loop of the source. *)

(** The words are taken in order; a word joins the current line when the
    line, with a space and the word added and trimmed, is within the
    budget; otherwise the current line (if it holds anything) is finished
    and the word starts the next line. *)
Fixpoint greedyWrap (budget : nat) (currentLine : jsstring)
    (words : list jsstring) : list jsstring :=
  match words with
  | [] => if truthy currentLine then [currentLine] else []
  | word :: rest =>
      if length (trim (currentLine ++ lit " " ++ word)) <=? budget
      then greedyWrap budget (trim (currentLine ++ lit " " ++ word)) rest
      else (if truthy currentLine then [currentLine] else [])
           ++ greedyWrap budget word rest
  end.

(** A line made of words with one space between them. *)
Definition lineOfWords (words : list jsstring) : jsstring :=
  join (lit " ") words.

(** The only white space in the text is the space character. *)
Definition plainSpaces (s : jsstring) : Prop :=
  Forall (fun c => isWhiteSpace c = true -> c = 32%N) s.

(** The text with its white space taken out. *)
Definition withoutWhiteSpace (s : jsstring) : jsstring :=
  filter (fun c => negb (isWhiteSpace c)) s.

(** A text that neither starts nor ends with white space, and is not
    empty. *)
Definition solidEdges (s : jsstring) : Prop :=
  (exists x t, s = x :: t /\ isWhiteSpace x = false)
  /\ (exists t y, s = t ++ [y] /\ isWhiteSpace y = false).

(** A word: not empty, no white space in it. *)
Definition solidWord (w : jsstring) : Prop :=
  w <> [] /\ Forall (fun c => isWhiteSpace c = false) w.

(** Greediness of a division of words into lines: wherever a line ends,
    the first word of the next line would not have fitted on it. *)
Fixpoint breaksOnlyWhenFull (budget : nat) (groups : list (list jsstring))
  : Prop :=
  match groups with
  | [] => True
  | g :: rest =>
      match rest with
      | [] => True
      | next :: _ =>
          budget < length (lineOfWords g) + 1 + length (hd [] next)
          /\ breaksOnlyWhenFull budget rest
      end
  end.

(** *** The jsPDF document

    The document object is external; it is modelled by the sequence of
    method calls made on it, oldest first.  Integer arguments are written
    through [inject_Z]; the page size is not an integer. *)
Inductive Call : Type :=
| SetFillColor (r g b : Z)
| SetTextColor (r g b : Z)
| SetDrawColor (r g b : Z)
| SetLineWidth (w : Q)
| SetFont (family style : jsstring)
| SetFontSize (size : Z)
| Rect (x y w h : Q) (style : jsstring)
| RoundedRect (x y w h rx ry : Q) (style : jsstring)
| Circle (x y r : Q) (style : jsstring)
| Text (text : jsstring) (x y : Q)
| TextLines (text : list jsstring) (x y : Q)
| TextAligned (text : jsstring) (x y : Q) (align : jsstring)
| AddImage (data format : jsstring) (x y w h : Q)
| AddPage
| SetPage (i : nat).

Definition Doc := list Call.

Definition isAddPage (c : Call) : bool :=
  match c with AddPage => true | _ => false end.

(** [doc.getNumberOfPages()]: a new document has one page. *)
Definition getNumberOfPages (d : Doc) : nat :=
  S (length (filter isAddPage d)).

Definition Blob := Doc.
Definition Error := jsstring.

Record QROptions : Set := {
  qrWidth : Z; qrMargin : Z; qrDark : jsstring; qrLight : jsstring
}.

(** What the renderer takes from its surroundings: the page size of a new
    jsPDF document, the font metrics of jsPDF (which depend on the font
    set by earlier calls), the QR encoder, the locale formatting of dates,
    the clock and the browser. *)
Record Env : Type := {
  pageWidth : Q;
  pageHeight : Q;
  getTextWidth : Doc -> jsstring -> Q;
  splitTextToSize : Doc -> jsstring -> Q -> list jsstring;
  toDataURL : jsstring -> QROptions -> Error + jsstring;
  toLocaleDateString : jsstring -> jsstring;
  nowLocaleString : nat -> jsstring;
  objectURL : nat -> jsstring;
  popupOpens : bool
}.

(** The browser state the renderer acts on. *)
Inductive WindowCall : Type :=
| WindowOpen (url : jsstring)
| DocumentWrite (html : jsstring).

Record World : Type := {
  objectURLs : list (option Blob);
  windows : list WindowCall;
  savedFiles : list (jsstring * Blob)
}.

(** [URL.createObjectURL]: the new URL is named by its index. *)
Definition createObjectURL (w : World) (blob : Blob) : nat * World :=
  (length (objectURLs w),
   {| objectURLs := objectURLs w ++ [Some blob];
      windows := windows w; savedFiles := savedFiles w |}).

Fixpoint revokeAt (i : nat) (l : list (option Blob)) : list (option Blob) :=
  match l, i with
  | [], _ => []
  | _ :: l', O => None :: l'
  | x :: l', S i' => x :: revokeAt i' l'
  end.

Definition revokeObjectURL (w : World) (url : nat) : World :=
  {| objectURLs := revokeAt url (objectURLs w);
     windows := windows w; savedFiles := savedFiles w |}.

Definition windowCall (w : World) (c : WindowCall) : World :=
  {| objectURLs := objectURLs w;
     windows := windows w ++ [c]; savedFiles := savedFiles w |}.

Definition saveFile (w : World) (filename : jsstring) (blob : Blob) : World :=
  {| objectURLs := objectURLs w;
     windows := windows w; savedFiles := savedFiles w ++ [(filename, blob)] |}.

(** *** Drawing: a state monad over the document *)
Definition Draw (A : Type) : Type := Doc -> A * Doc.

Definition ret {A} (a : A) : Draw A := fun d => (a, d).

Definition bind {A B} (m : Draw A) (k : A -> Draw B) : Draw B :=
  fun d => let '(a, d') := m d in k a d'.

Definition emit (c : Call) : Draw unit := fun d => (tt, d ++ [c]).

Definition ask {A} (f : Doc -> A) : Draw A := fun d => (f d, d).

Definition exec {A} (m : Draw A) (d : Doc) : Doc := snd (m d).

Declare Scope draw_scope.
Delimit Scope draw_scope with draw.
Notation "x <- m ;; k" := (bind m (fun x => k))
  (at level 61, m at next level, right associativity) : draw_scope.
Notation "m ;; k" := (bind m (fun _ => k))
  (at level 61, right associativity) : draw_scope.

(** [l.forEach((x, index) => ...)] whose body updates a local variable. *)
Fixpoint forEachFrom {A St : Type} (f : St -> A -> nat -> Draw St)
    (l : list A) (index : nat) (s : St) : Draw St :=
  match l with
  | [] => ret s
  | x :: l' => bind (f s x index) (forEachFrom f l' (S index))
  end.

Definition forEach {A St : Type} (f : St -> A -> nat -> Draw St)
    (l : list A) (s : St) : Draw St :=
  forEachFrom f l 0 s.

(** A drawing step that starts no new page. *)
Definition keepsPages {A} (m : Draw A) : Prop :=
  forall d, getNumberOfPages (snd (m d)) = getNumberOfPages d.

(** A record with none of the optional content: empty description, no
    technology group, no milestone, no link and no notes. *)
Definition noOptionalFields (project : Project.t) : bool :=
  negb (truthy (Project.description project))
  && (length (Project.techStack project) =? 0)
  && (length (Project.milestones project) =? 0)
  && negb (truthyOpt (Project.repository project))
  && negb (truthyOpt (Project.documentation project))
  && negb (truthyOpt (Project.notes project)).

(** *** Vocabulary for statements about what a drawing step appends *)

(** The step only appends calls, each of them satisfies [P], and the value
    it returns satisfies [R]. *)
Definition appends {A} (P : Call -> Prop) (R : A -> Prop) (m : Draw A)
  : Prop :=
  forall d, exists l, snd (m d) = d ++ l /\ Forall P l /\ R (fst (m d)).

(** The calls that only the footer loop makes. *)
Definition isFooterCall (c : Call) : bool :=
  match c with
  | SetPage _ | TextAligned _ _ _ _ => true
  | _ => false
  end.

(** A text call (other than the footer) starts at or above [limit]. *)
Definition baselineAtMost (limit : Z) (c : Call) : Prop :=
  match c with
  | Text _ _ y | TextLines _ _ y => Qle y (inject_Z limit)
  | _ => True
  end.

(** The four calls of one round of the footer loop. *)
Definition footerCalls (env : Env) (pageCount i : nat) : list Call :=
  [ SetPage i;
    SetFontSize 8;
    SetTextColor 150 150 150;
    TextAligned
      (lit "Gerado em " ++ nowLocaleString env i ++ lit " | Pagina "
         ++ natToString i ++ lit " de " ++ natToString pageCount)
      (Qdiv (pageWidth env) 2) (Qminus (pageHeight env) 10) (lit "center") ].

(** The characters of the pieces of a split, one separator counted for
    each piece. *)
Fixpoint spanOf (ws : list jsstring) : nat :=
  match ws with
  | [] => 0
  | w :: ws' => length w + 1 + spanOf ws'
  end.

(** What the wrapping loop has consumed ([c] characters) when it holds [n]
    finished lines and a current line of [l] characters, for a budget of
    [m]: two finished lines cost more than the budget between them. *)
Definition wrapProgress (m n l c : nat) : Prop :=
  (n = 0 /\ l <= c)
  \/ (n = 1 /\ m + 1 <= c /\ l <= c)
  \/ (n = 2 /\ m + 1 + l <= c)
  \/ (3 <= n /\ 2 * (m + 1) <= c).

Section Renderer.

Variable env : Env.

Local Open Scope Q_scope.
Local Open Scope draw_scope.

Local Coercion inject_Z : Z >-> Q.

Definition drawRoundedRect (x y width height radius : Q) : Draw unit :=
  emit (RoundedRect x y width height radius radius (lit "F")).

Definition setHeaderTextColor (headerColor : PDFColor.t) : Draw unit :=
  emit (SetTextColor (PDFColor.r headerColor) (PDFColor.g headerColor)
          (PDFColor.b headerColor)).

(** Lines 63-99: the header band, the name, sector, code and QR image. *)
Definition renderHeader (project : Project.t) (headerColor : PDFColor.t)
    (qrCodeDataUrl : jsstring) : Draw unit :=
  emit (SetFillColor (PDFColor.r headerColor) (PDFColor.g headerColor)
          (PDFColor.b headerColor)) ;;
  emit (Rect 0 0 (pageWidth env) 55 (lit "F")) ;;
  emit (SetTextColor 255 255 255) ;;
  emit (SetFont (lit "helvetica") (lit "bold")) ;;
  let nameLines := splitNameForHeader (Project.name project) 20 in
  emit (SetFontSize (if (1 <? length nameLines)%nat then 18 else 22)) ;;
  let headerY : Z := if (1 <? length nameLines)%nat then 18%Z else 22%Z in
  forEach (fun (_ : unit) line index =>
             emit (Text line 15 (headerY + Z.of_nat index * 8)%Z))
          nameLines tt ;;
  let infoStartY : Z := (headerY + Z.of_nat (length nameLines) * 8 + 2)%Z in
  emit (SetFontSize 11) ;;
  emit (SetFont (lit "helvetica") (lit "normal")) ;;
  emit (Text (lit "Setor: " ++ Project.sector project) 15 infoStartY) ;;
  emit (Text (lit "Codigo: " ++ Project.uniqueCode project) 15
          (infoStartY + 7)%Z) ;;
  let qrSize := 38 in
  let qrX := pageWidth env - 48 in
  let qrY := 8 in
  emit (SetFillColor 255 255 255) ;;
  drawRoundedRect (qrX - 2) (qrY - 2) (qrSize + 4) (qrSize + 4) 4 ;;
  emit (AddImage qrCodeDataUrl (lit "PNG") qrX qrY qrSize qrSize) ;;
  emit (SetTextColor 0 0 0).

(** Lines 101-114: the status badge. *)
Definition renderStatus (project : Project.t) (headerColor : PDFColor.t)
    (yPosition : Z) : Draw Z :=
  emit (SetFillColor 243 232 255) ;;
  let statusText := statusLabels (Project.status project) in
  textWidth <- ask (fun d => getTextWidth env d statusText) ;;
  let statusWidth := textWidth + 12 in
  drawRoundedRect 15 (yPosition - 5)%Z statusWidth 8 2 ;;
  emit (SetFontSize 9) ;;
  setHeaderTextColor headerColor ;;
  emit (SetFont (lit "helvetica") (lit "bold")) ;;
  emit (Text statusText 21 yPosition) ;;
  let yPosition := (yPosition + 15)%Z in
  emit (SetTextColor 0 0 0) ;;
  ret yPosition.

(** The [Equipe] entry of [infoItems]: [+] binds tighter than [||]. *)
Definition teamSummary (team : list jsstring) : jsstring :=
  let shown :=
    join (lit ", ") (firstn 3 team)
    ++ (if (3 <? length team)%nat then lit "..." else []) in
  if truthy shown then shown else lit "Nao definida".

Definition infoItems (project : Project.t) : list (jsstring * jsstring) :=
  [ (lit "Data de Inicio", toLocaleDateString env (Project.startDate project));
    (lit "Data de Termino",
     match Project.endDate project with
     | Some e => if truthy e then toLocaleDateString env e
                 else lit "Nao definida"
     | None => lit "Nao definida"
     end);
    (lit "Gerente", Project.projectManager project);
    (lit "Equipe", teamSummary (Project.team project)) ].

(** Lines 116-155: the project information card. *)
Definition renderInfo (project : Project.t) (headerColor : PDFColor.t)
    (yPosition : Z) : Draw Z :=
  emit (SetFillColor 249 250 251) ;;
  drawRoundedRect 15 (yPosition - 5)%Z (pageWidth env - 30) 45 4 ;;
  emit (SetFontSize 12) ;;
  emit (SetFont (lit "helvetica") (lit "bold")) ;;
  setHeaderTextColor headerColor ;;
  emit (Text (lit "Informacoes do Projeto") 20 (yPosition + 3)%Z) ;;
  let yPosition := (yPosition + 12)%Z in
  emit (SetFontSize 10) ;;
  emit (SetTextColor 100 100 100) ;;
  yPosition <-
    forEach (fun (yPosition : Z) (item : jsstring * jsstring) (_ : nat) =>
               let '(label, value) := item in
               emit (SetFont (lit "helvetica") (lit "bold")) ;;
               emit (SetTextColor 80 80 80) ;;
               emit (Text (label ++ lit ":") 20 yPosition) ;;
               emit (SetFont (lit "helvetica") (lit "normal")) ;;
               emit (SetTextColor 60 60 60) ;;
               emit (Text value 55 yPosition) ;;
               ret (yPosition + 7)%Z)
            (infoItems project) yPosition ;;
  ret (yPosition + 10)%Z.

(** Lines 157-176: the description card. *)
Definition renderDescription (project : Project.t) (headerColor : PDFColor.t)
    (yPosition : Z) : Draw Z :=
  if truthy (Project.description project) then
    emit (SetFillColor 249 250 251) ;;
    descLines <- ask (fun d => splitTextToSize env d
                                 (Project.description project)
                                 (pageWidth env - 50)) ;;
    let descHeight := Z.min (Z.of_nat (length descLines) * 4 + 15) 65 in
    drawRoundedRect 15 (yPosition - 5)%Z (pageWidth env - 30) descHeight 4 ;;
    emit (SetFontSize 12) ;;
    emit (SetFont (lit "helvetica") (lit "bold")) ;;
    setHeaderTextColor headerColor ;;
    emit (Text (lit "Descricao") 20 (yPosition + 3)%Z) ;;
    let yPosition := (yPosition + 10)%Z in
    emit (SetFontSize 9) ;;
    emit (SetFont (lit "helvetica") (lit "normal")) ;;
    emit (SetTextColor 80 80 80) ;;
    emit (TextLines descLines 20 yPosition) ;;
    let yPosition :=
      (yPosition + (Z.min (Z.of_nat (length descLines)) 6 * 5 + 15))%Z in
    let yPosition := (yPosition + 4)%Z in
    ret yPosition
  else ret yPosition.

(** Lines 178-197: the technology groups. *)
Definition renderTechStack (project : Project.t) (headerColor : PDFColor.t)
    (yPosition : Z) : Draw Z :=
  if (0 <? length (Project.techStack project))%nat then
    emit (SetFontSize 12) ;;
    emit (SetFont (lit "helvetica") (lit "bold")) ;;
    setHeaderTextColor headerColor ;;
    emit (Text (lit "Stack Tecnol" ++ [195%N; 179%N] ++ lit "gica")
            15 yPosition) ;;
    let yPosition := (yPosition + 8)%Z in
    emit (SetFontSize 10) ;;
    yPosition <-
      forEach (fun (yPosition : Z) (stack : TechStack.t) (_ : nat) =>
                 emit (SetFont (lit "helvetica") (lit "bold")) ;;
                 setHeaderTextColor headerColor ;;
                 emit (Text (TechStack.category stack ++ lit ":")
                         15 yPosition) ;;
                 emit (SetFont (lit "helvetica") (lit "normal")) ;;
                 emit (SetTextColor 100 100 100) ;;
                 emit (Text (join (lit ", ") (TechStack.technologies stack))
                         35 yPosition) ;;
                 ret (yPosition + 7)%Z)
              (Project.techStack project) yPosition ;;
    ret (yPosition + 5)%Z
  else ret yPosition.

(** [if (yPosition > limit) { doc.addPage(); yPosition = 20; }] *)
Definition breakPageAfter (limit : Z) (yPosition : Z) : Draw Z :=
  if (limit <? yPosition)%Z then emit AddPage ;; ret 20%Z
  else ret yPosition.

(** The body of the [milestones.forEach] callback. *)
Definition renderMilestone (yPosition : Z) (milestone : ProjectMilestone.t)
    (index : nat) : Draw Z :=
  yPosition <- breakPageAfter 260 yPosition ;;
  let checkX := 15%Z in
  let checkY := (yPosition - 3)%Z in
  (if ProjectMilestone.completed milestone then
     emit (SetFillColor 34 197 94) ;;
     emit (Circle (checkX + 2)%Z checkY 2 (lit "F"))
   else
     emit (SetDrawColor 200 200 200) ;;
     emit (SetLineWidth (1 # 2)) ;;
     emit (Circle (checkX + 2)%Z checkY 2 (lit "S"))) ;;
  emit (SetFont (lit "helvetica") (lit "bold")) ;;
  emit (SetTextColor 60 60 60) ;;
  emit (Text (natToString (index + 1) ++ lit ". "
                ++ ProjectMilestone.title milestone) 22 yPosition) ;;
  let yPosition := (yPosition + 5)%Z in
  if truthy (ProjectMilestone.description milestone) then
    emit (SetFont (lit "helvetica") (lit "normal")) ;;
    emit (SetTextColor 120 120 120) ;;
    milestoneLines <- ask (fun d => splitTextToSize env d
                                      (ProjectMilestone.description milestone)
                                      (pageWidth env - 45)) ;;
    emit (TextLines (firstn 2 milestoneLines) 22 yPosition) ;;
    ret (yPosition + (Z.min (Z.of_nat (length milestoneLines)) 2 * 4 + 3))%Z
  else ret yPosition.

(** Lines 199-251: the milestones. *)
Definition renderMilestones (project : Project.t) (headerColor : PDFColor.t)
    (yPosition : Z) : Draw Z :=
  if (0 <? length (Project.milestones project))%nat then
    yPosition <- breakPageAfter 220 yPosition ;;
    emit (SetFontSize 12) ;;
    emit (SetFont (lit "helvetica") (lit "bold")) ;;
    setHeaderTextColor headerColor ;;
    emit (Text (lit "Pontos do Projeto (Milestones)") 15 yPosition) ;;
    let yPosition := (yPosition + 10)%Z in
    emit (SetFontSize 9) ;;
    yPosition <- forEach renderMilestone (Project.milestones project)
                   yPosition ;;
    ret (yPosition + 5)%Z
  else ret yPosition.

(** [url.length > 50 ? url.substring(0, 50) + "..." : url] *)
Definition shortenLink (url : jsstring) : jsstring :=
  if (50 <? length url)%nat then substring0 url 50 ++ lit "..." else url.

(** Lines 253-293: repository and documentation links. *)
Definition renderLinks (project : Project.t) (headerColor : PDFColor.t)
    (yPosition : Z) : Draw Z :=
  if truthyOpt (Project.repository project)
     || truthyOpt (Project.documentation project) then
    yPosition <- breakPageAfter 240 yPosition ;;
    emit (SetFontSize 12) ;;
    emit (SetFont (lit "helvetica") (lit "bold")) ;;
    setHeaderTextColor headerColor ;;
    emit (Text (lit "Links") 15 yPosition) ;;
    let yPosition := (yPosition + 8)%Z in
    emit (SetFontSize 9) ;;
    yPosition <-
      match Project.repository project with
      | Some ((_ :: _) as repository) =>
          emit (SetFont (lit "helvetica") (lit "bold")) ;;
          emit (SetTextColor 80 80 80) ;;
          emit (Text (lit "Repositorio:") 15 yPosition) ;;
          emit (SetFont (lit "helvetica") (lit "normal")) ;;
          setHeaderTextColor headerColor ;;
          emit (Text (shortenLink repository) 42 yPosition) ;;
          ret (yPosition + 6)%Z
      | _ => ret yPosition
      end ;;
    match Project.documentation project with
    | Some ((_ :: _) as documentation) =>
        emit (SetFont (lit "helvetica") (lit "bold")) ;;
        emit (SetTextColor 80 80 80) ;;
        emit (Text (lit "Documentacao:") 15 yPosition) ;;
        emit (SetFont (lit "helvetica") (lit "normal")) ;;
        setHeaderTextColor headerColor ;;
        emit (Text (shortenLink documentation) 47 yPosition) ;;
        ret (yPosition + 10)%Z
    | _ => ret yPosition
    end
  else ret yPosition.

(** Lines 295-318: the notes card. *)
Definition renderNotes (project : Project.t) (headerColor : PDFColor.t)
    (yPosition : Z) : Draw Z :=
  match Project.notes project with
  | Some ((_ :: _) as notes) =>
      yPosition <- breakPageAfter 230 yPosition ;;
      emit (SetFillColor 249 250 251) ;;
      notesLines <- ask (fun d => splitTextToSize env d notes
                                    (pageWidth env - 50)) ;;
      let notesHeight := Z.min (Z.of_nat (length notesLines) * 5 + 15) 40 in
      drawRoundedRect 15 (yPosition - 5)%Z (pageWidth env - 30) notesHeight 4 ;;
      emit (SetFontSize 12) ;;
      emit (SetFont (lit "helvetica") (lit "bold")) ;;
      setHeaderTextColor headerColor ;;
      emit (Text (lit "Observacoes") 20 (yPosition + 3)%Z) ;;
      let yPosition := (yPosition + 10)%Z in
      emit (SetFontSize 9) ;;
      emit (SetFont (lit "helvetica") (lit "normal")) ;;
      emit (SetTextColor 80 80 80) ;;
      emit (TextLines (firstn 4 notesLines) 20 yPosition) ;;
      ret yPosition
  | _ => ret yPosition
  end.

(** One round of the footer loop, for page [i]. *)
Definition renderFooterPage (pageCount : nat) (i : nat) : Draw unit :=
  emit (SetPage i) ;;
  emit (SetFontSize 8) ;;
  emit (SetTextColor 150 150 150) ;;
  emit (TextAligned
          (lit "Gerado em " ++ nowLocaleString env i ++ lit " | Pagina "
             ++ natToString i ++ lit " de " ++ natToString pageCount)
          (pageWidth env / 2) (pageHeight env - 10) (lit "center")).

(** Lines 320-334: [for (let i = 1; i <= pageCount; i++)]. *)
Definition renderFooter : Draw unit :=
  pageCount <- ask getNumberOfPages ;;
  forEach (fun (_ : unit) i (_ : nat) => renderFooterPage pageCount i)
          (seq 1 pageCount) tt.

(** Lines 63-334: everything drawn once the QR image is there. *)
Definition layout (project : Project.t) (headerColor : PDFColor.t)
    (qrCodeDataUrl : jsstring) : Draw unit :=
  renderHeader project headerColor qrCodeDataUrl ;;
  yPosition <- renderStatus project headerColor 70 ;;
  yPosition <- renderInfo project headerColor yPosition ;;
  yPosition <- renderDescription project headerColor yPosition ;;
  yPosition <- renderTechStack project headerColor yPosition ;;
  yPosition <- renderMilestones project headerColor yPosition ;;
  yPosition <- renderLinks project headerColor yPosition ;;
  _ <- renderNotes project headerColor yPosition ;;
  renderFooter.

Definition renderDocument (project : Project.t) (headerColor : PDFColor.t)
    (qrCodeDataUrl : jsstring) : Doc :=
  exec (layout project headerColor qrCodeDataUrl) [].

(** The options object: an absent flag reads as [false]. *)
Record Opts : Set := { preview : bool; openPrint : bool; returnBlob : bool }.

Definition flag (f : Opts -> bool) (opts : option Opts) : bool :=
  match opts with Some o => f o | None => false end.

(** How the promise of [generateProjectPDF] settles. *)
Inductive Outcome : Type :=
| Rejected (e : Error)
| Fulfilled (blob : option Blob).

Definition defaultHeaderColor : PDFColor.t := PDFColor.mk 139 92 246.

Definition qrOptions : QROptions :=
  {| qrWidth := 200; qrMargin := 2;
     qrDark := lit "#000000"; qrLight := lit "#FFFFFF" |}.

Definition quote : jsstring := [34%N].

(** The page written into the print window. *)
Definition printPage (blobUrl : jsstring) : jsstring :=
  lit "<html><head><title>Preview PDF</title></head><body style="
  ++ quote ++ lit "margin:0" ++ quote ++ lit "><iframe id="
  ++ quote ++ lit "pdfFrame" ++ quote ++ lit " src="
  ++ quote ++ blobUrl ++ quote ++ lit " style="
  ++ quote ++ lit "border:none;width:100%;height:100vh;" ++ quote
  ++ lit "></iframe><script>const f=document.getElementById('pdfFrame');"
  ++ lit "f.onload=()=>{setTimeout(()=>{f.contentWindow.print();},500);};"
  ++ lit "</script></body></html>".

(** [project.name.replace(/\s+/g, "_").substring(0, 20)] *)
Definition safeName (project : Project.t) : jsstring :=
  substring0 (replaceSpaces (lit "_") false (Project.name project)) 20.

(** The whole asynchronous function.  The awaited QR call is the first
    thing that can act on the outside; a rejection of it rejects the
    promise at that point. *)
Definition generateProjectPDF (project : Project.t)
    (headerColor : option PDFColor.t) (opts : option Opts) (w : World)
  : Outcome * World :=
  let headerColor :=
    match headerColor with Some c => c | None => defaultHeaderColor end in
  match toDataURL env (Project.uniqueCode project) qrOptions with
  | inl e => (Rejected e, w)
  | inr qrCodeDataUrl =>
      let pdfBlob : Blob := renderDocument project headerColor qrCodeDataUrl in
      if flag returnBlob opts then (Fulfilled (Some pdfBlob), w)
      else
        let '(url, w) := createObjectURL w pdfBlob in
        let blobUrl := objectURL env url in
        if flag openPrint opts then
          let w := windowCall w (WindowOpen []) in
          if popupOpens env
          then (Fulfilled None, windowCall w (DocumentWrite (printPage blobUrl)))
          else (Fulfilled None, windowCall w (WindowOpen blobUrl))
        else
          (Fulfilled None,
           saveFile w (Project.uniqueCode project ++ lit "-"
                         ++ safeName project ++ lit ".pdf") pdfBlob)
  end.

End Renderer.

End Pdf.

(* ================================================================== *)
(** ** The form view (App.tsx) *)

Module App.

Definition techCategories : list jsstring :=
  [ lit "Frontend"; lit "Backend"; lit "Database"; lit "DevOps";
    lit "Cloud"; lit "Testes"; lit "Mobile"; lit "Outros" ].

Definition PDF_COLORS : list (jsstring * PDFColor.t * jsstring) :=
  [ (lit "Roxo", PDFColor.mk 139 92 246, lit "#8B5CF6");
    (lit "Azul", PDFColor.mk 59 130 246, lit "#3B82F6");
    (lit "Verde", PDFColor.mk 34 197 94, lit "#22C55E");
    (lit "Vermelho", PDFColor.mk 239 68 68, lit "#EF4444");
    (lit "Laranja", PDFColor.mk 249 115 22, lit "#F97316");
    (lit "Rosa", PDFColor.mk 236 72 153, lit "#EC4899");
    (lit "Ciano", PDFColor.mk 6 182 212, lit "#06B6D4");
    ([205%N] ++ lit "ndigo", PDFColor.mk 99 102 241, lit "#6366F1") ].

(** The values handed to [handleFormSubmit] by the form library. *)
Record ProjectFormValues : Set := {
  name : jsstring;
  sector : jsstring;
  description : option jsstring;
  status : ProjectStatus;
  startDate : jsstring;
  endDate : option jsstring;
  projectManager : option jsstring;
  repository : option jsstring;
  documentation : option jsstring;
  notes : option jsstring
}.

Module NewMilestone.
Record t : Set := mk { title : jsstring; description : jsstring }.
End NewMilestone.

Module NewTech.
Record t : Set := mk { category : jsstring; technology : jsstring }.
End NewTech.

(** The [useState] cells of the component. *)
Record State : Type := mkState {
  uniqueCode : jsstring;
  team : list jsstring;
  milestones : list ProjectMilestone.t;
  techStack : list TechStack.t;
  showPreview : bool;
  selectedColor : PDFColor.t;
  newTeamMember : jsstring;
  newMilestone : NewMilestone.t;
  newTech : NewTech.t;
  qrCode : jsstring;
  pdfPreviewUrl : option nat
}.

Definition setTeam (f : list jsstring -> list jsstring) (st : State) : State :=
  mkState (uniqueCode st) (f (team st)) (milestones st) (techStack st)
    (showPreview st) (selectedColor st) (newTeamMember st) (newMilestone st)
    (newTech st) (qrCode st) (pdfPreviewUrl st).

Definition setMilestones
    (f : list ProjectMilestone.t -> list ProjectMilestone.t) (st : State)
  : State :=
  mkState (uniqueCode st) (team st) (f (milestones st)) (techStack st)
    (showPreview st) (selectedColor st) (newTeamMember st) (newMilestone st)
    (newTech st) (qrCode st) (pdfPreviewUrl st).

Definition setTechStack (f : list TechStack.t -> list TechStack.t)
    (st : State) : State :=
  mkState (uniqueCode st) (team st) (milestones st) (f (techStack st))
    (showPreview st) (selectedColor st) (newTeamMember st) (newMilestone st)
    (newTech st) (qrCode st) (pdfPreviewUrl st).

Definition setShowPreview (v : bool) (st : State) : State :=
  mkState (uniqueCode st) (team st) (milestones st) (techStack st)
    v (selectedColor st) (newTeamMember st) (newMilestone st)
    (newTech st) (qrCode st) (pdfPreviewUrl st).

Definition setSelectedColor (v : PDFColor.t) (st : State) : State :=
  mkState (uniqueCode st) (team st) (milestones st) (techStack st)
    (showPreview st) v (newTeamMember st) (newMilestone st)
    (newTech st) (qrCode st) (pdfPreviewUrl st).

Definition setNewTeamMember (v : jsstring) (st : State) : State :=
  mkState (uniqueCode st) (team st) (milestones st) (techStack st)
    (showPreview st) (selectedColor st) v (newMilestone st)
    (newTech st) (qrCode st) (pdfPreviewUrl st).

Definition setNewMilestone (f : NewMilestone.t -> NewMilestone.t)
    (st : State) : State :=
  mkState (uniqueCode st) (team st) (milestones st) (techStack st)
    (showPreview st) (selectedColor st) (newTeamMember st)
    (f (newMilestone st)) (newTech st) (qrCode st) (pdfPreviewUrl st).

Definition setNewTech (f : NewTech.t -> NewTech.t) (st : State) : State :=
  mkState (uniqueCode st) (team st) (milestones st) (techStack st)
    (showPreview st) (selectedColor st) (newTeamMember st) (newMilestone st)
    (f (newTech st)) (qrCode st) (pdfPreviewUrl st).

Definition setQrCode (v : jsstring) (st : State) : State :=
  mkState (uniqueCode st) (team st) (milestones st) (techStack st)
    (showPreview st) (selectedColor st) (newTeamMember st) (newMilestone st)
    (newTech st) v (pdfPreviewUrl st).

Definition setPdfPreviewUrl (v : option nat) (st : State) : State :=
  mkState (uniqueCode st) (team st) (milestones st) (techStack st)
    (showPreview st) (selectedColor st) (newTeamMember st) (newMilestone st)
    (newTech st) (qrCode st) v.

(** The state at mount, for the code produced by [generateUniqueCode]. *)
Definition initialState (code : jsstring) : State :=
  {| uniqueCode := code;
     team := [];
     milestones := [];
     techStack := [];
     showPreview := true;
     selectedColor := PDFColor.mk 139 92 246;
     newTeamMember := [];
     newMilestone := NewMilestone.mk [] [];
     newTech := NewTech.mk (lit "Frontend") [];
     qrCode := [];
     pdfPreviewUrl := None |}.

(** [a || ""] on an optional string. *)
Definition orEmpty (a : option jsstring) : jsstring :=
  match a with Some ((_ :: _) as s) => s | _ => [] end.

(** [a || undefined] on an optional string. *)
Definition orUndefined (a : option jsstring) : option jsstring :=
  match a with Some ((_ :: _) as s) => Some s | _ => None end.

(** The record [newProject] built by [handleFormSubmit]; [now] is the
    result of [new Date().toISOString()]. *)
Definition newProject (st : State) (data : ProjectFormValues)
    (now : jsstring) : Project.t :=
  {| Project.id := uniqueCode st;
     Project.uniqueCode := uniqueCode st;
     Project.name := name data;
     Project.description := orEmpty (description data);
     Project.sector := sector data;
     Project.status := status data;
     Project.startDate := startDate data;
     Project.endDate := orUndefined (endDate data);
     Project.projectManager := orEmpty (projectManager data);
     Project.team := team st;
     Project.milestones := milestones st;
     Project.techStack := techStack st;
     Project.repository := Some (orEmpty (repository data));
     Project.documentation := Some (orEmpty (documentation data));
     Project.notes := Some (orEmpty (notes data));
     Project.createdAt := now;
     Project.updatedAt := now |}.

Definition handleFormSubmit (env : Pdf.Env) (data : ProjectFormValues)
    (now : jsstring) (st : State) (w : Pdf.World) : State * Pdf.World :=
  let project := newProject st data now in
  match Pdf.generateProjectPDF env project (Some (selectedColor st))
          (Some {| Pdf.preview := false; Pdf.openPrint := false;
                   Pdf.returnBlob := true |}) w with
  | (Pdf.Fulfilled (Some blob), w) =>
      let w := match pdfPreviewUrl st with
               | Some old => Pdf.revokeObjectURL w old
               | None => w
               end in
      let '(url, w) := Pdf.createObjectURL w blob in
      (setShowPreview true (setPdfPreviewUrl (Some url) st), w)
  | (_, w) => (st, w)
  end.

Definition addTeamMember (st : State) : State :=
  if truthy (trim (newTeamMember st)) then
    setNewTeamMember []
      (setTeam (fun prev => prev ++ [trim (newTeamMember st)]) st)
  else st.

(** [l.filter((x, i) => p(x, i))] *)
Fixpoint filterFrom {A} (p : A -> nat -> bool) (l : list A) (i : nat)
  : list A :=
  match l with
  | [] => []
  | x :: l' =>
      if p x i then x :: filterFrom p l' (S i) else filterFrom p l' (S i)
  end.

Definition removeTeamMember (index : Z) (st : State) : State :=
  setTeam (fun prev =>
             filterFrom (fun _ i => negb (Z.of_nat i =? index)%Z) prev 0) st.

(** [l[l.length - 1]], [None] exactly when [l.length] is 0. *)
Fixpoint lastOf {A} (l : list A) : option A :=
  match l with
  | [] => None
  | [x] => Some x
  | _ :: l' => lastOf l'
  end.

(** The [id] computed by [addMilestone]. *)
Definition nextId (ms : list ProjectMilestone.t) : jsstring :=
  match lastOf ms with
  | Some m => toString (succNumber (parseInt (ProjectMilestone.id m)))
  | None => lit "1"
  end.

Definition addMilestone (st : State) : State :=
  if truthy (trim (NewMilestone.title (newMilestone st))) then
    let milestone :=
      {| ProjectMilestone.id := nextId (milestones st);
         ProjectMilestone.title := trim (NewMilestone.title (newMilestone st));
         ProjectMilestone.description :=
           trim (NewMilestone.description (newMilestone st));
         ProjectMilestone.completed := false;
         ProjectMilestone.dueDate := None |} in
    setNewMilestone (fun _ => NewMilestone.mk [] [])
      (setMilestones (fun prev => prev ++ [milestone]) st)
  else st.

Definition removeMilestone (id : jsstring) (st : State) : State :=
  setMilestones
    (fun prev => filter (fun m => negb (eqb (ProjectMilestone.id m) id)) prev)
    st.

Definition addTechnology (st : State) : State :=
  if truthy (trim (NewTech.technology (newTech st))) then
    let existingStack :=
      find (fun s => eqb (TechStack.category s) (NewTech.category (newTech st)))
           (techStack st) in
    let st' :=
      match existingStack with
      | Some _ =>
          setTechStack
            (fun prev =>
               map (fun s =>
                      if eqb (TechStack.category s)
                             (NewTech.category (newTech st))
                      then TechStack.mk (TechStack.category s)
                             (TechStack.technologies s
                                ++ [trim (NewTech.technology (newTech st))])
                      else s) prev) st
      | None =>
          let stack :=
            TechStack.mk (NewTech.category (newTech st))
              [trim (NewTech.technology (newTech st))] in
          setTechStack (fun prev => prev ++ [stack]) st
      end in
    setNewTech (fun prev => NewTech.mk (NewTech.category prev) []) st'
  else st.

(** The function handed to [setTechStack] by [removeTechnology]. *)
Definition withoutTechnology (category tech : jsstring)
    (prev : list TechStack.t) : list TechStack.t :=
  filter (fun s => (0 <? length (TechStack.technologies s))%nat)
    (map (fun s =>
            if eqb (TechStack.category s) category
            then TechStack.mk (TechStack.category s)
                   (filter (fun t => negb (eqb t tech))
                           (TechStack.technologies s))
            else s) prev).

Definition removeTechnology (category tech : jsstring) (st : State) : State :=
  setTechStack (withoutTechnology category tech) st.

(** What the user can do to the lists, one event at a time. *)
Inductive Event : Type :=
| TypeTeamMember (value : jsstring)
| AddTeamMember
| RemoveTeamMember (index : Z)
| TypeMilestoneTitle (value : jsstring)
| TypeMilestoneDescription (value : jsstring)
| AddMilestone
| RemoveMilestone (id : jsstring)
| SelectTechCategory (value : jsstring)
| TypeTechnology (value : jsstring)
| AddTechnology
| RemoveTechnology (category tech : jsstring)
| SelectColor (color : PDFColor.t)
| TogglePreview.

Definition step (st : State) (e : Event) : State :=
  match e with
  | TypeTeamMember v => setNewTeamMember v st
  | AddTeamMember => addTeamMember st
  | RemoveTeamMember i => removeTeamMember i st
  | TypeMilestoneTitle v =>
      setNewMilestone
        (fun prev => NewMilestone.mk v (NewMilestone.description prev)) st
  | TypeMilestoneDescription v =>
      setNewMilestone
        (fun prev => NewMilestone.mk (NewMilestone.title prev) v) st
  | AddMilestone => addMilestone st
  | RemoveMilestone id => removeMilestone id st
  | SelectTechCategory v =>
      setNewTech (fun prev => NewTech.mk v (NewTech.technology prev)) st
  | TypeTechnology v =>
      setNewTech (fun prev => NewTech.mk (NewTech.category prev) v) st
  | AddTechnology => addTechnology st
  | RemoveTechnology c t => removeTechnology c t st
  | SelectColor c => setSelectedColor c st
  | TogglePreview => setShowPreview (negb (showPreview st)) st
  end.

Definition run (st : State) (events : list Event) : State :=
  fold_left step events st.

(** The numeric values of the identifiers of a milestone list. *)
Definition idNumbers (ms : list ProjectMilestone.t) : list number :=
  map (fun m => parseInt (ProjectMilestone.id m)) ms.

(** The identifiers of a list read as numbers, each below the next. *)
Definition sequentialIds (ms : list ProjectMilestone.t) : Prop :=
  exists ns, idNumbers ms = map Some ns /\ StronglySorted Z.lt ns.

(** Every identifier reads as a number between 1 and [k]. *)
Definition boundedIds (k : Z) (ms : list ProjectMilestone.t) : Prop :=
  forall m, In m ms ->
    exists n, parseInt (ProjectMilestone.id m) = Some n /\ (1 <= n <= k)%Z.

(** The groups of a tech-stack list filed under one category. *)
Definition groupsOf (category : jsstring) (l : list TechStack.t)
  : list TechStack.t :=
  filter (fun s => eqb (TechStack.category s) category) l.

(** What happens in a session: an event on the lists, a submission of
    the form with the validated values and the time of submission, or the
    preview dialog being closed ([onOpenChange], which sets the preview URL
    to [null]). *)
Inductive Action : Type :=
| Edit (e : Event)
| Submit (data : ProjectFormValues) (now : jsstring)
| ClosePreview.

Definition act (env : Pdf.Env) (sw : State * Pdf.World) (a : Action)
  : State * Pdf.World :=
  match a with
  | Edit e => (step (fst sw) e, snd sw)
  | Submit data now => handleFormSubmit env data now (fst sw) (snd sw)
  | ClosePreview => (setPdfPreviewUrl None (fst sw), snd sw)
  end.

Definition perform (env : Pdf.Env) (sw : State * Pdf.World)
    (actions : list Action) : State * Pdf.World :=
  fold_left (act env) actions sw.



(** An object URL that was created and not revoked since. *)
Definition isLive (u : option Pdf.Blob) : bool :=
  match u with Some _ => true | None => false end.

Definition liveObjectURLs (w : Pdf.World) : list (option Pdf.Blob) :=
  filter isLive (Pdf.objectURLs w).

(** A category select that offers the entries of [techCategories] only. *)
Definition fromSelect (e : Event) : Prop :=
  match e with
  | SelectTechCategory v => In v techCategories
  | _ => True
  end.

(** Categories pairwise distinct and no group without a technology. *)
Definition wellFormedStack (l : list TechStack.t) : Prop :=
  NoDup (map TechStack.category l)
  /\ Forall (fun s => TechStack.technologies s <> []) l.

(** A stored entry: not empty, with no white space at either end. *)
Definition trimmedEntry (s : jsstring) : Prop := s <> [] /\ trim s = s.

(** The three lists hold trimmed entries only. *)
Definition storedTrimmed (st : State) : Prop :=
  Forall trimmedEntry (team st)
  /\ Forall (fun m => trimmedEntry (ProjectMilestone.title m)
                      /\ trim (ProjectMilestone.description m)
                         = ProjectMilestone.description m)
            (milestones st)
  /\ Forall (fun s => Forall trimmedEntry (TechStack.technologies s))
            (techStack st).



End App.

(* ================================================================== *)
(** ** A concrete environment and records to run the model on *)

Module Sample.

(** An A4 page in millimetres, two units of width per character, text
    split into chunks of 90 characters, and a QR encoder that refuses the
    empty text as the encoder of the application does. *)
Fixpoint chunks (fuel n : nat) (s : jsstring) : list jsstring :=
  match fuel, s with
  | _, [] => []
  | O, _ => [s]
  | S fuel', _ => firstn n s :: chunks fuel' n (skipn n s)
  end.

Definition env : Pdf.Env :=
  {| Pdf.pageWidth := 210;
     Pdf.pageHeight := 297;
     Pdf.getTextWidth := fun _ s => inject_Z (2 * Z.of_nat (length s));
     Pdf.splitTextToSize := fun _ s _ => chunks (length s) 90 s;
     Pdf.toDataURL := fun text _ =>
       match text with
       | [] => inl (lit "No input text")
       | _ => inr (lit "data:image/png;base64," ++ text)
       end;
     Pdf.toLocaleDateString := fun s => s;
     Pdf.nowLocaleString := fun _ => lit "03/11/2026, 10:00:00";
     Pdf.objectURL := fun n => lit "blob:" ++ natToString n;
     Pdf.popupOpens := true |}.

Definition world : Pdf.World :=
  {| Pdf.objectURLs := []; Pdf.windows := []; Pdf.savedFiles := [] |}.

Definition values : App.ProjectFormValues :=
  {| App.name := lit "Portal";
     App.sector := lit "TI";
     App.description := Some [];
     App.status := planning;
     App.startDate := lit "2026-11-03";
     App.endDate := Some [];
     App.projectManager := Some [];
     App.repository := Some [];
     App.documentation := Some [];
     App.notes := Some [] |}.

(** The record submitted from a form where only the required fields were
    filled in. *)
Definition bareProject : Project.t :=
  App.newProject (App.initialState (lit "PRJ-2026-11-A1B2C3")) values
    (lit "2026-11-03T10:00:00.000Z").

(** The same environment with an encoder that always fails. *)
Definition brokenEncoder : Pdf.Env :=
  {| Pdf.pageWidth := Pdf.pageWidth env;
     Pdf.pageHeight := Pdf.pageHeight env;
     Pdf.getTextWidth := Pdf.getTextWidth env;
     Pdf.splitTextToSize := Pdf.splitTextToSize env;
     Pdf.toDataURL := fun _ _ => inl (lit "encoder failed");
     Pdf.toLocaleDateString := Pdf.toLocaleDateString env;
     Pdf.nowLocaleString := Pdf.nowLocaleString env;
     Pdf.objectURL := Pdf.objectURL env;
     Pdf.popupOpens := Pdf.popupOpens env |}.

(** Names for the header: 40 characters in five words, and one word of
    22 characters. *)
Definition name40 : jsstring := lit "Sistema de Gestao Financeira Corporativa".

Definition oneWordName : jsstring := lit "Otorrinolaringologista".

(** Form states reached by typing and clicking from a fresh session. *)
Definition session : App.State :=
  App.initialState (lit "PRJ-2026-11-A1B2C3").

(** A form with every optional field filled in, and the record submitted
    from it. *)
Definition filledValues : App.ProjectFormValues :=
  {| App.name := lit "Portal";
     App.sector := lit "TI";
     App.description := Some (lit "Portal de servicos");
     App.status := planning;
     App.startDate := lit "2026-11-03";
     App.endDate := Some (lit "2026-12-01");
     App.projectManager := Some (lit "Ana");
     App.repository := Some (lit "github.com/acme/portal");
     App.documentation := Some (lit "docs.acme.dev/portal");
     App.notes := Some (lit "Piloto") |}.

Definition filledProject : Project.t :=
  App.newProject session filledValues (lit "2026-11-03T10:00:00.000Z").

Definition withAna : App.State :=
  App.run session [App.TypeTeamMember (lit "Ana"); App.AddTeamMember].

Definition blankInputs : App.State :=
  App.run withAna
    [App.TypeTeamMember (lit "   ");
     App.TypeMilestoneTitle [9%N; 32%N];
     App.TypeMilestoneDescription (lit "kept")].

Definition withReact : App.State :=
  App.run session [App.TypeTechnology (lit "React"); App.AddTechnology].

Definition withStacks : App.State :=
  App.run withReact
    [App.SelectTechCategory (lit "Backend");
     App.TypeTechnology (lit "Node.js"); App.AddTechnology;
     App.TypeTechnology (lit "Express"); App.AddTechnology].

(** Twelve milestones, each with a one-line description. *)
Definition milestoneEvents (n : nat) : list App.Event :=
  flat_map (fun i => [App.TypeMilestoneTitle (lit "Etapa " ++ natToString i);
                      App.TypeMilestoneDescription (lit "Entrega parcial");
                      App.AddMilestone])
           (seq 1 n).

Definition twelveMilestones : Project.t :=
  App.newProject (App.run session (milestoneEvents 12)) values
    (lit "2026-11-03T10:00:00.000Z").

Definition blue : PDFColor.t := PDFColor.mk 59 130 246.

Definition qrImage : jsstring :=
  lit "data:image/png;base64,PRJ-2026-11-A1B2C3".

Definition blobOnly : option Pdf.Opts :=
  Some {| Pdf.preview := false; Pdf.openPrint := false;
          Pdf.returnBlob := true |}.

End Sample.

(* ================================================================== *)
(** ** Facts about the string built-ins *)

Unset Implicit Arguments.

Lemma eqb_eq (a b : jsstring) : eqb a b = true <-> a = b.
Proof.
  revert b; induction a as [|x a IH]; intros [|y b]; simpl;
    try (split; [discriminate | congruence]); try tauto.
  rewrite andb_true_iff, N.eqb_eq, IH.
  split; [intros [-> ->]; reflexivity | intros H; injection H; auto].
Qed.

Lemma eqb_refl (a : jsstring) : eqb a a = true.
Proof. apply eqb_eq; reflexivity. Qed.

Lemma eqb_neq (a b : jsstring) : eqb a b = false <-> a <> b.
Proof.
  rewrite <- eqb_eq. destruct (eqb a b); split; congruence.
Qed.

Lemma truthy_nil_iff (s : jsstring) : truthy s = false <-> s = [].
Proof. destruct s; simpl; split; congruence. Qed.

Lemma uintChars_nonempty (u : Decimal.uint) :
  u <> Decimal.Nil -> uintChars u <> [].
Proof. destruct u; simpl; congruence. Qed.

Lemma decimalPrefix_uintChars (u : Decimal.uint) :
  decimalPrefix (uintChars u) = u.
Proof. induction u; simpl; congruence. Qed.

Lemma trimStart_uintChars (u : Decimal.uint) :
  trimStart (uintChars u) = uintChars u.
Proof. destruct u; reflexivity. Qed.

(** A decimal numeral never starts with [0x], so it is read in radix 10. *)
Lemma parseMagnitude_uintChars (u : Decimal.uint) :
  u <> Decimal.Nil -> parseMagnitude (uintChars u) = Some (N.of_uint u).
Proof.
  intros Hu.
  assert (E : parseMagnitude (uintChars u) =
              match decimalPrefix (uintChars u) with
              | Decimal.Nil => None
              | v => Some (N.of_uint v)
              end).
  { destruct u as [|u|u|u|u|u|u|u|u|u|u]; try reflexivity;
      destruct u; reflexivity. }
  rewrite E, decimalPrefix_uintChars.
  destruct u; congruence.
Qed.

Lemma pos_to_uint_nonnil (p : positive) : Pos.to_uint p <> Decimal.Nil.
Proof.
  intros E.
  pose proof (DecimalPos.Unsigned.of_to p) as H.
  rewrite E in H. discriminate H.
Qed.

Lemma n_of_pos_to_uint (p : positive) : N.of_uint (Pos.to_uint p) = Npos p.
Proof. exact (DecimalN.Unsigned.of_to (Npos p)). Qed.

(** Reading back a printed integer gives the integer. *)
Lemma parseInt_toString (z : Z) : parseInt (toString (Some z)) = Some z.
Proof.
  destruct z as [|p|p]; [reflexivity| |].
  - unfold toString, parseInt. rewrite trimStart_uintChars.
    pose proof (pos_to_uint_nonnil p) as Hn.
    pose proof (parseMagnitude_uintChars _ Hn) as Hm.
    rewrite n_of_pos_to_uint in Hm.
    destruct (Pos.to_uint p) as [|u|u|u|u|u|u|u|u|u|u];
      try congruence; simpl uintChars in *; unfold digitChar in *;
      simpl N.add in *; cbv iota beta; rewrite Hm; reflexivity.
  - unfold toString, parseInt. simpl.
    rewrite (parseMagnitude_uintChars _ (pos_to_uint_nonnil p)).
    rewrite n_of_pos_to_uint. reflexivity.
Qed.

(* ================================================================== *)
(** ** The header name: truncation and wrapping *)

Lemma truncateName_short (name : jsstring) (maxLength : nat) :
  length name <= maxLength -> Pdf.truncateName name maxLength = name.
Proof.
  intros H. unfold Pdf.truncateName.
  destruct (Nat.leb_spec (length name) maxLength); [reflexivity | lia].
Qed.

Lemma truncateName_long (name : jsstring) (maxLength : nat) :
  maxLength < length name ->
  Pdf.truncateName name maxLength = firstn maxLength name ++ lit "...".
Proof.
  intros H. unfold Pdf.truncateName.
  destruct (Nat.leb_spec (length name) maxLength); [lia | reflexivity].
Qed.

Lemma truncateName_long_length (name : jsstring) (maxLength : nat) :
  maxLength < length name ->
  length (Pdf.truncateName name maxLength) = maxLength + 3.
Proof.
  intros H. rewrite truncateName_long by assumption.
  rewrite length_app, firstn_length_le by lia. reflexivity.
Qed.

(** C2.  A name longer than 30 characters is cut to its first 30 characters
    followed by three dots (33 characters in all), a name of at most 30
    characters is returned as it is, and the header lines are computed from
    the truncated name only: [splitNameForHeader] wraps the result of
    [truncateName], so two long names with the same first 30 characters
    give the same lines. *)
Theorem truncateName_before_wrapping (name : jsstring) :
  (30 < length name ->
     Pdf.truncateName name 30 = firstn 30 name ++ lit "..."
     /\ length (Pdf.truncateName name 30) = 33)
  /\ (length name <= 30 -> Pdf.truncateName name 30 = name)
  /\ Pdf.splitNameForHeader name 20
     = Pdf.wrapTruncated (Pdf.truncateName name 30) 20
  /\ (forall other : jsstring,
        30 < length name -> 30 < length other ->
        firstn 30 other = firstn 30 name ->
        Pdf.splitNameForHeader other 20 = Pdf.splitNameForHeader name 20).
Proof.
  repeat split.
  - apply truncateName_long; assumption.
  - apply truncateName_long_length; assumption.
  - apply truncateName_short.
  - intros other Hn Ho E. unfold Pdf.splitNameForHeader.
    rewrite !truncateName_long by assumption. rewrite E. reflexivity.
Qed.

(** A 40-character name: 30 characters and the dots, then wrapped. *)
Lemma truncateName_before_wrapping_witness :
  length Sample.name40 = 40
  /\ Pdf.truncateName Sample.name40 30
     = lit "Sistema de Gestao Financeira C..."
  /\ Pdf.splitNameForHeader Sample.name40 20
     = [lit "Sistema de Gestao"; lit "Financeira C..."].
Proof.
  pose proof (truncateName_before_wrapping Sample.name40)
    as [Hlong [_ [Hsplit _]]].
  split; [reflexivity | split].
  - destruct Hlong as [E _]; [vm_compute; lia | rewrite E; reflexivity].
  - rewrite Hsplit. reflexivity.
Defined.

Section Wrapping.

Variable maxLineLength : nat.
Variable words : list jsstring.

Lemma fits_word (w : jsstring) :
  In w words -> Pdf.fitsOrWord maxLineLength words w.
Proof.
  intros H. unfold Pdf.fitsOrWord.
  destruct (Nat.le_gt_cases (length w) maxLineLength); [left | right]; auto.
Qed.

Lemma wrapWord_fits (lines : list jsstring) (currentLine word : jsstring) :
  Forall (Pdf.fitsOrWord maxLineLength words) lines ->
  Pdf.fitsOrWord maxLineLength words currentLine ->
  In word words ->
  Forall (Pdf.fitsOrWord maxLineLength words)
    (fst (Pdf.wrapWord maxLineLength (lines, currentLine) word))
  /\ Pdf.fitsOrWord maxLineLength words
       (snd (Pdf.wrapWord maxLineLength (lines, currentLine) word)).
Proof.
  intros Hl Hc Hw. unfold Pdf.wrapWord.
  destruct (Nat.leb_spec
              (length (trim (currentLine ++ lit " " ++ word))) maxLineLength).
  - simpl; split; [assumption | left; assumption].
  - simpl; split; [| apply fits_word; assumption].
    destruct (truthy currentLine); [| assumption].
    apply Forall_app; split; [assumption | constructor; auto].
Qed.

Lemma wrap_loop_fits (ws : list jsstring) :
  forall acc,
    (forall w, In w ws -> In w words) ->
    Forall (Pdf.fitsOrWord maxLineLength words) (fst acc) ->
    Pdf.fitsOrWord maxLineLength words (snd acc) ->
    Forall (Pdf.fitsOrWord maxLineLength words)
      (fst (fold_left (Pdf.wrapWord maxLineLength) ws acc))
    /\ Pdf.fitsOrWord maxLineLength words
         (snd (fold_left (Pdf.wrapWord maxLineLength) ws acc)).
Proof.
  induction ws as [|w ws IH]; intros [lines cur] Hin Hl Hc; simpl.
  - split; assumption.
  - destruct (wrapWord_fits lines cur w Hl Hc) as [H1 H2];
      [apply Hin; left; reflexivity |].
    apply IH; [intros; apply Hin; right; assumption | assumption | assumption].
Qed.

End Wrapping.

Lemma wrapTruncated_fits (truncated : jsstring) (maxLineLength : nat) :
  Forall (Pdf.fitsOrWord maxLineLength (split 32%N truncated))
         (Pdf.wrapTruncated truncated maxLineLength).
Proof.
  unfold Pdf.wrapTruncated.
  destruct (Nat.leb_spec (length truncated) maxLineLength) as [Hle|Hgt].
  - constructor; [left; assumption | constructor].
  - pose proof (wrap_loop_fits maxLineLength (split 32%N truncated)
                  (split 32%N truncated) ([], []) (fun w H => H)) as H.
    destruct (fold_left (Pdf.wrapWord maxLineLength)
                (split 32%N truncated) ([], [])) as [lines cur].
    destruct H as [Hl Hc]; [constructor | left; simpl; lia |].
    simpl in Hl, Hc.
    assert (Hall : Forall
                     (Pdf.fitsOrWord maxLineLength (split 32%N truncated))
                     (if truthy cur then lines ++ [cur] else lines)).
    { destruct (truthy cur); [| exact Hl].
      apply Forall_app; split; [exact Hl | constructor; auto]. }
    destruct (0 <? length (if truthy cur then lines ++ [cur] else lines));
      [exact Hall |].
    constructor; [| constructor].
    left. unfold substring0. rewrite length_firstn. lia.
Qed.

(** *** The wrapping loop and greedy wrapping *)

Lemma wrap_loop_is_greedyWrap (m : nat) (ws : list jsstring) :
  forall (lines : list jsstring) (cur : jsstring),
    (let '(ls, c) := fold_left (Pdf.wrapWord m) ws (lines, cur) in
     if truthy c then ls ++ [c] else ls)
    = lines ++ Pdf.greedyWrap m cur ws.
Proof.
  induction ws as [|w ws IH]; intros lines cur;
    cbn [fold_left Pdf.greedyWrap].
  - destruct (truthy cur); [reflexivity | rewrite app_nil_r; reflexivity].
  - unfold Pdf.wrapWord at 2.
    destruct (length (trim (cur ++ lit " " ++ w)) <=? m).
    + apply IH.
    + rewrite IH. destruct (truthy cur);
        [rewrite <- app_assoc; reflexivity | reflexivity].
Qed.

Lemma wrapTruncated_is_greedyWrap (truncated : jsstring) (m : nat) :
  m < length truncated ->
  Pdf.wrapTruncated truncated m
  = match Pdf.greedyWrap m [] (split 32%N truncated) with
    | [] => [substring0 truncated m]
    | wrapped => wrapped
    end.
Proof.
  intros Hlong. unfold Pdf.wrapTruncated.
  destruct (Nat.leb_spec (length truncated) m); [lia |].
  pose proof (wrap_loop_is_greedyWrap m (split 32%N truncated) [] []) as E.
  cbn [app] in E.
  destruct (fold_left (Pdf.wrapWord m) (split 32%N truncated) ([], []))
    as [ls c] eqn:F.
  pose proof (f_equal
                (fun r : list jsstring * jsstring =>
                   let '(ls, c) := r in if truthy c then ls ++ [c] else ls) F)
    as G.
  pose proof (eq_trans (eq_sym G) E) as E'. cbv beta iota in E'.
  cbv zeta. rewrite <- E'.
  destruct (truthy c); destruct ls; reflexivity.
Qed.

(** **** White space aside, nothing is lost *)

Lemma withoutWhiteSpace_app (a b : jsstring) :
  Pdf.withoutWhiteSpace (a ++ b)
  = Pdf.withoutWhiteSpace a ++ Pdf.withoutWhiteSpace b.
Proof. apply filter_app. Qed.

Lemma withoutWhiteSpace_trimStart (s : jsstring) :
  Pdf.withoutWhiteSpace (trimStart s) = Pdf.withoutWhiteSpace s.
Proof.
  induction s as [|c s IH]; [reflexivity |]. cbn [trimStart].
  destruct (isWhiteSpace c) eqn:E; [| reflexivity].
  rewrite IH. unfold Pdf.withoutWhiteSpace. cbn [filter]. rewrite E.
  reflexivity.
Qed.

Lemma withoutWhiteSpace_rev (s : jsstring) :
  Pdf.withoutWhiteSpace (rev s) = rev (Pdf.withoutWhiteSpace s).
Proof.
  induction s as [|c s IH]; [reflexivity |]. cbn [rev].
  rewrite withoutWhiteSpace_app, IH. unfold Pdf.withoutWhiteSpace.
  cbn [filter]. destruct (isWhiteSpace c); cbn [negb rev];
    [apply app_nil_r | reflexivity].
Qed.

Lemma withoutWhiteSpace_trim (s : jsstring) :
  Pdf.withoutWhiteSpace (trim s) = Pdf.withoutWhiteSpace s.
Proof.
  unfold trim, trimEnd.
  rewrite withoutWhiteSpace_rev, withoutWhiteSpace_trimStart,
    withoutWhiteSpace_rev, rev_involutive.
  apply withoutWhiteSpace_trimStart.
Qed.

Lemma withoutWhiteSpace_words (s : jsstring) :
  Pdf.withoutWhiteSpace (concat (split 32%N s)) = Pdf.withoutWhiteSpace s.
Proof.
  induction s as [|c s IH]; [reflexivity |]. cbn [split].
  destruct (N.eqb_spec c 32%N) as [-> | Hc].
  - cbn [concat app]. rewrite IH. reflexivity.
  - destruct (split 32%N s) as [|w ws]; cbn [concat app] in *.
    + unfold Pdf.withoutWhiteSpace in *. cbn [filter]. rewrite <- IH.
      reflexivity.
    + unfold Pdf.withoutWhiteSpace in *. cbn [filter]. rewrite IH.
      reflexivity.
Qed.

Lemma greedyWrap_content (m : nat) (ws : list jsstring) :
  forall cur,
    Pdf.withoutWhiteSpace (concat (Pdf.greedyWrap m cur ws))
    = Pdf.withoutWhiteSpace cur ++ Pdf.withoutWhiteSpace (concat ws).
Proof.
  induction ws as [|w ws IH]; intros cur; cbn [Pdf.greedyWrap concat].
  - destruct cur; cbn [truthy concat]; rewrite ?app_nil_r; reflexivity.
  - rewrite (withoutWhiteSpace_app w).
    destruct (length (trim (cur ++ lit " " ++ w)) <=? m).
    + rewrite IH, withoutWhiteSpace_trim, !withoutWhiteSpace_app.
      rewrite <- app_assoc. reflexivity.
    + rewrite concat_app, withoutWhiteSpace_app, IH.
      destruct cur; cbn [truthy concat]; rewrite ?app_nil_r; reflexivity.
Qed.

Lemma withoutWhiteSpace_firstn_nil (n : nat) (s : jsstring) :
  Pdf.withoutWhiteSpace s = [] -> Pdf.withoutWhiteSpace (firstn n s) = [].
Proof.
  unfold Pdf.withoutWhiteSpace. revert n.
  induction s as [|c s IH]; intros [|n] H; cbn [firstn filter] in *;
    try reflexivity.
  destruct (isWhiteSpace c); cbn [negb] in *; [apply IH, H | discriminate H].
Qed.

Lemma wrapTruncated_content (truncated : jsstring) (m : nat) :
  Pdf.withoutWhiteSpace (concat (Pdf.wrapTruncated truncated m))
  = Pdf.withoutWhiteSpace truncated.
Proof.
  destruct (Nat.le_gt_cases (length truncated) m) as [Hle | Hgt].
  - unfold Pdf.wrapTruncated.
    destruct (Nat.leb_spec (length truncated) m); [| lia].
    cbn [concat]. rewrite app_nil_r. reflexivity.
  - rewrite (wrapTruncated_is_greedyWrap _ _ Hgt).
    pose proof (greedyWrap_content m (split 32%N truncated) []) as E.
    rewrite withoutWhiteSpace_words in E. cbn [app] in E.
    destruct (Pdf.greedyWrap m [] (split 32%N truncated)) as [|l ls].
    + assert (N : Pdf.withoutWhiteSpace truncated = [])
        by (symmetry; exact E).
      cbn [concat]. rewrite app_nil_r, N.
      apply withoutWhiteSpace_firstn_nil, N.
    + exact E.
Qed.

(** **** Names whose only white space is the space character *)

Lemma solidWord_edges (w : jsstring) : Pdf.solidWord w -> Pdf.solidEdges w.
Proof.
  intros [Hne Hall]. split.
  - destruct w as [|x t]; [congruence |]. exists x, t.
    split; [reflexivity | inversion Hall; assumption].
  - destruct (exists_last Hne) as [t [y E]]. exists t, y.
    split; [exact E |]. rewrite E in Hall.
    apply Forall_app in Hall. destruct Hall as [_ H].
    inversion H; assumption.
Qed.

Lemma solidEdges_app (a mid b : jsstring) :
  Pdf.solidEdges a -> Pdf.solidEdges b -> Pdf.solidEdges (a ++ mid ++ b).
Proof.
  intros [[x [t [Ea Hx]]] _] [_ [t' [y [Eb Hy]]]]. split.
  - exists x, (t ++ mid ++ b). rewrite Ea. split; [reflexivity | exact Hx].
  - exists (a ++ mid ++ t'), y. rewrite Eb.
    split; [rewrite <- !app_assoc; reflexivity | exact Hy].
Qed.

Lemma solidEdges_truthy (s : jsstring) : Pdf.solidEdges s -> truthy s = true.
Proof. intros [[x [t [E _]]] _]. rewrite E. reflexivity. Qed.

Lemma trimEnd_solidEdges (s : jsstring) : Pdf.solidEdges s -> trimEnd s = s.
Proof.
  intros [_ [t [y [E Hy]]]]. unfold trimEnd. rewrite E, rev_app_distr.
  cbn [rev app trimStart]. rewrite Hy. cbn [rev].
  rewrite rev_involutive. reflexivity.
Qed.

Lemma trimStart_solidEdges (s : jsstring) :
  Pdf.solidEdges s -> trimStart s = s.
Proof.
  intros [[x [t [E Hx]]] _]. rewrite E. cbn [trimStart]. rewrite Hx.
  reflexivity.
Qed.

Lemma trim_solidEdges (s : jsstring) : Pdf.solidEdges s -> trim s = s.
Proof.
  intros H. unfold trim. rewrite (trimStart_solidEdges s H).
  apply trimEnd_solidEdges, H.
Qed.

Lemma trim_space_before (s : jsstring) :
  Pdf.solidEdges s -> trim (lit " " ++ s) = s.
Proof. intros H. exact (trim_solidEdges s H). Qed.

Lemma trim_space_after (s : jsstring) :
  Pdf.solidEdges s -> trim (s ++ lit " ") = s.
Proof.
  intros H. unfold trim.
  assert (E : trimStart (s ++ lit " ") = s ++ lit " ").
  { destruct H as [[x [t [E Hx]]] _]. rewrite E. cbn [app trimStart].
    rewrite Hx. reflexivity. }
  rewrite E. unfold trimEnd. rewrite rev_app_distr.
  change (rev (lit " ") ++ rev s) with (32%N :: rev s).
  change (trimStart (32%N :: rev s)) with (trimStart (rev s)).
  apply (trimEnd_solidEdges s H).
Qed.

Lemma lineOfWords_snoc (g : list jsstring) (w : jsstring) :
  g <> [] ->
  Pdf.lineOfWords (g ++ [w]) = Pdf.lineOfWords g ++ lit " " ++ w.
Proof.
  unfold Pdf.lineOfWords. induction g as [|x g IH]; [congruence |].
  intros _. destruct g as [|y g]; [reflexivity |].
  change (join (lit " ") ((x :: y :: g) ++ [w]))
    with (x ++ lit " " ++ join (lit " ") ((y :: g) ++ [w])).
  rewrite IH by discriminate.
  change (join (lit " ") (x :: y :: g))
    with (x ++ lit " " ++ join (lit " ") (y :: g)).
  rewrite <- !app_assoc. reflexivity.
Qed.

Lemma lineOfWords_edges (g : list jsstring) :
  g <> [] -> Forall Pdf.solidWord g -> Pdf.solidEdges (Pdf.lineOfWords g).
Proof.
  unfold Pdf.lineOfWords. induction g as [|x g IH]; [congruence |].
  intros _ Hall. inversion Hall as [| ? ? Hx Hg]; subst.
  destruct g as [|y g]; [apply solidWord_edges, Hx |].
  change (join (lit " ") (x :: y :: g))
    with (x ++ lit " " ++ join (lit " ") (y :: g)).
  apply solidEdges_app; [apply solidWord_edges, Hx |].
  apply IH; [discriminate | exact Hg].
Qed.

(** The lines of [greedyWrap], started on the line of the words [g], are
    the lines of a division of [g] and the remaining words (the empty ones
    dropped) into groups, each line holding its words with one space
    between them, and a group ends only where the next word no longer
    fits. *)
Lemma greedyWrap_groups (m : nat) (ws : list jsstring) :
  Forall (Forall (fun c => isWhiteSpace c = false)) ws ->
  forall g,
    Forall Pdf.solidWord g ->
    exists groups,
      concat groups = g ++ filter truthy ws
      /\ Forall (fun group => group <> []) groups
      /\ Pdf.greedyWrap m (Pdf.lineOfWords g) ws
         = map Pdf.lineOfWords groups
      /\ Pdf.breaksOnlyWhenFull m groups
      /\ (g <> [] -> exists g' rest, groups = (g ++ g') :: rest).
Proof.
  induction 1 as [|w ws Hw Hws IH]; intros g Hg.
  - destruct g as [|x g].
    + exists []. refine (conj _ (conj _ (conj _ (conj _ _))));
        [reflexivity | constructor | reflexivity | exact I | congruence].
    + exists [x :: g]. cbn [Pdf.greedyWrap].
      rewrite (solidEdges_truthy _
                 (lineOfWords_edges (x :: g) ltac:(discriminate) Hg)).
      refine (conj _ (conj _ (conj _ (conj _ _)))).
      * reflexivity.
      * constructor; [discriminate | constructor].
      * reflexivity.
      * exact I.
      * intros _. exists [], []. rewrite app_nil_r. reflexivity.
  - cbn [Pdf.greedyWrap filter].
    destruct w as [|c w].
    + (* an empty word: two spaces in a row, or a space at an end *)
      cbn [truthy]. destruct g as [|x g].
      * change (trim (Pdf.lineOfWords [] ++ lit " " ++ [])) with (@nil codeunit).
        cbn [length Nat.leb]. apply (IH [] Hg).
      * pose proof (lineOfWords_edges (x :: g) ltac:(discriminate) Hg) as He.
        change (lit " " ++ []) with (lit " ").
        rewrite (trim_space_after _ He).
        destruct (Nat.leb_spec (length (Pdf.lineOfWords (x :: g))) m)
          as [Hfit | Hover].
        -- apply (IH (x :: g) Hg).
        -- rewrite (solidEdges_truthy _ He).
           destruct (IH [] ltac:(constructor))
             as [groups [Hc [Hne [Hl [Hb _]]]]].
           exists ((x :: g) :: groups). refine (conj _ (conj _ (conj _ (conj _ _)))).
           ++ cbn [concat]. rewrite Hc. reflexivity.
           ++ constructor; [discriminate | exact Hne].
           ++ change (Pdf.greedyWrap m [] ws)
                with (Pdf.greedyWrap m (Pdf.lineOfWords []) ws).
              rewrite Hl. reflexivity.
           ++ destruct groups as [|next groups]; [exact I |].
              split; [lia | exact Hb].
           ++ intros _. exists [], groups. rewrite app_nil_r. reflexivity.
    + assert (Hsolid : Pdf.solidWord (c :: w)) by (split; [discriminate | exact Hw]).
      pose proof (solidWord_edges _ Hsolid) as Hwe.
      cbn [truthy]. destruct g as [|x g].
      * (* the first word of a line *)
        change (Pdf.lineOfWords [] ++ lit " " ++ c :: w)
          with (lit " " ++ c :: w).
        rewrite (trim_space_before _ Hwe).
        change (truthy (Pdf.lineOfWords [])) with false. cbn [app].
        assert (Hone : exists groups,
                   concat groups = (c :: w) :: filter truthy ws
                   /\ Forall (fun group => group <> []) groups
                   /\ Pdf.greedyWrap m (c :: w) ws
                      = map Pdf.lineOfWords groups
                   /\ Pdf.breaksOnlyWhenFull m groups).
        { destruct (IH [c :: w] ltac:(constructor; [exact Hsolid | constructor]))
            as [groups [Hc [Hne [Hl [Hb _]]]]].
          exists groups. refine (conj _ (conj _ (conj _ _))); assumption. }
        destruct Hone as [groups [Hc [Hne [Hl Hb]]]].
        exists groups.
        destruct (length (c :: w) <=? m);
          (refine (conj _ (conj _ (conj _ (conj _ _))));
           [exact Hc | exact Hne | exact Hl | exact Hb
           | intros C; congruence]).
      * pose proof (lineOfWords_edges (x :: g) ltac:(discriminate) Hg) as He.
        rewrite (trim_solidEdges _ (solidEdges_app _ (lit " ") _ He Hwe)).
        destruct (Nat.leb_spec
                    (length (Pdf.lineOfWords (x :: g) ++ lit " " ++ c :: w)) m)
          as [Hfit | Hover].
        -- (* the word joins the line *)
           rewrite <- (lineOfWords_snoc (x :: g) (c :: w)) by discriminate.
           destruct (IH ((x :: g) ++ [c :: w]))
             as [groups [Hc [Hne [Hl [Hb Hfirst]]]]].
           { apply Forall_app. split; [exact Hg |].
             constructor; [exact Hsolid | constructor]. }
           exists groups.
           refine (conj _ (conj Hne (conj Hl (conj Hb _)))).
           ++ rewrite Hc, <- app_assoc. reflexivity.
           ++ intros _. destruct Hfirst as [g' [rest E]];
                [destruct g; discriminate |].
              exists ((c :: w) :: g'), rest. rewrite E, <- app_assoc.
              reflexivity.
        -- (* the line is finished and the word starts the next one *)
           rewrite (solidEdges_truthy _ He).
           destruct (IH [c :: w] ltac:(constructor; [exact Hsolid | constructor]))
             as [groups [Hc [Hne [Hl [Hb Hfirst]]]]].
           destruct Hfirst as [g' [rest E]]; [discriminate |].
           exists ((x :: g) :: groups). refine (conj _ (conj _ (conj _ (conj _ _)))).
           ++ cbn [concat]. rewrite Hc. reflexivity.
           ++ constructor; [discriminate | exact Hne].
           ++ change (Pdf.lineOfWords [c :: w]) with (c :: w) in Hl.
              rewrite Hl. reflexivity.
           ++ rewrite E. rewrite E in Hb. split; [| exact Hb].
              rewrite !length_app in Hover.
              change (length (lit " ")) with 1 in Hover.
              cbn [app hd]. lia.
           ++ intros _. exists [], groups. rewrite app_nil_r. reflexivity.
Qed.

Lemma split_plainSpaces (s : jsstring) :
  Pdf.plainSpaces s ->
  Forall (Forall (fun c => isWhiteSpace c = false)) (split 32%N s).
Proof.
  unfold Pdf.plainSpaces.
  induction s as [|c s IH]; intros H; cbn [split].
  - constructor; constructor.
  - inversion H as [| ? ? Hc Hs]; subst. specialize (IH Hs).
    destruct (N.eqb_spec c 32%N) as [-> | Hne].
    + constructor; [constructor | exact IH].
    + assert (Hsolid : isWhiteSpace c = false).
      { destruct (isWhiteSpace c); [elim Hne; apply Hc |]; reflexivity. }
      destruct (split 32%N s) as [|w ws].
      * constructor; [constructor; [exact Hsolid | constructor] | constructor].
      * inversion IH; subst.
        constructor; [constructor; assumption | assumption].
Qed.

Lemma truncateName_plainSpaces (name : jsstring) (maxLength : nat) :
  Pdf.plainSpaces name -> Pdf.plainSpaces (Pdf.truncateName name maxLength).
Proof.
  unfold Pdf.plainSpaces, Pdf.truncateName. intros H.
  destruct (length name <=? maxLength); [exact H |].
  apply Forall_app. split.
  - rewrite <- (firstn_skipn maxLength name) in H.
    apply Forall_app in H. exact (proj1 H).
  - repeat constructor; intros C; vm_compute in C; discriminate C.
Qed.

Lemma wrapTruncated_groups (truncated : jsstring) (m : nat) :
  m < length truncated ->
  Pdf.plainSpaces truncated ->
  exists groups,
    concat groups = filter truthy (split 32%N truncated)
    /\ Forall (fun group => group <> []) groups
    /\ Pdf.breaksOnlyWhenFull m groups
    /\ Pdf.wrapTruncated truncated m
       = match groups with
         | [] => [substring0 truncated m]
         | _ :: _ => map Pdf.lineOfWords groups
         end.
Proof.
  intros Hlong Hplain.
  destruct (greedyWrap_groups m (split 32%N truncated)
              (split_plainSpaces truncated Hplain) [] ltac:(constructor))
    as [groups [Hc [Hne [Hl [Hb _]]]]].
  exists groups. refine (conj Hc (conj Hne (conj Hb _))).
  rewrite (wrapTruncated_is_greedyWrap truncated m Hlong).
  change (Pdf.lineOfWords []) with (@nil codeunit) in Hl. rewrite Hl.
  destruct groups; reflexivity.
Qed.

(** C3, as the code has it.  A truncated name within the 20-character
    budget is returned as a single line.  Otherwise the lines are those of
    greedy wrapping by words: the words of the truncated name (its pieces
    between spaces) are taken in order, a word joining the current line
    when the line with a space and the word added, trimmed, has at most 20
    characters, and starting the next line otherwise; 20 characters of the
    truncated name are returned when that leaves no line at all.  White
    space aside, the lines hold the characters of the truncated name, in
    order.  When the space is the only white space of the name, the lines
    are the non-empty words divided in order into non-empty groups, each
    line being its words with one space between them, and a group ends only
    where the next word, with a space before it, would take the line past
    20 characters.  Every returned line has at most 20 characters or is a
    single word that is itself longer than 20 characters: words are never
    broken.  In particular, when no word of the truncated name exceeds 20
    characters, every line has at most 20 characters. *)
Theorem splitNameForHeader_line_lengths (name : jsstring) :
  let truncated := Pdf.truncateName name 30 in
  let lines := Pdf.splitNameForHeader name 20 in
  (length truncated <= 20 -> lines = [truncated])
  /\ Forall (fun line =>
               length line <= 20
               \/ (20 < length line /\ In line (split 32%N truncated)))
            lines
  /\ ((forall word, In word (split 32%N truncated) -> length word <= 20) ->
      Forall (fun line => length line <= 20) lines)
  /\ (20 < length truncated ->
      lines = match Pdf.greedyWrap 20 [] (split 32%N truncated) with
              | [] => [substring0 truncated 20]
              | wrapped => wrapped
              end)
  /\ Pdf.withoutWhiteSpace (concat lines) = Pdf.withoutWhiteSpace truncated
  /\ (20 < length truncated ->
      Pdf.plainSpaces name ->
      exists groups,
        concat groups = filter truthy (split 32%N truncated)
        /\ Forall (fun group => group <> []) groups
        /\ Pdf.breaksOnlyWhenFull 20 groups
        /\ lines = match groups with
                   | [] => [substring0 truncated 20]
                   | _ :: _ => map Pdf.lineOfWords groups
                   end).
Proof.
  intros truncated lines.
  pose proof (wrapTruncated_fits truncated 20) as Hfits.
  fold (Pdf.splitNameForHeader name 20) in Hfits. fold lines in Hfits.
  unfold Pdf.fitsOrWord in Hfits.
  refine (conj _ (conj Hfits (conj _ (conj _ (conj _ _))))).
  - intros Hle. unfold lines, Pdf.splitNameForHeader, Pdf.wrapTruncated.
    fold truncated.
    destruct (Nat.leb_spec (length truncated) 20); [reflexivity | lia].
  - intros Hwords. eapply Forall_impl; [| exact Hfits].
    intros line [Hle | [Hgt Hin]]; [assumption |].
    specialize (Hwords line Hin). lia.
  - intros Hlong. exact (wrapTruncated_is_greedyWrap truncated 20 Hlong).
  - exact (wrapTruncated_content truncated 20).
  - intros Hlong Hplain.
    exact (wrapTruncated_groups truncated 20 Hlong
             (truncateName_plainSpaces name 30 Hplain)).
Qed.

(** A short name, and a 40-character name all of whose words fit: its
    truncation wraps into two lines. *)
Lemma splitNameForHeader_line_lengths_witness :
  Pdf.splitNameForHeader (lit "Portal") 20 = [lit "Portal"]
  /\ Forall (fun line => length line <= 20)
       (Pdf.splitNameForHeader Sample.name40 20)
  /\ Pdf.splitNameForHeader Sample.name40 20
     = [lit "Sistema de Gestao"; lit "Financeira C..."]
  /\ (exists groups,
        concat groups
        = filter truthy (split 32%N (Pdf.truncateName Sample.name40 30))
        /\ Forall (fun group => group <> []) groups
        /\ Pdf.breaksOnlyWhenFull 20 groups
        /\ Pdf.splitNameForHeader Sample.name40 20
           = match groups with
             | [] => [substring0 (Pdf.truncateName Sample.name40 30) 20]
             | _ :: _ => map Pdf.lineOfWords groups
             end).
Proof.
  split; [| split; [| split]].
  - apply (proj1 (splitNameForHeader_line_lengths (lit "Portal"))).
    vm_compute; lia.
  - apply (proj1 (proj2 (proj2 (splitNameForHeader_line_lengths Sample.name40)))).
    intros word Hin. vm_compute in Hin.
    repeat (destruct Hin as [<- | Hin]; [vm_compute; lia |]).
    destruct Hin.
  - rewrite (proj1 (proj2 (proj2 (proj2 (splitNameForHeader_line_lengths Sample.name40)))));
      [reflexivity | vm_compute; lia].
  - apply (proj2 (proj2 (proj2 (proj2 (proj2 (splitNameForHeader_line_lengths Sample.name40))))));
      [vm_compute; lia |].
    vm_compute.
    repeat (apply Forall_cons;
            [intros C; first [reflexivity | discriminate C] |]).
    apply Forall_nil.
Defined.

(** C3 as stated fails: a name that is one word of 22 characters exceeds
    the budget and comes back as one line of 22 characters. *)
Lemma splitNameForHeader_overlong_word :
  20 < length (Pdf.truncateName Sample.oneWordName 30)
  /\ Pdf.splitNameForHeader Sample.oneWordName 20 = [Sample.oneWordName]
  /\ ~ Forall (fun line => length line <= 20)
        (Pdf.splitNameForHeader Sample.oneWordName 20).
Proof.
  split; [vm_compute; lia | split; [reflexivity |]].
  intros H. vm_compute in H. inversion H as [| ? ? Hlen _]. lia.
Qed.

(* ================================================================== *)
(** ** The list handlers of the form view *)

Lemma filterFrom_drop_last {A} (l : list A) (x : A) :
  forall k,
    App.filterFrom
      (fun _ i => negb (Z.of_nat i =? Z.of_nat (k + length l))%Z)
      (l ++ [x]) k = l.
Proof.
  induction l as [|y l IH]; intros k; simpl.
  - rewrite Nat.add_0_r, Z.eqb_refl. reflexivity.
  - destruct (Z.eqb_spec (Z.of_nat k) (Z.of_nat (k + S (length l))));
      [lia |]. simpl.
    f_equal. specialize (IH (S k)).
    replace (S k + length l) with (k + S (length l)) in IH by lia.
    exact IH.
Qed.

(** C6.  Typing a member whose trimmed name is not empty, adding it, and
    removing the entry at the index it was appended at (the former length
    of the list) gives back the team list as it was. *)
Theorem add_then_remove_team_member (st : App.State) (s : jsstring) :
  truthy (trim s) = true ->
  let added := App.run st [App.TypeTeamMember s; App.AddTeamMember] in
  App.team added = App.team st ++ [trim s]
  /\ App.team
       (App.removeTeamMember (Z.of_nat (length (App.team st))) added)
     = App.team st.
Proof.
  intros Hs added.
  assert (E : App.team added = App.team st ++ [trim s]).
  { unfold added. simpl. unfold App.addTeamMember. simpl. rewrite Hs.
    reflexivity. }
  split; [exact E |].
  unfold App.removeTeamMember. simpl. rewrite E.
  exact (filterFrom_drop_last (App.team st) (trim s) 0).
Qed.

Lemma add_then_remove_team_member_witness :
  App.team
    (App.removeTeamMember 1
       (App.run Sample.withAna
          [App.TypeTeamMember (lit " Bruno "); App.AddTeamMember]))
  = [lit "Ana"].
Proof.
  exact (proj2 (add_then_remove_team_member Sample.withAna (lit " Bruno ")
                  eq_refl)).
Defined.

(** C8.  With a pending member name that trims to the empty string
    [addTeamMember] returns the state it was given, and so does
    [addMilestone] with a pending title that trims to the empty string:
    no list and no other cell changes. *)
Theorem add_blank_is_noop (st : App.State) :
  (trim (App.newTeamMember st) = [] -> App.addTeamMember st = st)
  /\ (trim (App.NewMilestone.title (App.newMilestone st)) = [] ->
      App.addMilestone st = st).
Proof.
  split; intros H.
  - unfold App.addTeamMember. rewrite H. reflexivity.
  - unfold App.addMilestone. rewrite H. reflexivity.
Qed.

Lemma add_blank_is_noop_witness :
  App.addTeamMember Sample.blankInputs = Sample.blankInputs
  /\ App.addMilestone Sample.blankInputs = Sample.blankInputs.
Proof.
  split; apply (add_blank_is_noop Sample.blankInputs); reflexivity.
Defined.

(** C10.  The record built at submit carries the session's unique code in
    both [id] and [uniqueCode], and the one timestamp taken at submit in
    both [createdAt] and [updatedAt]; this holds for whatever values the
    form hands over. *)
Theorem newProject_consistent
    (st : App.State) (data : App.ProjectFormValues) (now : jsstring) :
  let project := App.newProject st data now in
  Project.id project = App.uniqueCode st
  /\ Project.uniqueCode project = App.uniqueCode st
  /\ Project.id project = Project.uniqueCode project
  /\ Project.createdAt project = now
  /\ Project.updatedAt project = now
  /\ Project.createdAt project = Project.updatedAt project.
Proof. repeat split. Qed.

(** *** Technology groups *)

Lemma groupsOf_nil_find (c : jsstring) (l : list TechStack.t) :
  App.groupsOf c l = [] ->
  find (fun s => eqb (TechStack.category s) c) l = None.
Proof.
  unfold App.groupsOf. induction l as [|g l IH]; simpl; [reflexivity |].
  destruct (eqb (TechStack.category g) c); [discriminate | exact IH].
Qed.

Lemma groupsOf_nil_map (c : jsstring) (f : TechStack.t -> TechStack.t)
    (l : list TechStack.t) :
  App.groupsOf c l = [] ->
  map (fun s => if eqb (TechStack.category s) c then f s else s) l = l.
Proof.
  unfold App.groupsOf. induction l as [|g l IH]; simpl; [reflexivity |].
  destruct (eqb (TechStack.category g) c); [discriminate |].
  intros H. rewrite (IH H). reflexivity.
Qed.

Lemma find_app_none {A} (p : A -> bool) (l1 l2 : list A) :
  find p l1 = None -> find p (l1 ++ l2) = find p l2.
Proof.
  induction l1 as [|x l1 IH]; simpl; [reflexivity |].
  destruct (p x); [discriminate | exact IH].
Qed.

Lemma groupsOf_app (c : jsstring) (l1 l2 : list TechStack.t) :
  App.groupsOf c (l1 ++ l2) = App.groupsOf c l1 ++ App.groupsOf c l2.
Proof. apply filter_app. Qed.

(** C5.  On a list with no group for category [c], selecting [c], typing a
    technology whose trimmed text is not empty and adding it appends one
    group holding just the trimmed entry, the only group for [c]; typing
    and adding a second technology keeps that single group and appends the
    second entry after the first. *)
Theorem addTechnology_new_then_append
    (st : App.State) (c s1 s2 : jsstring) :
  App.groupsOf c (App.techStack st) = [] ->
  truthy (trim s1) = true ->
  truthy (trim s2) = true ->
  let st1 := App.run st [App.SelectTechCategory c; App.TypeTechnology s1;
                         App.AddTechnology] in
  let st2 := App.run st1 [App.TypeTechnology s2; App.AddTechnology] in
  App.techStack st1 = App.techStack st ++ [TechStack.mk c [trim s1]]
  /\ App.groupsOf c (App.techStack st1) = [TechStack.mk c [trim s1]]
  /\ App.techStack st2
     = App.techStack st ++ [TechStack.mk c [trim s1; trim s2]]
  /\ App.groupsOf c (App.techStack st2)
     = [TechStack.mk c [trim s1; trim s2]].
Proof.
  intros Hnew H1 H2 st1 st2.
  assert (E1 : App.techStack st1
               = App.techStack st ++ [TechStack.mk c [trim s1]]).
  { unfold st1. simpl. unfold App.addTechnology. simpl.
    rewrite H1, (groupsOf_nil_find c _ Hnew). reflexivity. }
  assert (C1 : App.NewTech.category (App.newTech st1) = c).
  { unfold st1. simpl. unfold App.addTechnology. simpl.
    rewrite H1. destruct (find _ _); reflexivity. }
  assert (E2 : App.techStack st2
               = App.techStack st ++ [TechStack.mk c [trim s1; trim s2]]).
  { unfold st2. simpl. unfold App.addTechnology. simpl.
    rewrite H2, C1, E1.
    rewrite (find_app_none _ _ _ (groupsOf_nil_find c _ Hnew)). simpl.
    rewrite eqb_refl. simpl. rewrite E1.
    rewrite map_app, (groupsOf_nil_map c _ _ Hnew). simpl.
    rewrite eqb_refl. reflexivity. }
  repeat split.
  - exact E1.
  - rewrite E1, groupsOf_app, Hnew. simpl.
    unfold App.groupsOf. simpl. rewrite eqb_refl. reflexivity.
  - exact E2.
  - rewrite E2, groupsOf_app, Hnew. simpl.
    unfold App.groupsOf. simpl. rewrite eqb_refl. reflexivity.
Qed.

Lemma addTechnology_new_then_append_witness :
  App.techStack
    (App.run Sample.withReact
       [App.SelectTechCategory (lit "Backend");
        App.TypeTechnology (lit " Node.js"); App.AddTechnology;
        App.TypeTechnology (lit "Express "); App.AddTechnology])
  = [TechStack.mk (lit "Frontend") [lit "React"];
     TechStack.mk (lit "Backend") [lit "Node.js"; lit "Express"]].
Proof.
  exact (proj1 (proj2 (proj2
    (addTechnology_new_then_append Sample.withReact (lit "Backend")
       (lit " Node.js") (lit "Express ") eq_refl eq_refl eq_refl)))).
Defined.

Lemma withoutTechnology_app (c tech : jsstring) (l1 l2 : list TechStack.t) :
  App.withoutTechnology c tech (l1 ++ l2)
  = App.withoutTechnology c tech l1 ++ App.withoutTechnology c tech l2.
Proof. unfold App.withoutTechnology. rewrite map_app, filter_app. reflexivity. Qed.

Lemma withoutTechnology_others (c tech : jsstring) (l : list TechStack.t) :
  (forall s, In s l ->
     TechStack.category s <> c /\ TechStack.technologies s <> []) ->
  App.withoutTechnology c tech l = l.
Proof.
  unfold App.withoutTechnology.
  induction l as [|g l IH]; intros H; simpl; [reflexivity |].
  destruct (H g (or_introl eq_refl)) as [Hc Ht].
  apply eqb_neq in Hc. rewrite Hc.
  destruct (TechStack.technologies g) eqn:E; [congruence |]. simpl.
  rewrite IH; [reflexivity |]. intros s Hs. apply H. right. exact Hs.
Qed.

Lemma filter_other_nil (tech : jsstring) (l : list jsstring) :
  (forall t, In t l -> t = tech) ->
  filter (fun t => negb (eqb t tech)) l = [].
Proof.
  induction l as [|x l IH]; intros H; simpl; [reflexivity |].
  rewrite (H x (or_introl eq_refl)), eqb_refl. simpl.
  apply IH. intros t Ht. apply H. right. exact Ht.
Qed.

Lemma filter_other_nonempty (tech : jsstring) (l : list jsstring) :
  (exists t, In t l /\ t <> tech) ->
  filter (fun t => negb (eqb t tech)) l <> [].
Proof.
  intros [t [Hin Hne]] E.
  assert (Hf : In t (filter (fun t => negb (eqb t tech)) l)).
  { apply filter_In. split; [exact Hin |].
    apply eqb_neq in Hne. rewrite Hne. reflexivity. }
  rewrite E in Hf. destruct Hf.
Qed.

(** C4.  Take any tech-stack list and any group [g] in it, of category
    [c].  If [tech] is the only technology of [g], [removeTechnology c tech]
    drops [g] from the list; if [g] holds a technology other than [tech],
    [g] stays in its place and holds the entries other than [tech], in
    their order.  Groups of other categories that are not empty are left as
    they are. *)
Theorem removeTechnology_group
    (st : App.State) (before after : list TechStack.t) (g : TechStack.t)
    (tech : jsstring) :
  App.techStack st = before ++ g :: after ->
  let c := TechStack.category g in
  let result := App.techStack (App.removeTechnology c tech st) in
  ((forall t, In t (TechStack.technologies g) -> t = tech) ->
     result = App.withoutTechnology c tech before
              ++ App.withoutTechnology c tech after)
  /\ ((exists t, In t (TechStack.technologies g) /\ t <> tech) ->
      result = App.withoutTechnology c tech before
               ++ TechStack.mk c
                    (filter (fun t => negb (eqb t tech))
                            (TechStack.technologies g))
               :: App.withoutTechnology c tech after)
  /\ ((forall s, In s (before ++ after) ->
         TechStack.category s <> c /\ TechStack.technologies s <> []) ->
      App.withoutTechnology c tech before = before
      /\ App.withoutTechnology c tech after = after).
Proof.
  intros Hst c result.
  assert (E : result = App.withoutTechnology c tech before
                       ++ App.withoutTechnology c tech [g]
                       ++ App.withoutTechnology c tech after).
  { unfold result, App.removeTechnology. simpl. rewrite Hst.
    rewrite withoutTechnology_app.
    change (g :: after) with ([g] ++ after).
    rewrite withoutTechnology_app. reflexivity. }
  assert (G : App.withoutTechnology c tech [g]
              = let rest := filter (fun t => negb (eqb t tech))
                              (TechStack.technologies g) in
                if 0 <? length rest then [TechStack.mk c rest] else []).
  { unfold App.withoutTechnology, c. simpl. rewrite eqb_refl. simpl.
    reflexivity. }
  split; [| split].
  - intros Honly. rewrite E, G. simpl.
    rewrite (filter_other_nil tech _ Honly). reflexivity.
  - intros Hother. rewrite E, G. simpl.
    pose proof (filter_other_nonempty tech _ Hother) as Hne.
    destruct (filter _ (TechStack.technologies g)); [congruence |].
    reflexivity.
  - intros Hothers. split; apply withoutTechnology_others;
      intros s Hs; apply Hothers; apply in_or_app; [left | right]; exact Hs.
Qed.

Lemma removeTechnology_group_witness :
  App.techStack
    (App.removeTechnology (lit "Frontend") (lit "React") Sample.withStacks)
  = [TechStack.mk (lit "Backend") [lit "Node.js"; lit "Express"]]
  /\ App.techStack
       (App.removeTechnology (lit "Backend") (lit "Node.js")
          Sample.withStacks)
     = [TechStack.mk (lit "Frontend") [lit "React"];
        TechStack.mk (lit "Backend") [lit "Express"]].
Proof.
  split.
  - refine (proj1 (removeTechnology_group Sample.withStacks []
             [TechStack.mk (lit "Backend") [lit "Node.js"; lit "Express"]]
             (TechStack.mk (lit "Frontend") [lit "React"])
             (lit "React") eq_refl) _).
    intros t [<- | []]. reflexivity.
  - refine (proj1 (proj2 (removeTechnology_group Sample.withStacks
             [TechStack.mk (lit "Frontend") [lit "React"]] []
             (TechStack.mk (lit "Backend") [lit "Node.js"; lit "Express"])
             (lit "Node.js") eq_refl)) _).
    exists (lit "Express"). split; [right; left; reflexivity | discriminate].
Defined.

(** *** Milestone identifiers *)

Lemma lastOf_map {A B} (f : A -> B) (l : list A) :
  App.lastOf (map f l) = option_map f (App.lastOf l).
Proof.
  induction l as [|x l IH]; [reflexivity |].
  destruct l as [|y l]; [reflexivity | exact IH].
Qed.

Lemma lastOf_none {A} (l : list A) : App.lastOf l = None -> l = [].
Proof.
  induction l as [|x l IH]; [reflexivity |].
  destruct l as [|y l]; [discriminate |].
  intros H. specialize (IH H). discriminate IH.
Qed.

Lemma sorted_last_max (ns : list Z) (n : Z) :
  StronglySorted Z.lt ns -> App.lastOf ns = Some n ->
  Forall (fun x => (x <= n)%Z) ns.
Proof.
  induction 1 as [|a l Hs IH Ha]; intros Hl; [constructor |].
  destruct l as [|b l].
  - injection Hl as <-. constructor; [lia | constructor].
  - specialize (IH Hl). constructor; [| exact IH].
    inversion Ha as [| ? ? Hab _]; subst.
    inversion IH as [| ? ? Hbn _]; subst. lia.
Qed.

Lemma sorted_snoc (ns : list Z) (k : Z) :
  StronglySorted Z.lt ns -> Forall (fun x => (x < k)%Z) ns ->
  StronglySorted Z.lt (ns ++ [k]).
Proof.
  induction 1 as [|a l Hs IH Ha]; intros Hk; simpl.
  - constructor; constructor.
  - inversion Hk as [| ? ? Hak Hlk]; subst.
    constructor; [apply IH; exact Hlk |].
    apply Forall_app. split; [exact Ha | constructor; [exact Hak | constructor]].
Qed.

Lemma sorted_NoDup (ns : list Z) : StronglySorted Z.lt ns -> NoDup ns.
Proof.
  induction 1 as [|a l Hs IH Ha]; constructor; [| exact IH].
  intros Hin. rewrite Forall_forall in Ha. specialize (Ha a Hin). lia.
Qed.

Lemma NoDup_map_Some {A} (l : list A) : NoDup l -> NoDup (map Some l).
Proof.
  induction 1 as [|x l Hx Hl IH]; simpl; constructor; [| exact IH].
  intros Hin. apply in_map_iff in Hin. destruct Hin as [y [Hy Hin]].
  injection Hy as ->. exact (Hx Hin).
Qed.

Lemma sequentialIds_filter (p : ProjectMilestone.t -> bool)
    (ms : list ProjectMilestone.t) :
  App.sequentialIds ms -> App.sequentialIds (filter p ms).
Proof.
  intros [ns [E S]]. revert ns E S.
  induction ms as [|m ms IH]; intros ns E S.
  - exists []. split; [reflexivity | constructor].
  - destruct ns as [|n ns]; [discriminate |].
    simpl in E. injection E as En E.
    inversion S as [| ? ? S' Hn]; subst.
    destruct (IH ns E S') as [ns' [E' S'']].
    simpl. destruct (p m); [| exists ns'; split; assumption].
    assert (Hsub : forall x, In x ns' -> In x ns).
    { intros x Hx.
      assert (Hi : In (Some x) (App.idNumbers (filter p ms)))
        by (rewrite E'; apply in_map; exact Hx).
      unfold App.idNumbers in Hi. apply in_map_iff in Hi.
      destruct Hi as [m' [Hm' Hf]]. apply filter_In in Hf.
      assert (Hj : In (Some x) (map Some ns)).
      { rewrite <- E, <- Hm'. unfold App.idNumbers.
        apply in_map with (f := fun m => parseInt (ProjectMilestone.id m)).
        apply Hf. }
      apply in_map_iff in Hj. destruct Hj as [y [Hy Hin]].
      injection Hy as ->. exact Hin. }
    exists (n :: ns'). split.
    + simpl. rewrite En, E'. reflexivity.
    + constructor; [exact S'' |].
      rewrite Forall_forall in *. intros x Hx. apply Hn, Hsub, Hx.
Qed.

Lemma nextId_number (ms : list ProjectMilestone.t) :
  App.sequentialIds ms ->
  (ms = [] -> App.nextId ms = lit "1")
  /\ (forall l, App.lastOf ms = Some l ->
        exists n, parseInt (ProjectMilestone.id l) = Some n
                  /\ App.nextId ms = toString (Some (n + 1)%Z)
                  /\ parseInt (App.nextId ms) = Some (n + 1)%Z).
Proof.
  intros [ns [E S]]. split.
  - intros ->. reflexivity.
  - intros l Hl.
    assert (Hn : App.lastOf (App.idNumbers ms)
                 = Some (parseInt (ProjectMilestone.id l))).
    { unfold App.idNumbers. rewrite lastOf_map, Hl. reflexivity. }
    rewrite E, lastOf_map in Hn.
    destruct (App.lastOf ns) as [n|]; [| discriminate].
    injection Hn as Hn. exists n.
    unfold App.nextId. rewrite Hl, <- Hn. simpl.
    change (Z.succ n) with (n + 1)%Z.
    repeat split. apply parseInt_toString.
Qed.

Lemma sequentialIds_add (ms : list ProjectMilestone.t)
    (m : ProjectMilestone.t) :
  App.sequentialIds ms -> ProjectMilestone.id m = App.nextId ms ->
  App.sequentialIds (ms ++ [m]).
Proof.
  intros Hseq Hid.
  destruct (nextId_number ms Hseq) as [Hempty Hlast].
  destruct Hseq as [ns [E S]].
  assert (Eapp : App.idNumbers (ms ++ [m])
                 = App.idNumbers ms ++ [parseInt (App.nextId ms)]).
  { unfold App.idNumbers. rewrite map_app. simpl. rewrite Hid. reflexivity. }
  destruct (App.lastOf ms) as [l|] eqn:Hl.
  - destruct (Hlast l eq_refl) as [n [Hn [_ Hp]]].
    exists (ns ++ [(n + 1)%Z]). split.
    + rewrite Eapp, Hp, E, map_app. reflexivity.
    + apply sorted_snoc; [exact S |].
      assert (Hln : App.lastOf ns = Some n).
      { assert (H : App.lastOf (App.idNumbers ms) = Some (Some n)).
        { unfold App.idNumbers. rewrite lastOf_map, Hl. simpl.
          rewrite Hn. reflexivity. }
        rewrite E, lastOf_map in H.
        destruct (App.lastOf ns); [| discriminate].
        simpl in H. congruence. }
      eapply Forall_impl; [| exact (sorted_last_max ns n S Hln)].
      simpl. intros. lia.
  - apply lastOf_none in Hl. subst ms.
    exists [1%Z]. split; [| repeat constructor].
    rewrite Eapp. reflexivity.
Qed.

Lemma step_sequentialIds (st : App.State) (e : App.Event) :
  App.sequentialIds (App.milestones st) ->
  App.sequentialIds (App.milestones (App.step st e)).
Proof.
  intros H. destruct e; simpl; try exact H.
  - unfold App.addTeamMember.
    destruct (truthy (trim (App.newTeamMember st))); exact H.
  - unfold App.addMilestone.
    destruct (truthy (trim (App.NewMilestone.title (App.newMilestone st))));
      [| exact H].
    simpl. apply sequentialIds_add; [exact H | reflexivity].
  - apply sequentialIds_filter. exact H.
  - unfold App.addTechnology.
    destruct (truthy (trim (App.NewTech.technology (App.newTech st))));
      [| exact H].
    destruct (find _ _); exact H.
Qed.

Lemma run_sequentialIds (events : list App.Event) :
  forall st, App.sequentialIds (App.milestones st) ->
             App.sequentialIds (App.milestones (App.run st events)).
Proof.
  unfold App.run.
  induction events as [|e events IH]; intros st H; simpl; [exact H |].
  apply IH, step_sequentialIds, H.
Qed.

Lemma lastOf_In {A} (l : list A) (x : A) : App.lastOf l = Some x -> In x l.
Proof.
  induction l as [|y l IH]; [discriminate |].
  destruct l as [|z l].
  - intros H. injection H as <-. left. reflexivity.
  - intros H. right. apply IH. exact H.
Qed.

Lemma boundedIds_weaken (k k' : Z) (ms : list ProjectMilestone.t) :
  (k <= k')%Z -> App.boundedIds k ms -> App.boundedIds k' ms.
Proof.
  intros Hk H m Hm. destruct (H m Hm) as [n [Hn Hb]].
  exists n. split; [exact Hn | lia].
Qed.

Lemma boundedIds_add (k : Z) (ms : list ProjectMilestone.t)
    (m : ProjectMilestone.t) :
  (0 <= k)%Z -> App.sequentialIds ms -> App.boundedIds k ms ->
  ProjectMilestone.id m = App.nextId ms ->
  App.boundedIds (k + 1) (ms ++ [m]).
Proof.
  intros Hk Hseq Hb Hid m' Hin.
  apply in_app_or in Hin. destruct Hin as [Hin | [<- | []]].
  - destruct (Hb m' Hin) as [n [Hn Hr]]. exists n. split; [exact Hn | lia].
  - destruct (nextId_number ms Hseq) as [Hempty Hlast].
    rewrite Hid.
    destruct (App.lastOf ms) as [l|] eqn:Hl.
    + destruct (Hlast l eq_refl) as [n [Hn [_ Hp]]].
      destruct (Hb l (lastOf_In ms l Hl)) as [n' [Hn' Hr]].
      assert (n' = n) by congruence. subst n'.
      exists (n + 1)%Z. split; [exact Hp | lia].
    + apply lastOf_none in Hl. rewrite (Hempty Hl).
      exists 1%Z. split; [reflexivity | lia].
Qed.

Lemma step_boundedIds (k : Z) (st : App.State) (e : App.Event) :
  (0 <= k)%Z ->
  App.sequentialIds (App.milestones st) ->
  App.boundedIds k (App.milestones st) ->
  App.boundedIds (k + 1) (App.milestones (App.step st e)).
Proof.
  intros Hk Hseq H.
  assert (Hw : App.boundedIds (k + 1) (App.milestones st))
    by (apply (boundedIds_weaken k); [lia | exact H]).
  destruct e; simpl; try exact Hw.
  - unfold App.addTeamMember.
    destruct (truthy (trim (App.newTeamMember st))); exact Hw.
  - unfold App.addMilestone.
    destruct (truthy (trim (App.NewMilestone.title (App.newMilestone st))));
      [| exact Hw].
    simpl. apply boundedIds_add; [exact Hk | exact Hseq | exact H |].
    reflexivity.
  - intros m Hm. apply filter_In in Hm. apply Hw, Hm.
  - unfold App.addTechnology.
    destruct (truthy (trim (App.NewTech.technology (App.newTech st))));
      [| exact Hw].
    destruct (find _ _); exact Hw.
Qed.

Lemma run_boundedIds (events : list App.Event) :
  forall k st,
    (0 <= k)%Z ->
    App.sequentialIds (App.milestones st) ->
    App.boundedIds k (App.milestones st) ->
    App.boundedIds (k + Z.of_nat (length events))
      (App.milestones (App.run st events)).
Proof.
  unfold App.run.
  induction events as [|e events IH]; intros k st Hk Hseq H.
  - simpl. rewrite Z.add_0_r. exact H.
  - cbn [fold_left length].
    replace (k + Z.of_nat (S (length events)))%Z
      with ((k + 1) + Z.of_nat (length events))%Z by lia.
    apply IH; [lia | apply step_sequentialIds, Hseq |].
    apply step_boundedIds; assumption.
Qed.

(** C7.  Whatever the user does from the empty form, the identifiers in the
    milestone list read as numbers that strictly increase along the list,
    so no two entries share an identifier; and adding a milestone with a
    title that is not blank appends an entry whose identifier is the
    number of the last entry plus one, or 1 on the empty list.  Every
    identifier lies between 1 and the number of events handled, so the
    integers involved stay far inside the range where JavaScript numbers
    are exact. *)
Theorem milestone_ids_sequential
    (code : jsstring) (events : list App.Event) :
  let st := App.run (App.initialState code) events in
  let ms := App.milestones st in
  (exists ns, App.idNumbers ms = map Some ns /\ StronglySorted Z.lt ns)
  /\ NoDup (map ProjectMilestone.id ms)
  /\ (forall title description : jsstring,
        truthy (trim title) = true ->
        App.milestones
          (App.run st [App.TypeMilestoneTitle title;
                       App.TypeMilestoneDescription description;
                       App.AddMilestone])
        = ms ++ [ProjectMilestone.mk (App.nextId ms) (trim title)
                   (trim description) false None])
  /\ (ms = [] -> App.nextId ms = lit "1")
  /\ (forall l, App.lastOf ms = Some l ->
        exists n, parseInt (ProjectMilestone.id l) = Some n
                  /\ App.nextId ms = toString (Some (n + 1)%Z)
                  /\ parseInt (App.nextId ms) = Some (n + 1)%Z)
  /\ (forall m, In m ms ->
        exists n, parseInt (ProjectMilestone.id m) = Some n
                  /\ (1 <= n <= Z.of_nat (length events))%Z).
Proof.
  intros st ms.
  assert (Hinit : App.sequentialIds
                    (App.milestones (App.initialState code)))
    by (exists []; split; [reflexivity | constructor]).
  assert (Hseq : App.sequentialIds ms)
    by (apply run_sequentialIds; exact Hinit).
  split; [exact Hseq | split; [| split; [| split; [| split]]]].
  - destruct Hseq as [ns [E S]].
    apply (NoDup_map_inv parseInt).
    rewrite map_map. fold (App.idNumbers ms). rewrite E.
    apply NoDup_map_Some, sorted_NoDup, S.
  - intros title description Ht. simpl. unfold App.addMilestone. simpl.
    rewrite Ht. reflexivity.
  - apply nextId_number. exact Hseq.
  - apply nextId_number. exact Hseq.
  - apply (run_boundedIds events 0 (App.initialState code));
      [lia | exact Hinit |].
    intros m [].
Qed.

Lemma milestone_ids_sequential_witness :
  map ProjectMilestone.id
    (App.milestones
       (App.run
          (App.run Sample.session
             [App.TypeMilestoneTitle (lit "Kickoff"); App.AddMilestone;
              App.TypeMilestoneTitle (lit "Design"); App.AddMilestone;
              App.RemoveMilestone (lit "1")])
          [App.TypeMilestoneTitle (lit " Build ");
           App.TypeMilestoneDescription []; App.AddMilestone]))
  = [lit "2"; lit "3"].
Proof.
  unfold Sample.session.
  rewrite (proj1 (proj2 (proj2
    (milestone_ids_sequential (lit "PRJ-2026-11-A1B2C3")
       [App.TypeMilestoneTitle (lit "Kickoff"); App.AddMilestone;
        App.TypeMilestoneTitle (lit "Design"); App.AddMilestone;
        App.RemoveMilestone (lit "1")])))
    (lit " Build ") [] eq_refl).
  reflexivity.
Defined.

Example milestone_ids_after_removal :
  map ProjectMilestone.id
    (App.milestones
       (App.run Sample.session
          [App.TypeMilestoneTitle (lit "Kickoff"); App.AddMilestone;
           App.TypeMilestoneTitle (lit "Design"); App.AddMilestone;
           App.TypeMilestoneTitle (lit "Build"); App.AddMilestone;
           App.RemoveMilestone (lit "2");
           App.TypeMilestoneTitle (lit "Ship"); App.AddMilestone]))
  = [lit "1"; lit "3"; lit "4"].
Proof. reflexivity. Qed.

(* ================================================================== *)
(** ** The renderer: pages, optional sections and the failure path *)

Section RendererFacts.

Variable env : Pdf.Env.

Lemma keepsPages_ret {A} (a : A) : Pdf.keepsPages (Pdf.ret a).
Proof. intros d. reflexivity. Qed.

Lemma keepsPages_ask {A} (f : Pdf.Doc -> A) : Pdf.keepsPages (Pdf.ask f).
Proof. intros d. reflexivity. Qed.

Lemma keepsPages_emit (c : Pdf.Call) :
  Pdf.isAddPage c = false -> Pdf.keepsPages (Pdf.emit c).
Proof.
  intros Hc d. unfold Pdf.emit, Pdf.getNumberOfPages. simpl.
  rewrite filter_app. simpl. rewrite Hc, app_nil_r. reflexivity.
Qed.

Lemma keepsPages_bind {A B} (m : Pdf.Draw A) (k : A -> Pdf.Draw B) :
  Pdf.keepsPages m -> (forall a, Pdf.keepsPages (k a)) ->
  Pdf.keepsPages (Pdf.bind m k).
Proof.
  intros Hm Hk d. unfold Pdf.bind.
  specialize (Hm d). destruct (m d) as [a d']. simpl in Hm.
  rewrite (Hk a d'). exact Hm.
Qed.

Lemma keepsPages_forEachFrom {A St} (f : St -> A -> nat -> Pdf.Draw St)
    (l : list A) :
  (forall s x i, Pdf.keepsPages (f s x i)) ->
  forall i s, Pdf.keepsPages (Pdf.forEachFrom f l i s).
Proof.
  intros Hf. induction l as [|x l IH]; intros i s; simpl.
  - apply keepsPages_ret.
  - apply keepsPages_bind; [apply Hf | intros a; apply IH].
Qed.

Lemma keepsPages_forEach {A St} (f : St -> A -> nat -> Pdf.Draw St)
    (l : list A) (s : St) :
  (forall s x i, Pdf.keepsPages (f s x i)) ->
  Pdf.keepsPages (Pdf.forEach f l s).
Proof. intros Hf. apply keepsPages_forEachFrom. exact Hf. Qed.

Ltac keeps_pages :=
  repeat first
    [ apply keepsPages_ret
    | apply keepsPages_ask
    | apply keepsPages_emit; reflexivity
    | apply keepsPages_forEach; intros
    | apply keepsPages_bind; [| intros]
    | match goal with |- Pdf.keepsPages (let '(_, _) := ?p in _) =>
        destruct p end ].

Lemma renderHeader_keepsPages project headerColor qr :
  Pdf.keepsPages (Pdf.renderHeader env project headerColor qr).
Proof.
  unfold Pdf.renderHeader, Pdf.drawRoundedRect. keeps_pages.
Qed.

Lemma renderStatus_keepsPages project headerColor y :
  Pdf.keepsPages (Pdf.renderStatus env project headerColor y).
Proof.
  unfold Pdf.renderStatus, Pdf.drawRoundedRect, Pdf.setHeaderTextColor.
  keeps_pages.
Qed.

Lemma renderInfo_keepsPages project headerColor y :
  Pdf.keepsPages (Pdf.renderInfo env project headerColor y).
Proof.
  unfold Pdf.renderInfo, Pdf.drawRoundedRect, Pdf.setHeaderTextColor.
  keeps_pages.
Qed.

(** On a one-page document the footer loop runs once and adds no page. *)
Lemma renderFooter_one_page (d : Pdf.Doc) :
  Pdf.getNumberOfPages d = 1 ->
  Pdf.exec (Pdf.renderFooter env) d
  = Pdf.exec (Pdf.renderFooterPage env 1 1) d
  /\ Pdf.getNumberOfPages (Pdf.exec (Pdf.renderFooter env) d) = 1.
Proof.
  intros H.
  assert (E : Pdf.exec (Pdf.renderFooter env) d
              = Pdf.exec (Pdf.renderFooterPage env 1 1) d).
  { unfold Pdf.renderFooter, Pdf.exec, Pdf.bind, Pdf.ask. rewrite H.
    reflexivity. }
  split; [exact E |].
  assert (K : Pdf.keepsPages (Pdf.renderFooterPage env 1 1))
    by (unfold Pdf.renderFooterPage; keeps_pages).
  rewrite E. unfold Pdf.exec. rewrite (K d). exact H.
Qed.

Lemma noOptionalFields_inv (project : Project.t) :
  Pdf.noOptionalFields project = true ->
  truthy (Project.description project) = false
  /\ Project.techStack project = []
  /\ Project.milestones project = []
  /\ truthyOpt (Project.repository project) = false
  /\ truthyOpt (Project.documentation project) = false
  /\ truthyOpt (Project.notes project) = false.
Proof.
  unfold Pdf.noOptionalFields. rewrite !andb_true_iff, !negb_true_iff.
  intros [[[[[Hd Ht] Hm] Hr] Ho] Hn].
  apply Nat.eqb_eq, length_zero_iff_nil in Ht.
  apply Nat.eqb_eq, length_zero_iff_nil in Hm.
  repeat split; assumption.
Qed.

Lemma optional_sections_skipped project headerColor :
  Pdf.noOptionalFields project = true ->
  forall y d,
    Pdf.renderDescription env project headerColor y d = (y, d)
    /\ Pdf.renderTechStack project headerColor y d = (y, d)
    /\ Pdf.renderMilestones env project headerColor y d = (y, d)
    /\ Pdf.renderLinks project headerColor y d = (y, d)
    /\ Pdf.renderNotes env project headerColor y d = (y, d).
Proof.
  intros H y d.
  destruct (noOptionalFields_inv project H) as [Hd [Ht [Hm [Hr [Ho Hn]]]]].
  unfold Pdf.renderDescription, Pdf.renderTechStack, Pdf.renderMilestones,
    Pdf.renderLinks, Pdf.renderNotes.
  rewrite Hd, Ht, Hm, Hr, Ho. simpl.
  repeat split.
  destruct (Project.notes project) as [[|? ?]|]; try reflexivity.
  discriminate Hn.
Qed.

(** C1.  For a record with no description, no technology group, no
    milestone, no link and no notes, and an encoder that delivers the QR
    image: each of the five optional sections draws nothing and leaves the
    cursor where it was, the document consists of the header, the status
    badge, the information card and one footer, it has exactly one page,
    and the promise is fulfilled (with that document when a blob is asked
    for). *)
Theorem bare_project_single_page
    (project : Project.t) (headerColor : option PDFColor.t)
    (opts : option Pdf.Opts) (w : Pdf.World) (qr : jsstring) :
  Pdf.noOptionalFields project = true ->
  Pdf.toDataURL env (Project.uniqueCode project) Pdf.qrOptions = inr qr ->
  let color := match headerColor with
               | Some c => c
               | None => Pdf.defaultHeaderColor
               end in
  let doc := Pdf.renderDocument env project color qr in
  (forall y d,
     Pdf.renderDescription env project color y d = (y, d)
     /\ Pdf.renderTechStack project color y d = (y, d)
     /\ Pdf.renderMilestones env project color y d = (y, d)
     /\ Pdf.renderLinks project color y d = (y, d)
     /\ Pdf.renderNotes env project color y d = (y, d))
  /\ doc = Pdf.exec
             (Pdf.bind (Pdf.renderHeader env project color qr) (fun _ =>
              Pdf.bind (Pdf.renderStatus env project color 70)
                (fun yPosition =>
              Pdf.bind (Pdf.renderInfo env project color yPosition) (fun _ =>
              Pdf.renderFooterPage env 1 1)))) []
  /\ Pdf.getNumberOfPages doc = 1
  /\ (exists blob w',
        Pdf.generateProjectPDF env project headerColor opts w
        = (Pdf.Fulfilled blob, w'))
  /\ (Pdf.flag Pdf.returnBlob opts = true ->
      Pdf.generateProjectPDF env project headerColor opts w
      = (Pdf.Fulfilled (Some doc), w)).
Proof.
  intros Hbare Hqr color doc.
  pose proof (optional_sections_skipped project color Hbare) as Hskip.
  (* the document before the footer *)
  set (body := Pdf.bind (Pdf.renderHeader env project color qr) (fun _ =>
               Pdf.bind (Pdf.renderStatus env project color 70)
                 (fun yPosition =>
               Pdf.renderInfo env project color yPosition))).
  assert (Hbody : Pdf.keepsPages body).
  { unfold body. apply keepsPages_bind;
      [apply renderHeader_keepsPages | intros _].
    apply keepsPages_bind; [apply renderStatus_keepsPages | intros y].
    apply renderInfo_keepsPages. }
  assert (Edoc : doc = Pdf.exec (Pdf.renderFooter env) (snd (body []))).
  { unfold doc, Pdf.renderDocument, Pdf.layout, body, Pdf.exec, Pdf.bind.
    destruct (Pdf.renderHeader env project color qr []) as [[] d1].
    destruct (Pdf.renderStatus env project color 70 d1) as [y2 d2].
    destruct (Pdf.renderInfo env project color y2 d2) as [y3 d3].
    destruct (Hskip y3 d3) as [E1 [E2 [E3 [E4 E5]]]].
    rewrite E1, E2, E3, E4, E5. reflexivity. }
  assert (Hone : Pdf.getNumberOfPages (snd (body [])) = 1)
    by (rewrite (Hbody []); reflexivity).
  destruct (renderFooter_one_page _ Hone) as [Efoot Hpages].
  split; [exact Hskip | split; [| split; [| split]]].
  - rewrite Edoc, Efoot. unfold body, Pdf.exec, Pdf.bind.
    destruct (Pdf.renderHeader env project color qr []) as [[] d1].
    destruct (Pdf.renderStatus env project color 70 d1) as [y2 d2].
    destruct (Pdf.renderInfo env project color y2 d2) as [y3 d3].
    reflexivity.
  - rewrite Edoc. exact Hpages.
  - unfold Pdf.generateProjectPDF. rewrite Hqr.
    destruct (Pdf.flag Pdf.returnBlob opts); [eauto |].
    destruct (Pdf.createObjectURL w _) as [url w1].
    destruct (Pdf.flag Pdf.openPrint opts); [| eauto].
    destruct (Pdf.popupOpens env); eauto.
  - intros Hflag. unfold Pdf.generateProjectPDF. rewrite Hqr, Hflag.
    reflexivity.
Qed.

(** C9.  The promise is rejected exactly when the QR encoder fails: a
    failure of the encoder is the rejection reason and leaves the browser
    state as it was (no object URL, no window, no saved file); when the
    encoder delivers, the promise is fulfilled and the finished document is
    what is returned, or registered as an object URL and then printed or
    saved. *)
Theorem generateProjectPDF_failure_path
    (project : Project.t) (headerColor : option PDFColor.t)
    (opts : option Pdf.Opts) (w : Pdf.World) :
  let result := Pdf.generateProjectPDF env project headerColor opts w in
  let color := match headerColor with
               | Some c => c
               | None => Pdf.defaultHeaderColor
               end in
  (forall e,
     Pdf.toDataURL env (Project.uniqueCode project) Pdf.qrOptions = inl e ->
     result = (Pdf.Rejected e, w))
  /\ (forall qr,
        Pdf.toDataURL env (Project.uniqueCode project) Pdf.qrOptions = inr qr ->
        let doc := Pdf.renderDocument env project color qr in
        exists blob w',
          result = (Pdf.Fulfilled blob, w')
          /\ (Pdf.flag Pdf.returnBlob opts = true ->
              blob = Some doc /\ w' = w)
          /\ (Pdf.flag Pdf.returnBlob opts = false ->
              blob = None
              /\ Pdf.objectURLs w' = Pdf.objectURLs w ++ [Some doc]
              /\ (Pdf.flag Pdf.openPrint opts = false ->
                  exists filename,
                    Pdf.savedFiles w'
                    = Pdf.savedFiles w ++ [(filename, doc)])))
  /\ (forall e,
        fst result = Pdf.Rejected e ->
        Pdf.toDataURL env (Project.uniqueCode project) Pdf.qrOptions = inl e).
Proof.
  intros result color. unfold result, Pdf.generateProjectPDF.
  fold color.
  destruct (Pdf.toDataURL env (Project.uniqueCode project) Pdf.qrOptions)
    as [e0 | qr0].
  - split; [| split].
    + intros e He. injection He as <-. reflexivity.
    + intros qr Hq. discriminate Hq.
    + intros e He. simpl in He. injection He as <-. reflexivity.
  - split; [| split].
    + intros e He. discriminate He.
    + intros qr Hq. injection Hq as <-. cbv zeta.
      destruct (Pdf.flag Pdf.returnBlob opts).
      * eexists; eexists. split; [reflexivity |].
        split; [intros _; split; reflexivity | intros; discriminate].
      * unfold Pdf.createObjectURL.
        destruct (Pdf.flag Pdf.openPrint opts).
        -- destruct (Pdf.popupOpens env); eexists; eexists;
             (split; [reflexivity |]);
             (split; [intros; discriminate |]); intros _;
             repeat split; intros; discriminate.
        -- eexists; eexists. split; [reflexivity |].
           split; [intros; discriminate |]. intros _.
           repeat split. intros _. eexists. reflexivity.
    + intros e He.
      destruct (Pdf.flag Pdf.returnBlob opts); [discriminate He |].
      destruct (Pdf.createObjectURL w _) as [url w1].
      destruct (Pdf.flag Pdf.openPrint opts); [| discriminate He].
      destruct (Pdf.popupOpens env); discriminate He.
Qed.

End RendererFacts.

Lemma bare_project_single_page_witness :
  Pdf.getNumberOfPages
    (Pdf.renderDocument Sample.env Sample.bareProject Sample.blue
       Sample.qrImage) = 1
  /\ Pdf.generateProjectPDF Sample.env Sample.bareProject
       (Some Sample.blue) Sample.blobOnly Sample.world
     = (Pdf.Fulfilled
          (Some (Pdf.renderDocument Sample.env Sample.bareProject
                   Sample.blue Sample.qrImage)),
        Sample.world).
Proof.
  pose proof (bare_project_single_page Sample.env Sample.bareProject
                (Some Sample.blue) Sample.blobOnly Sample.world
                Sample.qrImage eq_refl eq_refl)
    as [_ [_ [Hpages [_ Hblob]]]].
  split; [exact Hpages | exact (Hblob eq_refl)].
Defined.

Lemma generateProjectPDF_failure_path_witness :
  Pdf.generateProjectPDF Sample.brokenEncoder Sample.bareProject None
    None Sample.world
  = (Pdf.Rejected (lit "encoder failed"), Sample.world)
  /\ exists blob w',
       Pdf.generateProjectPDF Sample.env Sample.bareProject None None
         Sample.world
       = (Pdf.Fulfilled blob, w')
       /\ length (Pdf.savedFiles w') = 1.
Proof.
  split.
  - exact (proj1 (generateProjectPDF_failure_path Sample.brokenEncoder
                    Sample.bareProject None None Sample.world)
             (lit "encoder failed") eq_refl).
  - destruct (proj1 (proj2 (generateProjectPDF_failure_path Sample.env
                    Sample.bareProject None None Sample.world))
                Sample.qrImage eq_refl)
      as [blob [w' [E [_ Hsave]]]].
    exists blob, w'. split; [exact E |].
    destruct (Hsave eq_refl) as [_ [_ Hfile]].
    destruct (Hfile eq_refl) as [filename Hf].
    rewrite Hf. reflexivity.
Defined.

(** Twelve described milestones overflow the first page: the eleventh one
    starts page 2, and both footers carry the final page count. *)
Example twelve_milestones_two_pages :
  Pdf.getNumberOfPages
    (Pdf.renderDocument Sample.env Sample.twelveMilestones Sample.blue
       Sample.qrImage) = 2
  /\ In (Pdf.TextAligned
           (lit "Gerado em 03/11/2026, 10:00:00 | Pagina 1 de 2")
           (Qdiv 210 2) (Qminus 297 10) (lit "center"))
        (Pdf.renderDocument Sample.env Sample.twelveMilestones Sample.blue
           Sample.qrImage)
  /\ In (Pdf.Text (lit "11. Etapa 11") 22 20)
        (Pdf.renderDocument Sample.env Sample.twelveMilestones Sample.blue
           Sample.qrImage).
Proof.
  split; [vm_compute; reflexivity | split].
  - vm_compute. do 200 (try (left; reflexivity); right).
  - vm_compute. do 200 (try (left; reflexivity); right).
Qed.

(* ================================================================== *)
(** ** Further properties of the form handlers *)

Lemma filterFrom_position {A} (l : list A) :
  forall (k : nat) (index : Z),
    App.filterFrom (fun _ i => negb (Z.of_nat i =? index)%Z) l k
    = if ((Z.of_nat k <=? index) && (index <? Z.of_nat (k + length l)))%Z
      then firstn (Z.to_nat index - k) l ++ skipn (S (Z.to_nat index - k)) l
      else l.
Proof.
  induction l as [|x l IH]; intros k index.
  - simpl. destruct (_ && _); [| reflexivity].
    rewrite firstn_nil. reflexivity.
  - cbn [App.filterFrom]. rewrite IH. cbn [length].
    replace (S k + length l) with (k + S (length l)) by lia.
    destruct (Z.eqb_spec (Z.of_nat k) index) as [E | N]; cbn [negb].
    + subst index. rewrite Nat2Z.id, Nat.sub_diag.
      destruct (Z.leb_spec (Z.of_nat (S k)) (Z.of_nat k)); [lia |].
      destruct (Z.leb_spec (Z.of_nat k) (Z.of_nat k)); [| lia].
      destruct (Z.ltb_spec (Z.of_nat k) (Z.of_nat (k + S (length l))));
        [| lia].
      reflexivity.
    + destruct (Z.leb_spec (Z.of_nat (S k)) index) as [Hle | Hgt];
        destruct (Z.leb_spec (Z.of_nat k) index) as [Hle' | Hgt'];
        try lia; cbn [andb]; try reflexivity.
      destruct (Z.ltb_spec index (Z.of_nat (k + S (length l))));
        [| reflexivity].
      replace (Z.to_nat index - k) with (S (Z.to_nat index - S k)) by lia.
      reflexivity.
Qed.

(** X1.  [removeTeamMember] removes by position: an index that is negative
    or not below the length of the list leaves the whole state as it is,
    and an index [i] inside the list removes the entry at position [i] and
    nothing else, keeping the order of the others. *)
Theorem removeTeamMember_by_position (st : App.State) (index : Z) :
  ((index < 0 \/ Z.of_nat (length (App.team st)) <= index)%Z ->
     App.removeTeamMember index st = st)
  /\ (forall i, index = Z.of_nat i -> i < length (App.team st) ->
        App.team (App.removeTeamMember index st)
        = firstn i (App.team st) ++ skipn (S i) (App.team st)
        /\ length (App.team (App.removeTeamMember index st))
           = length (App.team st) - 1).
Proof.
  assert (E : App.team (App.removeTeamMember index st)
              = App.filterFrom (fun _ i => negb (Z.of_nat i =? index)%Z)
                  (App.team st) 0) by reflexivity.
  rewrite filterFrom_position in E. cbn [Nat.add] in E.
  rewrite Nat.sub_0_r in E. change (Z.of_nat 0) with 0%Z in E.
  split.
  - intros Hout.
    assert (E' : App.team (App.removeTeamMember index st) = App.team st).
    { rewrite E.
      destruct (Z.leb_spec 0 index); destruct (Z.ltb_spec index
        (Z.of_nat (length (App.team st)))); cbn [andb]; try reflexivity.
      lia. }
    destruct st. unfold App.removeTeamMember, App.setTeam in *.
    cbn in *. rewrite E'. reflexivity.
  - intros i -> Hi. rewrite E, Nat2Z.id.
    destruct (Z.leb_spec 0 (Z.of_nat i)); [| lia].
    destruct (Z.ltb_spec (Z.of_nat i) (Z.of_nat (length (App.team st))));
      [| lia].
    cbn [andb]. split; [reflexivity |].
    rewrite length_app, length_firstn, length_skipn. lia.
Qed.

Lemma removeTeamMember_by_position_witness :
  App.removeTeamMember 5 Sample.withAna = Sample.withAna
  /\ App.team (App.removeTeamMember 0 Sample.withAna) = [].
Proof.
  split.
  - apply (removeTeamMember_by_position Sample.withAna 5).
    right. vm_compute. discriminate.
  - apply (proj2 (removeTeamMember_by_position Sample.withAna 0) 0 eq_refl).
    vm_compute. lia.
Defined.

(** *** Milestones *)

Lemma sequentialIds_NoDup (ms : list ProjectMilestone.t) :
  App.sequentialIds ms -> NoDup (map ProjectMilestone.id ms).
Proof.
  intros [ns [E S]].
  apply (NoDup_map_inv parseInt).
  rewrite map_map. fold (App.idNumbers ms). rewrite E.
  apply NoDup_map_Some, sorted_NoDup, S.
Qed.

Lemma reachable_sequentialIds (code : jsstring) (events : list App.Event) :
  App.sequentialIds
    (App.milestones (App.run (App.initialState code) events)).
Proof.
  apply run_sequentialIds. exists []. split; [reflexivity | constructor].
Qed.

Lemma filter_id_absent (id : jsstring) (ms : list ProjectMilestone.t) :
  ~ In id (map ProjectMilestone.id ms) ->
  filter (fun m => negb (eqb (ProjectMilestone.id m) id)) ms = ms.
Proof.
  induction ms as [|m ms IH]; intros H; simpl; [reflexivity |].
  destruct (eqb (ProjectMilestone.id m) id) eqn:E.
  - apply eqb_eq in E. exfalso. apply H. left. exact E.
  - simpl. rewrite IH; [reflexivity |]. intros Hin. apply H. right. exact Hin.
Qed.

Lemma filter_id_unique (before after : list ProjectMilestone.t)
    (m : ProjectMilestone.t) :
  NoDup (map ProjectMilestone.id (before ++ m :: after)) ->
  filter (fun x => negb (eqb (ProjectMilestone.id x) (ProjectMilestone.id m)))
         (before ++ m :: after)
  = before ++ after.
Proof.
  intros Hnd. rewrite map_app in Hnd. cbn [map] in Hnd.
  pose proof (NoDup_remove_2 _ _ _ Hnd) as Hnot.
  rewrite filter_app. cbn [filter]. rewrite eqb_refl. cbn [negb].
  rewrite !filter_id_absent; [reflexivity | |];
    intros Hin; apply Hnot, in_or_app; [right | left]; exact Hin.
Qed.

(** X2.  [removeMilestone] removes by identifier.  An identifier that no
    milestone carries leaves the whole state as it is.  In a state reached
    from the empty form, where identifiers are distinct, removing the
    identifier of a listed milestone takes out that one entry and keeps
    the others in order. *)
Theorem removeMilestone_by_identifier
    (code : jsstring) (events : list App.Event) (id : jsstring) :
  let st := App.run (App.initialState code) events in
  (~ In id (map ProjectMilestone.id (App.milestones st)) ->
     App.removeMilestone id st = st)
  /\ (forall before m after,
        App.milestones st = before ++ m :: after ->
        ProjectMilestone.id m = id ->
        App.milestones (App.removeMilestone id st) = before ++ after).
Proof.
  intros st. split.
  - intros Habs.
    pose proof (filter_id_absent id (App.milestones st) Habs) as E.
    destruct st. unfold App.removeMilestone, App.setMilestones in *.
    cbn in *. rewrite E. reflexivity.
  - intros before m after Hms <-.
    unfold App.removeMilestone. cbn. rewrite Hms.
    apply filter_id_unique. rewrite <- Hms.
    apply sequentialIds_NoDup, reachable_sequentialIds.
Qed.

Lemma removeMilestone_by_identifier_witness :
  App.removeMilestone (lit "7")
    (App.run (App.initialState (lit "PRJ-2026-11-A1B2C3"))
       (Sample.milestoneEvents 3))
  = App.run (App.initialState (lit "PRJ-2026-11-A1B2C3"))
      (Sample.milestoneEvents 3)
  /\ map ProjectMilestone.id
       (App.milestones
          (App.removeMilestone (lit "2")
             (App.run (App.initialState (lit "PRJ-2026-11-A1B2C3"))
                (Sample.milestoneEvents 3))))
     = [lit "1"; lit "3"].
Proof.
  split.
  - apply (removeMilestone_by_identifier (lit "PRJ-2026-11-A1B2C3")
             (Sample.milestoneEvents 3) (lit "7")).
    vm_compute. intros [H | [H | [H | []]]]; discriminate H.
  - rewrite (proj2 (removeMilestone_by_identifier
               (lit "PRJ-2026-11-A1B2C3") (Sample.milestoneEvents 3)
               (lit "2"))
               [ProjectMilestone.mk (lit "1") (lit "Etapa 1")
                  (lit "Entrega parcial") false None]
               (ProjectMilestone.mk (lit "2") (lit "Etapa 2")
                  (lit "Entrega parcial") false None)
               [ProjectMilestone.mk (lit "3") (lit "Etapa 3")
                  (lit "Entrega parcial") false None]
               eq_refl eq_refl).
    reflexivity.
Defined.

(** X3.  In a state reached from the empty form, adding a milestone and
    then removing the identifier it was given restores the milestone list:
    the new identifier is carried by no earlier entry. *)
Theorem add_then_remove_milestone
    (code : jsstring) (events : list App.Event)
    (title description : jsstring) :
  truthy (trim title) = true ->
  let st := App.run (App.initialState code) events in
  let added := App.run st [App.TypeMilestoneTitle title;
                           App.TypeMilestoneDescription description;
                           App.AddMilestone] in
  ~ In (App.nextId (App.milestones st))
       (map ProjectMilestone.id (App.milestones st))
  /\ App.milestones
       (App.removeMilestone (App.nextId (App.milestones st)) added)
     = App.milestones st.
Proof.
  intros Ht st added.
  set (m := ProjectMilestone.mk (App.nextId (App.milestones st))
              (trim title) (trim description) false None).
  assert (Eadd : App.milestones added = App.milestones st ++ [m]).
  { unfold added. simpl. unfold App.addMilestone. simpl. rewrite Ht.
    reflexivity. }
  assert (Hnd : NoDup (map ProjectMilestone.id (App.milestones st ++ [m]))).
  { rewrite <- Eadd. unfold added, st. unfold App.run.
    rewrite <- fold_left_app.
    apply sequentialIds_NoDup.
    apply (reachable_sequentialIds code
             (events ++ [App.TypeMilestoneTitle title;
                         App.TypeMilestoneDescription description;
                         App.AddMilestone])). }
  split.
  - rewrite map_app in Hnd. cbn [map] in Hnd.
    pose proof (NoDup_remove_2 _ _ _ Hnd) as Hnot.
    rewrite app_nil_r in Hnot. exact Hnot.
  - change (filter (fun x => negb (eqb (ProjectMilestone.id x)
                                      (ProjectMilestone.id m)))
                   (App.milestones added)
            = App.milestones st).
    rewrite Eadd.
    rewrite (filter_id_unique (App.milestones st) [] m Hnd).
    apply app_nil_r.
Qed.

Lemma add_then_remove_milestone_witness :
  map ProjectMilestone.id
    (App.milestones
       (App.removeMilestone (lit "4")
          (App.run
             (App.run (App.initialState (lit "PRJ-2026-11-A1B2C3"))
                (Sample.milestoneEvents 3))
             [App.TypeMilestoneTitle (lit "Entrega");
              App.TypeMilestoneDescription [];
              App.AddMilestone])))
  = [lit "1"; lit "2"; lit "3"].
Proof.
  exact (f_equal (map ProjectMilestone.id)
           (proj2 (add_then_remove_milestone (lit "PRJ-2026-11-A1B2C3")
                     (Sample.milestoneEvents 3) (lit "Entrega") []
                     eq_refl))).
Defined.

Lemma step_never_completes (st : App.State) (e : App.Event) :
  Forall (fun m => ProjectMilestone.completed m = false
                   /\ ProjectMilestone.dueDate m = None)
         (App.milestones st) ->
  Forall (fun m => ProjectMilestone.completed m = false
                   /\ ProjectMilestone.dueDate m = None)
         (App.milestones (App.step st e)).
Proof.
  intros H. destruct e; simpl; try exact H.
  - unfold App.addTeamMember.
    destruct (truthy (trim (App.newTeamMember st))); exact H.
  - unfold App.addMilestone.
    destruct (truthy (trim (App.NewMilestone.title (App.newMilestone st))));
      [| exact H].
    simpl. apply Forall_app. split; [exact H |].
    constructor; [split; reflexivity | constructor].
  - rewrite Forall_forall in *. intros m Hm. apply filter_In in Hm.
    apply H, Hm.
  - unfold App.addTechnology.
    destruct (truthy (trim (App.NewTech.technology (App.newTech st))));
      [| exact H].
    destruct (find _ _); exact H.
Qed.

(** X4.  No sequence of events of the form marks a milestone completed or
    gives it a due date: every milestone of every reachable state, and so
    of every submitted record, has [completed = false] and no [dueDate]. *)
Theorem milestones_never_completed
    (code : jsstring) (events : list App.Event)
    (data : App.ProjectFormValues) (now : jsstring) :
  let st := App.run (App.initialState code) events in
  Forall (fun m => ProjectMilestone.completed m = false
                   /\ ProjectMilestone.dueDate m = None)
         (Project.milestones (App.newProject st data now)).
Proof.
  cbn. unfold App.run.
  assert (G : forall st,
             Forall (fun m => ProjectMilestone.completed m = false
                              /\ ProjectMilestone.dueDate m = None)
                    (App.milestones st) ->
             Forall (fun m => ProjectMilestone.completed m = false
                              /\ ProjectMilestone.dueDate m = None)
                    (App.milestones (fold_left App.step events st))).
  { induction events as [|e events IH]; intros st H; simpl; [exact H |].
    apply IH, step_never_completes, H. }
  apply G. constructor.
Qed.

(** *** Technology groups, continued *)

Lemma NoDup_snoc {A} (l : list A) (x : A) :
  NoDup l -> ~ In x l -> NoDup (l ++ [x]).
Proof.
  induction 1 as [|y l Hy Hl IH]; intros Hx; simpl.
  - constructor; [intros [] | constructor].
  - constructor.
    + intros Hin. apply in_app_or in Hin. destruct Hin as [Hin | [-> | []]].
      * exact (Hy Hin).
      * apply Hx. left. reflexivity.
    + apply IH. intros Hin. apply Hx. right. exact Hin.
Qed.

(** Dropping groups keeps the categories of the remaining ones distinct. *)
Lemma categories_distinct_after_filter (keep : TechStack.t -> bool)
    (stack : list TechStack.t) :
  NoDup (map TechStack.category stack) ->
  NoDup (map TechStack.category (filter keep stack)).
Proof.
  induction stack as [|g stack IH]; intros Hnd; cbn [filter map] in *.
  - exact Hnd.
  - apply NoDup_cons_iff in Hnd. destruct Hnd as [Hfresh Hrest].
    destruct (keep g); cbn [map]; [| exact (IH Hrest)].
    apply NoDup_cons_iff. split; [| exact (IH Hrest)].
    intros Hin. apply Hfresh.
    apply in_map_iff in Hin. destruct Hin as [g' [Hcat Hg']].
    apply filter_In in Hg'. rewrite <- Hcat.
    apply in_map. apply Hg'.
Qed.

Lemma map_category_preserved (f : TechStack.t -> TechStack.t)
    (l : list TechStack.t) :
  (forall s, TechStack.category (f s) = TechStack.category s) ->
  map TechStack.category (map f l) = map TechStack.category l.
Proof.
  intros Hf. rewrite map_map. apply map_ext. exact Hf.
Qed.

Lemma find_category_none (c : jsstring) (l : list TechStack.t) :
  find (fun s => eqb (TechStack.category s) c) l = None ->
  ~ In c (map TechStack.category l).
Proof.
  intros Hfind Hin. apply in_map_iff in Hin. destruct Hin as [s [Hs Hin]].
  pose proof (find_none _ _ Hfind s Hin) as E. cbv beta in E.
  rewrite Hs, eqb_refl in E. discriminate E.
Qed.

Lemma withoutTechnology_wellFormed (c tech : jsstring)
    (l : list TechStack.t) :
  NoDup (map TechStack.category l) ->
  App.wellFormedStack (App.withoutTechnology c tech l).
Proof.
  intros Hnd. unfold App.withoutTechnology. split.
  - apply categories_distinct_after_filter.
    rewrite map_category_preserved; [exact Hnd |].
    intros s. destruct (eqb (TechStack.category s) c); reflexivity.
  - apply Forall_forall. intros s Hs. apply filter_In in Hs.
    destruct Hs as [_ Hlen]. destruct (TechStack.technologies s);
      [discriminate Hlen | discriminate].
Qed.

Lemma step_wellFormedStack (st : App.State) (e : App.Event) :
  App.wellFormedStack (App.techStack st) ->
  App.wellFormedStack (App.techStack (App.step st e)).
Proof.
  intros H. destruct e; simpl; try exact H.
  - unfold App.addTeamMember.
    destruct (truthy (trim (App.newTeamMember st))); exact H.
  - unfold App.addMilestone.
    destruct (truthy (trim (App.NewMilestone.title (App.newMilestone st))));
      exact H.
  - unfold App.addTechnology.
    destruct (truthy (trim (App.NewTech.technology (App.newTech st))));
      [| exact H].
    destruct H as [Hnd Hne].
    destruct (find _ _) eqn:Hfind; simpl.
    + split.
      * rewrite map_category_preserved; [exact Hnd |].
        intros s. destruct (eqb (TechStack.category s) _); reflexivity.
      * apply Forall_forall. intros s Hs. apply in_map_iff in Hs.
        destruct Hs as [s0 [<- Hs0]].
        destruct (eqb (TechStack.category s0) _).
        -- simpl. intros E. apply app_eq_nil in E. destruct E as [_ E].
           discriminate E.
        -- rewrite Forall_forall in Hne. apply Hne, Hs0.
    + split.
      * rewrite map_app. simpl. apply NoDup_snoc; [exact Hnd |].
        apply find_category_none. exact Hfind.
      * apply Forall_app. split; [exact Hne |].
        constructor; [discriminate | constructor].
  - apply withoutTechnology_wellFormed. apply H.
Qed.

Lemma run_wellFormedStack (events : list App.Event) :
  forall st, App.wellFormedStack (App.techStack st) ->
             App.wellFormedStack (App.techStack (App.run st events)).
Proof.
  unfold App.run.
  induction events as [|e events IH]; intros st H; simpl; [exact H |].
  apply IH, step_wellFormedStack, H.
Qed.

(** X5.  Whatever the user does from the empty form, the tech-stack list
    has at most one group per category and no group without a technology. *)
Theorem techStack_always_wellFormed
    (code : jsstring) (events : list App.Event) :
  let stack := App.techStack (App.run (App.initialState code) events) in
  NoDup (map TechStack.category stack)
  /\ Forall (fun s => TechStack.technologies s <> []) stack.
Proof.
  intros stack.
  apply (run_wellFormedStack events (App.initialState code)).
  split; constructor.
Qed.

Lemma step_categories_fromSelect (st : App.State) (e : App.Event) :
  App.fromSelect e ->
  In (App.NewTech.category (App.newTech st)) App.techCategories
  /\ Forall (fun s => In (TechStack.category s) App.techCategories)
            (App.techStack st) ->
  In (App.NewTech.category (App.newTech (App.step st e))) App.techCategories
  /\ Forall (fun s => In (TechStack.category s) App.techCategories)
            (App.techStack (App.step st e)).
Proof.
  intros He [Hc Hl]. destruct e; simpl; try (split; assumption).
  - unfold App.addTeamMember.
    destruct (truthy (trim (App.newTeamMember st))); split; assumption.
  - unfold App.addMilestone.
    destruct (truthy (trim (App.NewMilestone.title (App.newMilestone st))));
      split; assumption.
  - unfold App.addTechnology.
    destruct (truthy (trim (App.NewTech.technology (App.newTech st))));
      [| split; assumption].
    destruct (find _ _); simpl; (split; [exact Hc |]).
    + apply Forall_forall. intros s Hs. apply in_map_iff in Hs.
      destruct Hs as [s0 [<- Hs0]]. rewrite Forall_forall in Hl.
      destruct (eqb (TechStack.category s0) _); simpl; apply Hl, Hs0.
    + apply Forall_app. split; [exact Hl |].
      constructor; [exact Hc | constructor].
  - split; [exact Hc |]. unfold App.withoutTechnology.
    apply Forall_forall. intros s Hs. apply filter_In in Hs.
    destruct Hs as [Hs _]. apply in_map_iff in Hs.
    destruct Hs as [s0 [<- Hs0]]. rewrite Forall_forall in Hl.
    destruct (eqb (TechStack.category s0) category); simpl; apply Hl, Hs0.
Qed.

(** X6.  When the category select only offers the eight entries of
    [techCategories], the tech-stack list never holds more than eight
    groups, and every group is filed under one of those entries. *)
Theorem techStack_at_most_eight_groups
    (code : jsstring) (events : list App.Event) :
  Forall App.fromSelect events ->
  let stack := App.techStack (App.run (App.initialState code) events) in
  length stack <= 8
  /\ Forall (fun s => In (TechStack.category s) App.techCategories) stack.
Proof.
  intros Hev stack.
  assert (G : forall evs st,
             Forall App.fromSelect evs ->
             In (App.NewTech.category (App.newTech st)) App.techCategories
             /\ Forall (fun s => In (TechStack.category s) App.techCategories)
                       (App.techStack st) ->
             Forall (fun s => In (TechStack.category s) App.techCategories)
                    (App.techStack (App.run st evs))).
  { unfold App.run. induction evs as [|e evs IH]; intros st He H; simpl.
    - apply H.
    - inversion He as [| ? ? He1 He2]; subst.
      apply IH; [exact He2 |].
      apply step_categories_fromSelect; assumption. }
  assert (Hin : Forall (fun s => In (TechStack.category s) App.techCategories)
                       stack).
  { apply G; [exact Hev |]. split; [left; reflexivity | constructor]. }
  split; [| exact Hin].
  destruct (run_wellFormedStack events (App.initialState code)) as [Hnd _];
    [split; constructor |].
  fold stack in Hnd.
  rewrite <- (length_map TechStack.category stack).
  change 8 with (length App.techCategories).
  apply NoDup_incl_length; [exact Hnd |].
  intros c Hc. apply in_map_iff in Hc. destruct Hc as [s [<- Hs]].
  rewrite Forall_forall in Hin. apply Hin, Hs.
Qed.

Lemma techStack_at_most_eight_groups_witness :
  length (App.techStack Sample.withStacks) <= 8.
Proof.
  refine (proj1 (techStack_at_most_eight_groups (lit "PRJ-2026-11-A1B2C3")
            [App.TypeTechnology (lit "React"); App.AddTechnology;
             App.SelectTechCategory (lit "Backend");
             App.TypeTechnology (lit "Node.js"); App.AddTechnology;
             App.TypeTechnology (lit "Express"); App.AddTechnology] _)).
  repeat (apply Forall_cons;
          [first [exact I | right; left; reflexivity] |]).
  apply Forall_nil.
Defined.

Lemma record_eta (s : TechStack.t) :
  TechStack.mk (TechStack.category s) (TechStack.technologies s) = s.
Proof. destruct s; reflexivity. Qed.

Lemma filter_other_absent (tech : jsstring) (l : list jsstring) :
  ~ In tech l -> filter (fun t => negb (eqb t tech)) l = l.
Proof.
  induction l as [|x l IH]; intros H; simpl; [reflexivity |].
  destruct (eqb x tech) eqn:E.
  - apply eqb_eq in E. exfalso. apply H. left. exact E.
  - simpl. rewrite IH; [reflexivity |]. intros Hin. apply H. right. exact Hin.
Qed.

Lemma filter_other_not_In (tech : jsstring) (l : list jsstring) :
  ~ In tech (filter (fun t => negb (eqb t tech)) l).
Proof.
  intros Hin. apply filter_In in Hin. destruct Hin as [_ E].
  rewrite eqb_refl in E. discriminate E.
Qed.

(** X7.  [removeTechnology] removes by value: afterwards no group filed
    under the category holds the technology any more, however many times
    it had been added, and no group is left without a technology. *)
Theorem removeTechnology_all_occurrences
    (st : App.State) (category tech : jsstring) :
  Forall (fun s =>
            TechStack.technologies s <> []
            /\ (TechStack.category s = category ->
                ~ In tech (TechStack.technologies s)))
         (App.techStack (App.removeTechnology category tech st)).
Proof.
  apply Forall_forall. intros s Hs.
  change (In s (App.withoutTechnology category tech (App.techStack st)))
    in Hs.
  unfold App.withoutTechnology in Hs. apply filter_In in Hs.
  destruct Hs as [Hs Hlen]. split.
  - destruct (TechStack.technologies s); [discriminate Hlen | discriminate].
  - intros Hc. apply in_map_iff in Hs. destruct Hs as [s0 [<- Hs0]].
    destruct (eqb (TechStack.category s0) category) eqn:E.
    + simpl. apply filter_other_not_In.
    + simpl in Hc. apply eqb_neq in E. contradiction.
Qed.

Lemma withoutTechnology_absent (c tech : jsstring) (l : list TechStack.t) :
  Forall (fun s => TechStack.technologies s <> []) l ->
  (forall s, In s l -> TechStack.category s = c ->
             ~ In tech (TechStack.technologies s)) ->
  App.withoutTechnology c tech l = l.
Proof.
  unfold App.withoutTechnology.
  induction l as [|s l IH]; intros Hne Habs; simpl; [reflexivity |].
  inversion Hne as [| ? ? Hs Hl]; subst.
  assert (E : (if eqb (TechStack.category s) c
               then TechStack.mk (TechStack.category s)
                      (filter (fun t => negb (eqb t tech))
                              (TechStack.technologies s))
               else s) = s).
  { destruct (eqb (TechStack.category s) c) eqn:Ec; [| reflexivity].
    apply eqb_eq in Ec.
    rewrite filter_other_absent; [apply record_eta |].
    apply (Habs s); [left; reflexivity | exact Ec]. }
  rewrite E.
  destruct (TechStack.technologies s) eqn:Et; [congruence |]. simpl.
  rewrite IH; [reflexivity | exact Hl |].
  intros s' Hs'. apply Habs. right. exact Hs'.
Qed.

(** X8.  On a list without empty groups, removing a technology that no
    group of the category holds (or from a category without a group)
    leaves the whole state as it is. *)
Theorem removeTechnology_absent
    (st : App.State) (category tech : jsstring) :
  Forall (fun s => TechStack.technologies s <> []) (App.techStack st) ->
  (forall s, In s (App.techStack st) -> TechStack.category s = category ->
             ~ In tech (TechStack.technologies s)) ->
  App.removeTechnology category tech st = st.
Proof.
  intros Hne Habs.
  pose proof (withoutTechnology_absent category tech _ Hne Habs) as E.
  destruct st. unfold App.removeTechnology, App.setTechStack in *.
  cbn in *. rewrite E. reflexivity.
Qed.

Lemma removeTechnology_absent_witness :
  App.removeTechnology (lit "Backend") (lit "React") Sample.withStacks
  = Sample.withStacks
  /\ App.removeTechnology (lit "Cloud") (lit "React") Sample.withStacks
     = Sample.withStacks.
Proof.
  split; apply removeTechnology_absent;
    try (vm_compute; repeat constructor; discriminate).
  - intros s Hs Hc Hin. vm_compute in Hs.
    destruct Hs as [<- | [<- | []]]; [discriminate Hc |].
    vm_compute in Hin. destruct Hin as [H | [H | []]]; discriminate H.
  - intros s Hs Hc Hin. vm_compute in Hs.
    destruct Hs as [<- | [<- | []]]; discriminate Hc.
Defined.

Lemma without_after_append (c tech : jsstring) (l : list TechStack.t) :
  App.withoutTechnology c tech
    (map (fun s => if eqb (TechStack.category s) c
                   then TechStack.mk (TechStack.category s)
                          (TechStack.technologies s ++ [tech])
                   else s) l)
  = App.withoutTechnology c tech l.
Proof.
  unfold App.withoutTechnology. rewrite map_map. f_equal.
  apply map_ext. intros s.
  destruct (eqb (TechStack.category s) c) eqn:E; simpl; rewrite E;
    [| reflexivity].
  rewrite filter_app. simpl. rewrite eqb_refl. simpl.
  rewrite app_nil_r. reflexivity.
Qed.

(** X9.  Adding the pending technology and then removing it again has the
    same effect on the list as removing it from the list as it was: the
    list is restored when no group of the category held the technology
    (and no group was empty), and an entry of the same name added earlier
    is removed together with the new one. *)
Theorem add_then_remove_technology (st : App.State) :
  let c := App.NewTech.category (App.newTech st) in
  let tech := trim (App.NewTech.technology (App.newTech st)) in
  truthy tech = true ->
  App.techStack (App.removeTechnology c tech (App.addTechnology st))
  = App.withoutTechnology c tech (App.techStack st)
  /\ (Forall (fun s => TechStack.technologies s <> []) (App.techStack st) ->
      (forall s, In s (App.techStack st) -> TechStack.category s = c ->
                 ~ In tech (TechStack.technologies s)) ->
      App.techStack (App.removeTechnology c tech (App.addTechnology st))
      = App.techStack st).
Proof.
  intros c tech Ht.
  assert (E : App.techStack
                (App.removeTechnology c tech (App.addTechnology st))
              = App.withoutTechnology c tech (App.techStack st)).
  { change (App.withoutTechnology c tech
              (App.techStack (App.addTechnology st))
            = App.withoutTechnology c tech (App.techStack st)).
    unfold App.addTechnology. fold tech. fold c. rewrite Ht.
    destruct (find _ _) eqn:Hfind; cbn [App.techStack App.setNewTech
      App.setTechStack].
    - apply without_after_append.
    - rewrite withoutTechnology_app.
      assert (L : App.withoutTechnology c tech [TechStack.mk c [tech]] = []).
      { unfold App.withoutTechnology. simpl. rewrite !eqb_refl. reflexivity. }
      rewrite L. apply app_nil_r. }
  split; [exact E |].
  intros Hne Habs. rewrite E.
  apply withoutTechnology_absent; assumption.
Qed.

Lemma add_then_remove_technology_witness :
  App.techStack
    (App.removeTechnology (lit "Backend") (lit "Fastify")
       (App.addTechnology
          (App.step Sample.withStacks (App.TypeTechnology (lit "Fastify ")))))
  = App.techStack Sample.withStacks
  /\ App.techStack
       (App.removeTechnology (lit "Backend") (lit "Express")
          (App.addTechnology
             (App.step Sample.withStacks
                (App.TypeTechnology (lit "Express")))))
     = [TechStack.mk (lit "Frontend") [lit "React"];
        TechStack.mk (lit "Backend") [lit "Node.js"]].
Proof.
  split.
  - apply (proj2 (add_then_remove_technology
                    (App.step Sample.withStacks
                       (App.TypeTechnology (lit "Fastify "))) eq_refl)).
    + vm_compute. repeat constructor; discriminate.
    + intros s Hs Hc Hin. vm_compute in Hs.
      destruct Hs as [<- | [<- | []]]; [discriminate Hc |].
      vm_compute in Hin. destruct Hin as [H | [H | []]]; discriminate H.
  - refine (eq_trans
              (proj1 (add_then_remove_technology
                        (App.step Sample.withStacks
                           (App.TypeTechnology (lit "Express"))) eq_refl))
              _).
    reflexivity.
Defined.

Lemma map_if_unique (c : jsstring) (f : TechStack.t -> TechStack.t)
    (before after : list TechStack.t) (g : TechStack.t) :
  NoDup (map TechStack.category (before ++ g :: after)) ->
  TechStack.category g = c ->
  map (fun s => if eqb (TechStack.category s) c then f s else s)
      (before ++ g :: after)
  = before ++ f g :: after.
Proof.
  intros Hnd Hc. rewrite map_app in Hnd. cbn [map] in Hnd.
  pose proof (NoDup_remove_2 _ _ _ Hnd) as Hnot. rewrite Hc in Hnot.
  rewrite map_app. cbn [map]. rewrite Hc, eqb_refl.
  assert (K : forall l, ~ In c (map TechStack.category l) ->
                        map (fun s => if eqb (TechStack.category s) c
                                      then f s else s) l = l).
  { induction l as [|s l IH]; intros H; simpl; [reflexivity |].
    destruct (eqb (TechStack.category s) c) eqn:E.
    - apply eqb_eq in E. exfalso. apply H. left. exact E.
    - rewrite IH; [reflexivity |]. intros Hin. apply H. right. exact Hin. }
  rewrite !K; [reflexivity | |];
    intros Hin; apply Hnot, in_or_app; [right | left]; exact Hin.
Qed.

(** X10.  In a state reached from the empty form, adding a technology to a
    category that already has a group appends the trimmed entry at the end
    of that group and leaves the number, order and content of the other
    groups as they are; the pending input is cleared and the selected
    category kept. *)
Theorem addTechnology_existing_category
    (code : jsstring) (events : list App.Event) (s : jsstring)
    (before after : list TechStack.t) (g : TechStack.t) :
  let st := App.step (App.run (App.initialState code) events)
              (App.TypeTechnology s) in
  truthy (trim s) = true ->
  App.techStack st = before ++ g :: after ->
  TechStack.category g = App.NewTech.category (App.newTech st) ->
  App.techStack (App.addTechnology st)
  = before
    ++ TechStack.mk (TechStack.category g)
         (TechStack.technologies g ++ [trim s])
    :: after
  /\ App.newTech (App.addTechnology st)
     = App.NewTech.mk (TechStack.category g) [].
Proof.
  intros st Ht Hst Hc.
  assert (Hnd : NoDup (map TechStack.category (before ++ g :: after))).
  { rewrite <- Hst.
    pose proof (run_wellFormedStack (events ++ [App.TypeTechnology s])
                  (App.initialState code)
                  (conj (NoDup_nil _) (Forall_nil _))) as H.
    unfold App.run in H. rewrite fold_left_app in H. apply H. }
  assert (Hfind : find (fun x => eqb (TechStack.category x)
                                     (App.NewTech.category (App.newTech st)))
                       (App.techStack st) <> None).
  { intros Hnone. apply find_category_none in Hnone. apply Hnone.
    rewrite Hst, <- Hc. apply in_map, in_or_app. right. left. reflexivity. }
  unfold App.addTechnology.
  change (App.NewTech.technology (App.newTech st)) with s. rewrite Ht.
  destruct (find _ _); [| congruence].
  cbn [App.techStack App.newTech App.setNewTech App.setTechStack]. split.
  - rewrite Hst, <- Hc. apply map_if_unique; [exact Hnd | reflexivity].
  - rewrite <- Hc. reflexivity.
Qed.

Lemma addTechnology_existing_category_witness :
  App.techStack
    (App.addTechnology
       (App.step Sample.withStacks (App.TypeTechnology (lit " Fastify"))))
  = [TechStack.mk (lit "Frontend") [lit "React"];
     TechStack.mk (lit "Backend")
       [lit "Node.js"; lit "Express"; lit "Fastify"]].
Proof.
  exact (proj1 (addTechnology_existing_category (lit "PRJ-2026-11-A1B2C3")
           [App.TypeTechnology (lit "React"); App.AddTechnology;
            App.SelectTechCategory (lit "Backend");
            App.TypeTechnology (lit "Node.js"); App.AddTechnology;
            App.TypeTechnology (lit "Express"); App.AddTechnology]
           (lit " Fastify")
           [TechStack.mk (lit "Frontend") [lit "React"]] []
           (TechStack.mk (lit "Backend") [lit "Node.js"; lit "Express"])
           eq_refl eq_refl eq_refl)).
Defined.

(** *** What the lists hold *)

Lemma trimStart_idem (s : jsstring) : trimStart (trimStart s) = trimStart s.
Proof.
  induction s as [|c s IH]; [reflexivity |]. simpl.
  destruct (isWhiteSpace c) eqn:E; [exact IH |]. simpl. rewrite E. reflexivity.
Qed.

Lemma trimStart_snoc (l : jsstring) (c : codeunit) :
  isWhiteSpace c = false -> trimStart (l ++ [c]) = trimStart l ++ [c].
Proof.
  intros Hc. induction l as [|x l IH]; simpl.
  - rewrite Hc. reflexivity.
  - destruct (isWhiteSpace x); [exact IH | reflexivity].
Qed.

Lemma trimEnd_cons (c : codeunit) (t : jsstring) :
  isWhiteSpace c = false -> trimEnd (c :: t) = c :: trimEnd t.
Proof.
  intros Hc. unfold trimEnd. simpl.
  rewrite (trimStart_snoc _ _ Hc), rev_app_distr. reflexivity.
Qed.

Lemma trimEnd_idem (s : jsstring) : trimEnd (trimEnd s) = trimEnd s.
Proof.
  unfold trimEnd. rewrite rev_involutive, trimStart_idem. reflexivity.
Qed.

Lemma trimStart_head (s : jsstring) :
  trimStart s = [] \/ exists c t, trimStart s = c :: t /\ isWhiteSpace c = false.
Proof.
  induction s as [|c s IH]; [left; reflexivity |]. simpl.
  destruct (isWhiteSpace c) eqn:E; [exact IH |].
  right. exists c, s. split; [reflexivity | exact E].
Qed.

(** Trimming what is already trimmed changes nothing. *)
Lemma trim_idem (s : jsstring) : trim (trim s) = trim s.
Proof.
  unfold trim. destruct (trimStart_head s) as [E | [c [t [E Hc]]]];
    rewrite E; [reflexivity |].
  rewrite (trimEnd_cons _ _ Hc). simpl. rewrite Hc.
  rewrite (trimEnd_cons _ _ Hc), trimEnd_idem. reflexivity.
Qed.

Lemma trimmedEntry_trim (s : jsstring) :
  truthy (trim s) = true -> App.trimmedEntry (trim s).
Proof.
  intros H. split; [| apply trim_idem].
  intros E. rewrite E in H. discriminate H.
Qed.

Lemma filterFrom_In {A} (p : A -> nat -> bool) (l : list A) :
  forall k x, In x (App.filterFrom p l k) -> In x l.
Proof.
  induction l as [|y l IH]; intros k x; simpl; [tauto |].
  destruct (p y k); simpl; intros H.
  - destruct H as [-> | H]; [left; reflexivity | right; exact (IH _ _ H)].
  - right. exact (IH _ _ H).
Qed.

Lemma step_storedTrimmed (st : App.State) (e : App.Event) :
  App.storedTrimmed st -> App.storedTrimmed (App.step st e).
Proof.
  intros [Ht [Hm Hs]]. unfold App.storedTrimmed.
  destruct e; simpl; try (repeat split; assumption).
  - unfold App.addTeamMember.
    destruct (truthy (trim (App.newTeamMember st))) eqn:E;
      [| repeat split; assumption].
    simpl. repeat split; try assumption.
    apply Forall_app. split; [exact Ht |].
    constructor; [apply trimmedEntry_trim, E | constructor].
  - repeat split; try assumption.
    apply Forall_forall. intros x Hx. apply filterFrom_In in Hx.
    rewrite Forall_forall in Ht. apply Ht, Hx.
  - unfold App.addMilestone.
    destruct (truthy (trim (App.NewMilestone.title (App.newMilestone st))))
      eqn:E; [| repeat split; assumption].
    simpl. repeat split; try assumption.
    apply Forall_app. split; [exact Hm |].
    constructor; [| constructor]. simpl.
    split; [apply trimmedEntry_trim, E | apply trim_idem].
  - repeat split; try assumption.
    apply Forall_forall. intros x Hx. apply filter_In in Hx.
    rewrite Forall_forall in Hm. apply Hm, Hx.
  - unfold App.addTechnology.
    destruct (truthy (trim (App.NewTech.technology (App.newTech st))))
      eqn:E; [| repeat split; assumption].
    destruct (find _ _); simpl; repeat split; try assumption.
    + apply Forall_forall. intros x Hx. apply in_map_iff in Hx.
      destruct Hx as [x0 [<- Hx0]]. rewrite Forall_forall in Hs.
      destruct (eqb (TechStack.category x0) _); [| apply Hs, Hx0].
      simpl. apply Forall_app. split; [apply Hs, Hx0 |].
      constructor; [apply trimmedEntry_trim, E | constructor].
    + apply Forall_app. split; [exact Hs |].
      constructor; [| constructor]. simpl.
      constructor; [apply trimmedEntry_trim, E | constructor].
  - repeat split; try assumption. unfold App.withoutTechnology.
    apply Forall_forall. intros x Hx. apply filter_In in Hx.
    destruct Hx as [Hx _]. apply in_map_iff in Hx.
    destruct Hx as [x0 [<- Hx0]]. rewrite Forall_forall in Hs.
    destruct (eqb (TechStack.category x0) category); [| apply Hs, Hx0].
    simpl. apply Forall_forall. intros t Ht'. apply filter_In in Ht'.
    specialize (Hs x0 Hx0). rewrite Forall_forall in Hs. apply Hs, Ht'.
Qed.

(** X11.  Whatever is typed, the lists only ever hold trimmed text: every
    team member, milestone title and technology of a reachable state is
    not empty and has no white space at either end, and every milestone
    description is trimmed (it may be empty). *)
Theorem lists_hold_trimmed_entries
    (code : jsstring) (events : list App.Event) :
  let st := App.run (App.initialState code) events in
  Forall App.trimmedEntry (App.team st)
  /\ Forall (fun m => App.trimmedEntry (ProjectMilestone.title m)
                      /\ trim (ProjectMilestone.description m)
                         = ProjectMilestone.description m)
            (App.milestones st)
  /\ Forall (fun s => Forall App.trimmedEntry (TechStack.technologies s))
            (App.techStack st).
Proof.
  intros st.
  assert (G : forall evs s0, App.storedTrimmed s0 ->
                             App.storedTrimmed (App.run s0 evs)).
  { unfold App.run. induction evs as [|e evs IH]; intros s0 H; simpl;
      [exact H | apply IH, step_storedTrimmed, H]. }
  apply (G events (App.initialState code)).
  repeat split; constructor.
Qed.

(* ================================================================== *)
(** ** Submitting the form *)

Section Submission.

Variable env : Pdf.Env.

Lemma revokeAt_length (l : list (option Pdf.Blob)) :
  forall i, length (Pdf.revokeAt i l) = length l.
Proof.
  induction l as [|x l IH]; intros [|i]; simpl; try reflexivity.
  rewrite IH. reflexivity.
Qed.


(** The two ways a submission ends, read off [generateProjectPDF] in the
    blob-returning mode. *)
Lemma handleFormSubmit_cases (data : App.ProjectFormValues) (now : jsstring)
    (st : App.State) (w : Pdf.World) :
  match Pdf.toDataURL env (App.uniqueCode st) Pdf.qrOptions with
  | inl _ => App.handleFormSubmit env data now st w = (st, w)
  | inr qr =>
      let revoked := match App.pdfPreviewUrl st with
                     | Some old => Pdf.revokeAt old (Pdf.objectURLs w)
                     | None => Pdf.objectURLs w
                     end in
      App.handleFormSubmit env data now st w
      = (App.setShowPreview true
           (App.setPdfPreviewUrl (Some (length revoked)) st),
         {| Pdf.objectURLs :=
              revoked
              ++ [Some (Pdf.renderDocument env (App.newProject st data now)
                          (App.selectedColor st) qr)];
            Pdf.windows := Pdf.windows w;
            Pdf.savedFiles := Pdf.savedFiles w |})
  end.
Proof.
  unfold App.handleFormSubmit, Pdf.generateProjectPDF.
  change (Project.uniqueCode (App.newProject st data now))
    with (App.uniqueCode st).
  destruct (Pdf.toDataURL env (App.uniqueCode st) Pdf.qrOptions) as [e|qr];
    [reflexivity |].
  cbn [Pdf.flag Pdf.returnBlob].
  destruct (App.pdfPreviewUrl st); reflexivity.
Qed.

(** Optional fields that were filled in reach the record whole; only an
    empty or missing one is replaced by the default. *)
Example newProject_keeps_filled_fields :
  Project.description Sample.filledProject = lit "Portal de servicos"
  /\ Project.endDate Sample.filledProject = Some (lit "2026-12-01")
  /\ Project.projectManager Sample.filledProject = lit "Ana"
  /\ Project.repository Sample.filledProject
     = Some (lit "github.com/acme/portal")
  /\ Project.documentation Sample.filledProject
     = Some (lit "docs.acme.dev/portal")
  /\ Project.notes Sample.filledProject = Some (lit "Piloto")
  /\ Pdf.noOptionalFields Sample.filledProject = false
  /\ App.orEmpty None = []
  /\ App.orEmpty (Some []) = []
  /\ App.orUndefined None = None
  /\ App.orUndefined (Some []) = None.
Proof. repeat split. Qed.

(** The links and the notes of that record are drawn from their first
    character on. *)
Example links_and_notes_drawn_whole :
  In (Pdf.Text (lit "github.com/acme/portal") 42 108)
     (snd (Pdf.renderLinks Sample.filledProject Sample.blue 100 []))
  /\ In (Pdf.Text (lit "docs.acme.dev/portal") 47 114)
       (snd (Pdf.renderLinks Sample.filledProject Sample.blue 100 []))
  /\ In (Pdf.TextLines [lit "Piloto"] 20 110)
       (snd (Pdf.renderNotes Sample.env Sample.filledProject Sample.blue
               100 [])).
Proof. vm_compute. repeat split; tauto. Qed.


Lemma step_pdfPreviewUrl (st : App.State) (e : App.Event) :
  App.pdfPreviewUrl (App.step st e) = App.pdfPreviewUrl st
  /\ App.uniqueCode (App.step st e) = App.uniqueCode st.
Proof.
  destruct e; simpl; try (split; reflexivity).
  - unfold App.addTeamMember.
    destruct (truthy (trim (App.newTeamMember st))); split; reflexivity.
  - unfold App.addMilestone.
    destruct (truthy (trim (App.NewMilestone.title (App.newMilestone st))));
      split; reflexivity.
  - unfold App.addTechnology.
    destruct (truthy (trim (App.NewTech.technology (App.newTech st))));
      [| split; reflexivity].
    destruct (find _ _); split; reflexivity.
Qed.



(** X14.  The unique code of the session never changes: after any sequence
    of edits and submissions the state still holds the code it was mounted
    with, and a record built then carries it as [id] and [uniqueCode]. *)
Theorem uniqueCode_stable
    (code : jsstring) (w0 : Pdf.World) (actions : list App.Action)
    (data : App.ProjectFormValues) (now : jsstring) :
  let st := fst (App.perform env (App.initialState code, w0) actions) in
  App.uniqueCode st = code
  /\ Project.uniqueCode (App.newProject st data now) = code
  /\ Project.id (App.newProject st data now) = code.
Proof.
  intros st.
  assert (G : forall acts sw,
             App.uniqueCode (fst (App.perform env sw acts))
             = App.uniqueCode (fst sw)).
  { unfold App.perform. induction acts as [|a acts IH]; intros sw; simpl;
      [reflexivity |].
    rewrite IH. destruct sw as [s0 w1].
    destruct a as [e | d n |]; cbn [App.act fst snd].
    - apply step_pdfPreviewUrl.
    - pose proof (handleFormSubmit_cases d n s0 w1) as H.
      destruct (Pdf.toDataURL env (App.uniqueCode s0) Pdf.qrOptions);
        [rewrite H; reflexivity |].
      cbv zeta in H. rewrite H. reflexivity.
    - reflexivity. }
  assert (E : App.uniqueCode st = code)
    by (unfold st; rewrite G; reflexivity).
  repeat split; exact E.
Qed.

End Submission.



(** Closing the dialog between two submissions leaves the first URL live
    beside the second; submitting twice without closing leaves one. *)
Example closed_preview_stays_live :
  length
    (App.liveObjectURLs
       (snd (App.perform Sample.env
               (App.initialState (lit "PRJ-2026-11-A1B2C3"), Sample.world)
               [App.Submit Sample.values (lit "2026-11-03T10:00:00.000Z");
                App.ClosePreview;
                App.Submit Sample.values (lit "2026-11-03T10:05:00.000Z")])))
  = 2
  /\ length
       (App.liveObjectURLs
          (snd (App.perform Sample.env
                  (App.initialState (lit "PRJ-2026-11-A1B2C3"), Sample.world)
                  [App.Submit Sample.values (lit "2026-11-03T10:00:00.000Z");
                   App.Submit Sample.values
                     (lit "2026-11-03T10:05:00.000Z")])))
     = 1.
Proof. split; reflexivity. Qed.

(* ================================================================== *)
(** ** Further properties of the renderer *)

(** X15.  [truncateName] never returns more than the cap plus the three
    dots, applying it twice is the same as applying it once, and a name
    one or two characters over the cap comes back longer than it went in. *)
Theorem truncateName_bounds (name : jsstring) (maxLength : nat) :
  length (Pdf.truncateName name maxLength) <= maxLength + 3
  /\ Pdf.truncateName (Pdf.truncateName name maxLength) maxLength
     = Pdf.truncateName name maxLength
  /\ (maxLength < length name < maxLength + 3 ->
      length name < length (Pdf.truncateName name maxLength)).
Proof.
  destruct (Nat.le_gt_cases (length name) maxLength) as [Hle | Hgt].
  - rewrite !truncateName_short by
      (try rewrite truncateName_short by assumption; assumption).
    repeat split; lia.
  - pose proof (truncateName_long_length name maxLength Hgt) as Hlen.
    split; [lia | split; [| lia]].
    rewrite (truncateName_long (Pdf.truncateName name maxLength)) by lia.
    rewrite (truncateName_long name) by assumption.
    rewrite firstn_app, firstn_firstn, Nat.min_id.
    rewrite length_firstn, Nat.min_l by lia.
    rewrite Nat.sub_diag. simpl. rewrite app_nil_r. reflexivity.
Qed.

Lemma truncateName_bounds_witness :
  length (lit "Sistema de Gestao Financeira ERP")
  < length (Pdf.truncateName (lit "Sistema de Gestao Financeira ERP") 30).
Proof.
  apply (truncateName_bounds (lit "Sistema de Gestao Financeira ERP") 30).
  vm_compute. lia.
Defined.

Lemma trimStart_length (s : jsstring) : length (trimStart s) <= length s.
Proof.
  induction s as [|c s IH]; simpl; [lia |].
  destruct (isWhiteSpace c); simpl; lia.
Qed.

Lemma trim_length (s : jsstring) : length (trim s) <= length s.
Proof.
  unfold trim, trimEnd. rewrite length_rev.
  pose proof (trimStart_length (rev (trimStart s))) as H1.
  rewrite length_rev in H1.
  pose proof (trimStart_length s). lia.
Qed.


Lemma split_span (sep : codeunit) (s : jsstring) :
  Pdf.spanOf (split sep s) = length s + 1.
Proof.
  induction s as [|c s IH]; [reflexivity |]. simpl.
  destruct (N.eqb c sep); simpl; [lia |].
  destruct (split sep s) as [|w ws]; simpl in *; lia.
Qed.

Lemma wrapWord_progress (m : nat) (lines : list jsstring)
    (cur word : jsstring) (c : nat) :
  Pdf.wrapProgress m (length lines) (length cur) c ->
  Pdf.wrapProgress m
    (length (fst (Pdf.wrapWord m (lines, cur) word)))
    (length (snd (Pdf.wrapWord m (lines, cur) word)))
    (c + (length word + 1)).
Proof.
  unfold Pdf.wrapWord, Pdf.wrapProgress.
  pose proof (trim_length (cur ++ lit " " ++ word)) as Ht.
  rewrite !length_app in Ht. change (length (lit " ")) with 1 in Ht.
  destruct (Nat.leb_spec (length (trim (cur ++ lit " " ++ word))) m)
    as [Hfit | Hbreak]; cbn [fst snd].
  - intros H. lia.
  - destruct cur as [|x cur]; cbn [truthy].
    + cbn [length] in *. intros H. lia.
    + rewrite length_app. cbn [length] in *. intros H. lia.
Qed.

Lemma wrap_loop_progress (m : nat) (ws : list jsstring) :
  forall (acc : list jsstring * jsstring) c,
    Pdf.wrapProgress m (length (fst acc)) (length (snd acc)) c ->
    Pdf.wrapProgress m
      (length (fst (fold_left (Pdf.wrapWord m) ws acc)))
      (length (snd (fold_left (Pdf.wrapWord m) ws acc)))
      (c + Pdf.spanOf ws).
Proof.
  induction ws as [|w ws IH]; intros [lines cur] c H;
    cbn [fold_left Pdf.spanOf].
  - rewrite Nat.add_0_r. exact H.
  - replace (c + (length w + 1 + Pdf.spanOf ws))
      with ((c + (length w + 1)) + Pdf.spanOf ws) by lia.
    apply IH. apply wrapWord_progress. exact H.
Qed.

Lemma wrapWord_nonempty (m : nat) (lines : list jsstring)
    (cur word : jsstring) :
  Forall (fun l => l <> []) lines ->
  Forall (fun l => l <> []) (fst (Pdf.wrapWord m (lines, cur) word)).
Proof.
  intros H. unfold Pdf.wrapWord.
  destruct (_ <=? _); cbn [fst]; [exact H |].
  destruct cur as [|x cur]; cbn [truthy]; [exact H |].
  apply Forall_app. split; [exact H |].
  constructor; [discriminate | constructor].
Qed.

Lemma wrap_loop_nonempty (m : nat) (ws : list jsstring) :
  forall acc : list jsstring * jsstring,
    Forall (fun l => l <> []) (fst acc) ->
    Forall (fun l => l <> []) (fst (fold_left (Pdf.wrapWord m) ws acc)).
Proof.
  induction ws as [|w ws IH]; intros [lines cur] H; cbn [fold_left];
    [exact H |].
  apply IH. apply wrapWord_nonempty. exact H.
Qed.

(** X16.  The header name takes one, two or three lines, never more and
    never none; and no line is empty unless the name itself is. *)
Theorem splitNameForHeader_line_count (name : jsstring) :
  let lines := Pdf.splitNameForHeader name 20 in
  1 <= length lines <= 3
  /\ (name <> [] -> Forall (fun line => line <> []) lines).
Proof.
  intros lines. unfold lines, Pdf.splitNameForHeader, Pdf.wrapTruncated.
  set (truncated := Pdf.truncateName name 30).
  assert (Hlen : length truncated <= 33)
    by apply (truncateName_bounds name 30).
  assert (Hne : name <> [] -> truncated <> []).
  { intros Hn E. unfold truncated, Pdf.truncateName in E.
    destruct (length name <=? 30); [contradiction |].
    apply app_eq_nil in E. destruct E as [_ E]. discriminate E. }
  destruct (Nat.leb_spec (length truncated) 20) as [Hle | Hgt].
  - split; [simpl; lia |].
    intros Hn. constructor; [apply Hne, Hn | constructor].
  - pose proof (wrap_loop_progress 20 (split 32%N truncated) ([], []) 0
                  (or_introl (conj eq_refl (le_n 0)))) as Hp.
    pose proof (wrap_loop_nonempty 20 (split 32%N truncated) ([], [])
                  (Forall_nil _)) as Hn.
    rewrite split_span in Hp.
    destruct (fold_left (Pdf.wrapWord 20) (split 32%N truncated) ([], []))
      as [ls cur].
    cbn [fst snd] in Hp, Hn.
    assert (Hls : length ls <= 2).
    { unfold Pdf.wrapProgress in Hp.
      destruct Hp as [H | [H | [H | H]]]; lia. }
    destruct cur as [|x cur]; cbn [truthy].
    + destruct ls as [|l ls]; cbn [Nat.ltb Nat.leb length].
      * split; [simpl; lia |]. intros _.
        constructor; [| constructor].
        unfold substring0. intros E.
        apply (f_equal (@length _)) in E. rewrite length_firstn in E.
        cbn [length] in E. lia.
      * split; [cbn [length] in *; lia | intros _; exact Hn].
    + destruct (0 <? _) eqn:E.
      * rewrite length_app. cbn [length].
        split; [lia |]. intros _.
        apply Forall_app. split; [exact Hn |].
        constructor; [discriminate | constructor].
      * apply Nat.ltb_ge in E. rewrite length_app in E. cbn [length] in E.
        lia.
Qed.

Lemma splitNameForHeader_line_count_witness :
  Forall (fun line => line <> [])
    (Pdf.splitNameForHeader (lit "Plataforma Integracao Documentos") 20)
  /\ length (Pdf.splitNameForHeader
               (lit "Plataforma Integracao Documentos") 20) = 3.
Proof.
  split; [| reflexivity].
  apply (splitNameForHeader_line_count
           (lit "Plataforma Integracao Documentos")).
  discriminate.
Defined.

(** *** What the layout appends to the document *)

Lemma appends_ret {A} (P : Pdf.Call -> Prop) (R : A -> Prop) (a : A) :
  R a -> Pdf.appends P R (Pdf.ret a).
Proof. intros Ha d. exists []. rewrite app_nil_r. repeat split; auto. Qed.

Lemma appends_ask {A} (P : Pdf.Call -> Prop) (R : A -> Prop)
    (f : Pdf.Doc -> A) :
  (forall d, R (f d)) -> Pdf.appends P R (Pdf.ask f).
Proof.
  intros Hf d. exists []. rewrite app_nil_r. repeat split; auto. apply Hf.
Qed.

Lemma appends_emit (P : Pdf.Call -> Prop) (R : unit -> Prop) (c : Pdf.Call) :
  P c -> R tt -> Pdf.appends P R (Pdf.emit c).
Proof. intros Hc Hr d. exists [c]. repeat split; auto. Qed.

Lemma appends_bind {A B} (P : Pdf.Call -> Prop) (R1 : A -> Prop)
    (R2 : B -> Prop) (m : Pdf.Draw A) (k : A -> Pdf.Draw B) :
  Pdf.appends P R1 m -> (forall a, R1 a -> Pdf.appends P R2 (k a)) ->
  Pdf.appends P R2 (Pdf.bind m k).
Proof.
  intros Hm Hk d. unfold Pdf.bind.
  destruct (Hm d) as [l1 [E1 [F1 Ra]]].
  destruct (m d) as [a d1]. cbn [fst snd] in *. subst d1.
  destruct (Hk a Ra (d ++ l1)) as [l2 [E2 [F2 Rb]]].
  exists (l1 ++ l2). rewrite app_assoc.
  repeat split; [exact E2 | apply Forall_app; split; assumption | exact Rb].
Qed.

Lemma appends_forEachFrom {A St} (P : Pdf.Call -> Prop)
    (J : nat -> St -> Prop) (f : St -> A -> nat -> Pdf.Draw St)
    (l : list A) :
  forall i0 s0,
    (forall s x i, i0 <= i < i0 + length l -> J i s ->
                   Pdf.appends P (J (S i)) (f s x i)) ->
    J i0 s0 ->
    Pdf.appends P (J (i0 + length l)) (Pdf.forEachFrom f l i0 s0).
Proof.
  induction l as [|x l IH]; intros i0 s0 Hf H0;
    cbn [Pdf.forEachFrom length] in *.
  - rewrite Nat.add_0_r. apply appends_ret. exact H0.
  - apply (appends_bind P (J (S i0))).
    + apply Hf; [lia | exact H0].
    + intros s Hs. replace (i0 + S (length l)) with (S i0 + length l) by lia.
      apply IH; [| exact Hs].
      intros s' x' i Hi. apply Hf. lia.
Qed.

Lemma appends_forEach {A St} (P : Pdf.Call -> Prop)
    (J : nat -> St -> Prop) (f : St -> A -> nat -> Pdf.Draw St)
    (l : list A) (s0 : St) :
  (forall s x i, i < length l -> J i s -> Pdf.appends P (J (S i)) (f s x i)) ->
  J 0 s0 ->
  Pdf.appends P (J (length l)) (Pdf.forEach f l s0).
Proof.
  intros Hf H0. unfold Pdf.forEach.
  apply (appends_forEachFrom P J f l 0 s0); [| exact H0].
  intros s x i Hi. apply Hf. lia.
Qed.

Lemma appends_forEach_any {A St} (P : Pdf.Call -> Prop)
    (f : St -> A -> nat -> Pdf.Draw St) (l : list A) (s0 : St) :
  (forall s x i, Pdf.appends P (fun _ => True) (f s x i)) ->
  Pdf.appends P (fun _ => True) (Pdf.forEach f l s0).
Proof.
  intros Hf.
  apply (appends_forEach P (fun _ _ => True) f l s0); [| exact I].
  intros s x i _ _. apply Hf.
Qed.

Lemma appends_weaken {A} (P : Pdf.Call -> Prop) (R R' : A -> Prop)
    (m : Pdf.Draw A) :
  (forall a, R a -> R' a) -> Pdf.appends P R m -> Pdf.appends P R' m.
Proof.
  intros Hr Hm d. destruct (Hm d) as [l [E [F Ra]]].
  exists l. repeat split; auto.
Qed.

(** Steps through a block whose calls all satisfy a predicate that
    [solve_call] decides, whatever the values passed along. *)
Ltac appends_any solve_call :=
  repeat first
    [ apply appends_ret; exact I
    | apply appends_ask; intros; exact I
    | apply appends_emit; [solve_call | exact I]
    | apply appends_forEach_any; intros
    | apply (appends_bind _ (fun _ => True)); [| intros ? _]
    | match goal with
      | |- Pdf.appends _ _ (if ?b then _ else _) => destruct b
      | |- Pdf.appends _ _ (match ?x with _ => _ end) => destruct x
      end ].

Section Footers.

Variable env : Pdf.Env.

Lemma renderFooterPage_calls (pageCount i : nat) (d : Pdf.Doc) :
  snd (Pdf.renderFooterPage env pageCount i d)
  = d ++ Pdf.footerCalls env pageCount i.
Proof.
  unfold Pdf.renderFooterPage, Pdf.bind, Pdf.emit, Pdf.footerCalls.
  cbn [snd]. rewrite <- !app_assoc. reflexivity.
Qed.

Lemma footer_loop_calls (pageCount : nat) (l : list nat) :
  forall k d,
    snd (Pdf.forEachFrom
           (fun (_ : unit) i (_ : nat) => Pdf.renderFooterPage env pageCount i)
           l k tt d)
    = d ++ flat_map (Pdf.footerCalls env pageCount) l.
Proof.
  induction l as [|i l IH]; intros k d; cbn [Pdf.forEachFrom flat_map].
  - rewrite app_nil_r. reflexivity.
  - unfold Pdf.bind.
    pose proof (renderFooterPage_calls pageCount i d) as E.
    destruct (Pdf.renderFooterPage env pageCount i d) as [[] d1].
    cbn [snd] in E. subst d1. rewrite IH, app_assoc. reflexivity.
Qed.

Lemma renderFooter_calls (d : Pdf.Doc) :
  Pdf.exec (Pdf.renderFooter env) d
  = d ++ flat_map (Pdf.footerCalls env (Pdf.getNumberOfPages d))
           (seq 1 (Pdf.getNumberOfPages d)).
Proof.
  unfold Pdf.exec, Pdf.renderFooter, Pdf.bind, Pdf.ask, Pdf.forEach.
  apply footer_loop_calls.
Qed.

Lemma footers_add_no_page (pageCount : nat) (l : list nat) (d : Pdf.Doc) :
  Pdf.getNumberOfPages (d ++ flat_map (Pdf.footerCalls env pageCount) l)
  = Pdf.getNumberOfPages d.
Proof.
  unfold Pdf.getNumberOfPages. rewrite filter_app.
  assert (E : filter Pdf.isAddPage
                (flat_map (Pdf.footerCalls env pageCount) l) = []).
  { induction l as [|i l IH]; [reflexivity |]. exact IH. }
  rewrite E, app_nil_r. reflexivity.
Qed.

(** The layout is the blocks in order followed by the footer loop. *)
Lemma layout_then_footer (project : Project.t) (color : PDFColor.t)
    (qr : jsstring) (d : Pdf.Doc) :
  Pdf.exec (Pdf.layout env project color qr) d
  = Pdf.exec (Pdf.renderFooter env)
      (Pdf.exec
         (Pdf.bind (Pdf.renderHeader env project color qr) (fun _ =>
          Pdf.bind (Pdf.renderStatus env project color 70) (fun y =>
          Pdf.bind (Pdf.renderInfo env project color y) (fun y =>
          Pdf.bind (Pdf.renderDescription env project color y) (fun y =>
          Pdf.bind (Pdf.renderTechStack project color y) (fun y =>
          Pdf.bind (Pdf.renderMilestones env project color y) (fun y =>
          Pdf.bind (Pdf.renderLinks project color y) (fun y =>
          Pdf.renderNotes env project color y)))))))) d).
Proof.
  unfold Pdf.layout, Pdf.exec, Pdf.bind.
  destruct (Pdf.renderHeader env project color qr d) as [[] d1].
  destruct (Pdf.renderStatus env project color 70 d1) as [y2 d2].
  destruct (Pdf.renderInfo env project color y2 d2) as [y3 d3].
  destruct (Pdf.renderDescription env project color y3 d3) as [y4 d4].
  destruct (Pdf.renderTechStack project color y4 d4) as [y5 d5].
  destruct (Pdf.renderMilestones env project color y5 d5) as [y6 d6].
  destruct (Pdf.renderLinks project color y6 d6) as [y7 d7].
  destruct (Pdf.renderNotes env project color y7 d7) as [y8 d8].
  reflexivity.
Qed.

Lemma blocks_make_no_footer_call (project : Project.t) (color : PDFColor.t)
    (qr : jsstring) :
  Pdf.appends (fun c => Pdf.isFooterCall c = false) (fun _ => True)
    (Pdf.bind (Pdf.renderHeader env project color qr) (fun _ =>
     Pdf.bind (Pdf.renderStatus env project color 70) (fun y =>
     Pdf.bind (Pdf.renderInfo env project color y) (fun y =>
     Pdf.bind (Pdf.renderDescription env project color y) (fun y =>
     Pdf.bind (Pdf.renderTechStack project color y) (fun y =>
     Pdf.bind (Pdf.renderMilestones env project color y) (fun y =>
     Pdf.bind (Pdf.renderLinks project color y) (fun y =>
     Pdf.renderNotes env project color y)))))))).
Proof.
  unfold Pdf.renderHeader, Pdf.renderStatus, Pdf.renderInfo,
    Pdf.renderDescription, Pdf.renderTechStack, Pdf.renderMilestones,
    Pdf.renderMilestone, Pdf.renderLinks, Pdf.renderNotes,
    Pdf.breakPageAfter, Pdf.drawRoundedRect, Pdf.setHeaderTextColor.
  appends_any ltac:(reflexivity).
Qed.

(** X17.  The document is the content blocks followed by one footer per
    page, for pages 1 to n in order, where n is the final number of pages:
    the blocks before make no footer call, the footers start no page, and
    each footer reads [Pagina i de n]. *)
Theorem one_footer_per_page (project : Project.t) (color : PDFColor.t)
    (qr : jsstring) :
  let doc := Pdf.renderDocument env project color qr in
  let n := Pdf.getNumberOfPages doc in
  exists body,
    doc = body ++ flat_map (Pdf.footerCalls env n) (seq 1 n)
    /\ Pdf.getNumberOfPages body = n
    /\ Forall (fun c => Pdf.isFooterCall c = false) body.
Proof.
  intros doc n.
  destruct (blocks_make_no_footer_call project color qr [])
    as [body [E [F _]]].
  cbn [app] in E.
  assert (Edoc : doc = body ++ flat_map
                                 (Pdf.footerCalls env
                                    (Pdf.getNumberOfPages body))
                                 (seq 1 (Pdf.getNumberOfPages body))).
  { unfold doc, Pdf.renderDocument. rewrite layout_then_footer.
    unfold Pdf.exec at 2. rewrite E. apply renderFooter_calls. }
  assert (En : n = Pdf.getNumberOfPages body).
  { unfold n. rewrite Edoc. apply footers_add_no_page. }
  exists body. rewrite En. repeat split; [exact Edoc | exact F].
Qed.

End Footers.

(** *** Where text is placed *)

Lemma wrapTruncated_at_most_three (truncated : jsstring) :
  length truncated <= 33 -> length (Pdf.wrapTruncated truncated 20) <= 3.
Proof.
  intros Hlen. unfold Pdf.wrapTruncated.
  destruct (length truncated <=? 20); [simpl; lia |].
  pose proof (wrap_loop_progress 20 (split 32%N truncated) ([], []) 0
                (or_introl (conj eq_refl (le_n 0)))) as Hp.
  rewrite split_span in Hp.
  destruct (fold_left (Pdf.wrapWord 20) (split 32%N truncated) ([], []))
    as [ls cur].
  cbn [fst snd] in Hp.
  assert (Hls : length ls <= 2).
  { unfold Pdf.wrapProgress in Hp. destruct Hp as [H | [H | [H | H]]]; lia. }
  assert (Hpush : length (if truthy cur then ls ++ [cur] else ls) <= 3).
  { destruct (truthy cur); [rewrite length_app; simpl |]; lia. }
  destruct (0 <? _); [exact Hpush | simpl; lia].
Qed.

Lemma header_lines_at_most_three (name : jsstring) :
  length (Pdf.splitNameForHeader name 20) <= 3.
Proof.
  apply wrapTruncated_at_most_three.
  destruct (Nat.le_gt_cases (length name) 30) as [Hle | Hgt].
  - rewrite truncateName_short by assumption. lia.
  - rewrite truncateName_long_length by assumption. lia.
Qed.

(** Decides that a call keeps its text at or above a limit, from the
    bounds in the context. *)
Ltac baseline :=
  cbv beta;
  first
    [ exact I
    | cbn [Pdf.baselineAtMost];
      repeat match goal with
             | |- context [if ?b then _ else _] => destruct b
             end;
      rewrite <- Zle_Qle; lia ].

(** Steps through straight-line drawing code: calls are checked with
    [baseline], page breaks are split on their test, and the value
    returned at the end is checked with [lia]. *)
Ltac appends_seq :=
  repeat first
    [ apply appends_ret; first [exact I | lia]
    | apply appends_ask; intros; exact I
    | apply appends_emit; [baseline | exact I]
    | apply (appends_bind _ (fun _ => True)); [| intros ? _]
    | match goal with
      | |- Pdf.appends _ _ (if (?a <? ?b)%Z then _ else _) =>
          destruct (Z.ltb_spec a b)
      | |- Pdf.appends _ _ (if ?b then _ else _) => destruct b
      | |- Pdf.appends _ _ (match ?x with _ => _ end) => destruct x
      end ].

Section Baselines.

Variable env : Pdf.Env.

Lemma renderHeader_baseline (project : Project.t) (color : PDFColor.t)
    (qr : jsstring) :
  Pdf.appends (Pdf.baselineAtMost 265) (fun _ => True)
    (Pdf.renderHeader env project color qr).
Proof.
  pose proof (header_lines_at_most_three (Project.name project)) as H3.
  unfold Pdf.renderHeader, Pdf.drawRoundedRect.
  repeat first
    [ apply appends_emit; [baseline | exact I]
    | apply (appends_forEach _ (fun _ _ => True)); [intros ? ? ? ? _ | exact I]
    | apply (appends_bind _ (fun _ => True)); [| intros ? _] ].
Qed.

Lemma renderStatus_baseline (project : Project.t) (color : PDFColor.t) :
  Pdf.appends (Pdf.baselineAtMost 265) (fun y => y = 85%Z)
    (Pdf.renderStatus env project color 70).
Proof.
  unfold Pdf.renderStatus, Pdf.drawRoundedRect, Pdf.setHeaderTextColor.
  appends_seq.
Qed.

Lemma renderInfo_baseline (project : Project.t) (color : PDFColor.t) :
  Pdf.appends (Pdf.baselineAtMost 265) (fun y => y = 135%Z)
    (Pdf.renderInfo env project color 85).
Proof.
  unfold Pdf.renderInfo, Pdf.drawRoundedRect, Pdf.setHeaderTextColor.
  do 8 (apply (appends_bind _ (fun _ => True));
        [appends_seq | intros ? _]).
  apply (appends_bind _ (fun y => y = 125%Z)); [| intros y ->; appends_seq].
  apply (appends_weaken _
           (fun y => y = 97 + 7 * Z.of_nat
                                    (length (Pdf.infoItems env project)))%Z);
    [intros y ->; reflexivity |].
  apply (appends_forEach _ (fun i y => y = 97 + 7 * Z.of_nat i)%Z);
    [| reflexivity].
  intros y [label value] i Hi ->. cbn [length Pdf.infoItems] in Hi.
  appends_seq.
Qed.

Lemma renderDescription_baseline (project : Project.t) (color : PDFColor.t) :
  Pdf.appends (Pdf.baselineAtMost 265) (fun y => (y <= 194)%Z)
    (Pdf.renderDescription env project color 135).
Proof.
  unfold Pdf.renderDescription, Pdf.drawRoundedRect, Pdf.setHeaderTextColor.
  destruct (truthy (Project.description project)); [| appends_seq].
  apply (appends_bind _ (fun _ => True)); [appends_seq | intros _ _].
  apply (appends_bind _ (fun _ => True)); [appends_seq | intros descLines _].
  appends_seq.
Qed.

Lemma renderTechStack_baseline (project : Project.t) (color : PDFColor.t)
    (y0 : Z) :
  (y0 <= 194)%Z -> length (Project.techStack project) <= 10 ->
  Pdf.appends (Pdf.baselineAtMost 265) (fun _ => True)
    (Pdf.renderTechStack project color y0).
Proof.
  intros Hy Hn.
  unfold Pdf.renderTechStack, Pdf.setHeaderTextColor.
  destruct (0 <? length (Project.techStack project)); [| appends_seq].
  do 5 (apply (appends_bind _ (fun _ => True));
        [appends_seq | intros ? _]).
  apply (appends_bind _ (fun _ => True)); [| intros; appends_seq].
  apply (appends_weaken _
           (fun y => y = y0 + 8 + 7 * Z.of_nat
                                        (length (Project.techStack project)))%Z);
    [intros; exact I |].
  apply (appends_forEach _ (fun i y => y = y0 + 8 + 7 * Z.of_nat i)%Z);
    [| lia].
  intros y stack i Hi ->. appends_seq.
Qed.

Lemma breakPageAfter_baseline (limit y : Z) :
  Pdf.appends (Pdf.baselineAtMost 265)
    (fun y' => (y' <= Z.max limit 20)%Z) (Pdf.breakPageAfter limit y).
Proof. unfold Pdf.breakPageAfter. appends_seq. Qed.

Lemma renderMilestone_baseline (y : Z) (milestone : ProjectMilestone.t)
    (index : nat) :
  Pdf.appends (Pdf.baselineAtMost 265) (fun _ => True)
    (Pdf.renderMilestone env y milestone index).
Proof.
  unfold Pdf.renderMilestone.
  apply (appends_bind _ (fun y' => (y' <= 260)%Z));
    [apply (appends_weaken _ _ _ _ (fun a H => H)
              (breakPageAfter_baseline 260 y)) |].
  intros y' Hy'. appends_seq.
Qed.

Lemma renderMilestones_baseline (project : Project.t) (color : PDFColor.t)
    (y : Z) :
  Pdf.appends (Pdf.baselineAtMost 265) (fun _ => True)
    (Pdf.renderMilestones env project color y).
Proof.
  unfold Pdf.renderMilestones, Pdf.setHeaderTextColor.
  destruct (0 <? length (Project.milestones project)); [| appends_seq].
  apply (appends_bind _ (fun y' => (y' <= 220)%Z));
    [apply (appends_weaken _ _ _ _ (fun a H => H)
              (breakPageAfter_baseline 220 y)) |].
  intros y' Hy'.
  do 5 (apply (appends_bind _ (fun _ => True));
        [appends_seq | intros ? _]).
  apply (appends_bind _ (fun _ => True)); [| intros; appends_seq].
  apply appends_forEach_any. intros. apply renderMilestone_baseline.
Qed.

Lemma renderLinks_baseline (project : Project.t) (color : PDFColor.t)
    (y : Z) :
  Pdf.appends (Pdf.baselineAtMost 265) (fun _ => True)
    (Pdf.renderLinks project color y).
Proof.
  unfold Pdf.renderLinks, Pdf.setHeaderTextColor.
  destruct (_ || _); [| appends_seq].
  apply (appends_bind _ (fun y' => (y' <= 240)%Z));
    [apply (appends_weaken _ _ _ _ (fun a H => H)
              (breakPageAfter_baseline 240 y)) |].
  intros y' Hy'.
  do 5 (apply (appends_bind _ (fun _ => True));
        [appends_seq | intros ? _]).
  apply (appends_bind _ (fun y'' => (y'' <= 254)%Z)).
  - destruct (Project.repository project) as [[|? ?]|]; appends_seq.
  - intros y'' Hy''.
    destruct (Project.documentation project) as [[|? ?]|]; appends_seq.
Qed.

Lemma renderNotes_baseline (project : Project.t) (color : PDFColor.t)
    (y : Z) :
  Pdf.appends (Pdf.baselineAtMost 265) (fun _ => True)
    (Pdf.renderNotes env project color y).
Proof.
  unfold Pdf.renderNotes, Pdf.drawRoundedRect, Pdf.setHeaderTextColor.
  destruct (Project.notes project) as [[|? ?]|];
    [appends_seq | | appends_seq].
  apply (appends_bind _ (fun y' => (y' <= 230)%Z));
    [apply (appends_weaken _ _ _ _ (fun a H => H)
              (breakPageAfter_baseline 230 y)) |].
  intros y' Hy'. appends_seq.
Qed.

Lemma renderFooter_baseline :
  Pdf.appends (Pdf.baselineAtMost 265) (fun _ => True) (Pdf.renderFooter env).
Proof.
  unfold Pdf.renderFooter, Pdf.renderFooterPage.
  appends_any ltac:(exact I).
Qed.

(** X18.  For a record with at most ten technology groups (the form never
    yields more than eight), every text the layout places, apart from the
    centred footer line, starts at a height of at most 265: on whichever
    page it lands, it is above the footer, which sits ten units above the
    bottom edge. *)
Theorem text_starts_above_footer
    (project : Project.t) (color : PDFColor.t) (qr : jsstring) :
  length (Project.techStack project) <= 10 ->
  Forall (Pdf.baselineAtMost 265)
         (Pdf.renderDocument env project color qr).
Proof.
  intros Hn.
  assert (H : Pdf.appends (Pdf.baselineAtMost 265) (fun _ => True)
                (Pdf.layout env project color qr)).
  { unfold Pdf.layout.
    apply (appends_bind _ (fun _ => True));
      [apply renderHeader_baseline | intros _ _].
    apply (appends_bind _ (fun y => y = 85%Z));
      [apply renderStatus_baseline | intros y ->].
    apply (appends_bind _ (fun y => y = 135%Z));
      [apply renderInfo_baseline | intros y ->].
    apply (appends_bind _ (fun y => (y <= 194)%Z));
      [apply renderDescription_baseline | intros y Hy].
    apply (appends_bind _ (fun _ => True));
      [apply renderTechStack_baseline; assumption | intros y1 _].
    apply (appends_bind _ (fun _ => True));
      [apply renderMilestones_baseline | intros y2 _].
    apply (appends_bind _ (fun _ => True));
      [apply renderLinks_baseline | intros y3 _].
    apply (appends_bind _ (fun _ => True));
      [apply renderNotes_baseline | intros y4 _].
    apply renderFooter_baseline. }
  destruct (H []) as [l [E [F _]]].
  unfold Pdf.renderDocument, Pdf.exec. rewrite E. exact F.
Qed.

End Baselines.

Lemma text_starts_above_footer_witness :
  Forall (Pdf.baselineAtMost 265)
         (Pdf.renderDocument Sample.env Sample.twelveMilestones Sample.blue
            Sample.qrImage).
Proof.
  apply (text_starts_above_footer Sample.env Sample.twelveMilestones
           Sample.blue Sample.qrImage).
  vm_compute. lia.
Defined.

(** *** Team line, file name and output modes *)

Lemma join_head_nonempty (sep x : jsstring) (l : list jsstring) :
  x <> [] -> truthy (join sep (x :: l)) = true.
Proof.
  intros Hx. destruct x as [|c x]; [contradiction |].
  destruct l; reflexivity.
Qed.

(** X19.  The team line of the information card reads [Nao definida] for
    an empty team, lists a team of up to three (non-empty) names in full,
    and for a larger team lists the first three names followed by three
    dots, whoever comes after them. *)
Theorem teamSummary_cases (team : list jsstring) :
  (team = [] -> Pdf.teamSummary team = lit "Nao definida")
  /\ (3 < length team ->
      Pdf.teamSummary team = join (lit ", ") (firstn 3 team) ++ lit "...")
  /\ (team <> [] -> length team <= 3 ->
      Forall (fun member => member <> []) team ->
      Pdf.teamSummary team = join (lit ", ") team).
Proof.
  unfold Pdf.teamSummary. split; [| split].
  - intros ->. reflexivity.
  - intros Hlen.
    destruct (Nat.ltb_spec 3 (length team)); [| lia].
    destruct (join (lit ", ") (firstn 3 team)); reflexivity.
  - intros Hne Hlen Hall.
    destruct (Nat.ltb_spec 3 (length team)); [lia |].
    rewrite firstn_all2 by assumption. rewrite app_nil_r.
    destruct team as [|x team]; [contradiction |].
    inversion Hall as [| ? ? Hx _]; subst.
    rewrite (join_head_nonempty _ _ _ Hx). reflexivity.
Qed.

Lemma teamSummary_cases_witness :
  Pdf.teamSummary [lit "Ana"; lit "Bruno"; lit "Caio"; lit "Dora"]
  = lit "Ana, Bruno, Caio..."
  /\ Pdf.teamSummary [lit "Ana"; lit "Bruno"] = lit "Ana, Bruno".
Proof.
  split.
  - refine (eq_trans
              (proj1 (proj2 (teamSummary_cases
                               [lit "Ana"; lit "Bruno"; lit "Caio";
                                lit "Dora"])) _) eq_refl).
    vm_compute. lia.
  - refine (eq_trans
              (proj2 (proj2 (teamSummary_cases [lit "Ana"; lit "Bruno"]))
                 _ _ _) eq_refl).
    + discriminate.
    + vm_compute. lia.
    + repeat constructor; discriminate.
Defined.

Lemma replaceSpaces_no_space (inRun : bool) (s : jsstring) :
  Forall (fun c => isWhiteSpace c = false)
         (replaceSpaces (lit "_") inRun s).
Proof.
  revert inRun. induction s as [|c s IH]; intros inRun; simpl;
    [constructor |].
  destruct (isWhiteSpace c) eqn:E.
  - destruct inRun; simpl; [apply IH |].
    constructor; [reflexivity | apply IH].
  - constructor; [exact E | apply IH].
Qed.

Lemma replaceSpaces_unchanged (r : jsstring) (inRun : bool) (s : jsstring) :
  Forall (fun c => isWhiteSpace c = false) s ->
  replaceSpaces r inRun s = s.
Proof.
  intros H. revert inRun. induction H as [|c s Hc Hs IH]; intros inRun;
    simpl; [reflexivity |].
  rewrite Hc, IH. reflexivity.
Qed.

Lemma Forall_firstn_keep {A} (P : A -> Prop) (n : nat) (l : list A) :
  Forall P l -> Forall P (firstn n l).
Proof.
  intros H. revert n. induction H as [|x l Hx Hl IH]; intros [|n]; simpl;
    constructor; auto.
Qed.

(** X20.  The name part of the saved file's name has at most 20
    characters and no white space in it; a project name of at most 20
    characters without white space is used as it is. *)
Theorem safeName_shape (project : Project.t) :
  length (Pdf.safeName project) <= 20
  /\ Forall (fun c => isWhiteSpace c = false) (Pdf.safeName project)
  /\ (length (Project.name project) <= 20 ->
      Forall (fun c => isWhiteSpace c = false) (Project.name project) ->
      Pdf.safeName project = Project.name project).
Proof.
  unfold Pdf.safeName, substring0. split; [| split].
  - rewrite length_firstn. lia.
  - apply Forall_firstn_keep, replaceSpaces_no_space.
  - intros Hlen Hws. rewrite (replaceSpaces_unchanged _ _ _ Hws).
    apply firstn_all2. exact Hlen.
Qed.

Lemma safeName_shape_witness :
  Pdf.safeName Sample.bareProject = lit "Portal".
Proof.
  apply (safeName_shape Sample.bareProject).
  - vm_compute. lia.
  - vm_compute. repeat constructor.
Defined.

Section Modes.

Variable env : Pdf.Env.

(** X21.  Once the QR image is there, the three output modes exclude one
    another.  Asking for the blob returns it and touches nothing.
    Otherwise printing opens a blank window and writes the print page into
    it (or, when no window opens, asks for the blob URL instead) and saves
    no file; the default saves exactly one file, named after the unique
    code and the safe name, and opens no window.  The document is the same
    in all three. *)
Theorem generateProjectPDF_modes
    (project : Project.t) (color : PDFColor.t) (opts : option Pdf.Opts)
    (w : Pdf.World) (qr : jsstring) :
  Pdf.toDataURL env (Project.uniqueCode project) Pdf.qrOptions = inr qr ->
  let doc := Pdf.renderDocument env project color qr in
  let result := Pdf.generateProjectPDF env project (Some color) opts w in
  let url := Pdf.objectURL env (length (Pdf.objectURLs w)) in
  (Pdf.flag Pdf.returnBlob opts = true ->
     result = (Pdf.Fulfilled (Some doc), w))
  /\ (Pdf.flag Pdf.returnBlob opts = false ->
      Pdf.flag Pdf.openPrint opts = true ->
      fst result = Pdf.Fulfilled None
      /\ Pdf.savedFiles (snd result) = Pdf.savedFiles w
      /\ Pdf.windows (snd result)
         = Pdf.windows w
           ++ [Pdf.WindowOpen [];
               if Pdf.popupOpens env
               then Pdf.DocumentWrite (Pdf.printPage url)
               else Pdf.WindowOpen url])
  /\ (Pdf.flag Pdf.returnBlob opts = false ->
      Pdf.flag Pdf.openPrint opts = false ->
      fst result = Pdf.Fulfilled None
      /\ Pdf.windows (snd result) = Pdf.windows w
      /\ Pdf.savedFiles (snd result)
         = Pdf.savedFiles w
           ++ [(Project.uniqueCode project ++ lit "-"
                  ++ Pdf.safeName project ++ lit ".pdf", doc)]).
Proof.
  intros Hqr doc result url. unfold result, Pdf.generateProjectPDF.
  rewrite Hqr. fold doc.
  split; [| split].
  - intros ->. reflexivity.
  - intros -> ->. cbn [Pdf.createObjectURL]. fold url.
    destruct (Pdf.popupOpens env); cbn; rewrite <- app_assoc;
      repeat split.
  - intros -> ->. cbn [Pdf.createObjectURL]. repeat split.
Qed.

End Modes.

Lemma generateProjectPDF_modes_witness :
  Pdf.savedFiles
    (snd (Pdf.generateProjectPDF Sample.env Sample.bareProject
            (Some Sample.blue) None Sample.world))
  = [(lit "PRJ-2026-11-A1B2C3-Portal.pdf",
      Pdf.renderDocument Sample.env Sample.bareProject Sample.blue
        Sample.qrImage)].
Proof.
  refine (eq_trans
            (proj2 (proj2 (proj2 (proj2
               (generateProjectPDF_modes Sample.env Sample.bareProject
                  Sample.blue None Sample.world Sample.qrImage eq_refl))
               eq_refl eq_refl))) _).
  reflexivity.
Defined.

(** *** How much fits on the first page *)

Lemma appends_forEachFrom_In {A St} (P : Pdf.Call -> Prop)
    (J : nat -> St -> Prop) (f : St -> A -> nat -> Pdf.Draw St)
    (l : list A) :
  forall i0 s0,
    (forall s x i, In x l -> i0 <= i < i0 + length l -> J i s ->
                   Pdf.appends P (J (S i)) (f s x i)) ->
    J i0 s0 ->
    Pdf.appends P (J (i0 + length l)) (Pdf.forEachFrom f l i0 s0).
Proof.
  induction l as [|x l IH]; intros i0 s0 Hf H0;
    cbn [Pdf.forEachFrom length] in *.
  - rewrite Nat.add_0_r. apply appends_ret. exact H0.
  - apply (appends_bind P (J (S i0))).
    + apply Hf; [left; reflexivity | lia | exact H0].
    + intros s Hs. replace (i0 + S (length l)) with (S i0 + length l) by lia.
      apply IH; [| exact Hs].
      intros s' x' i Hin Hi. apply Hf; [right; exact Hin | lia].
Qed.

(** As [appends_seq], for the property of starting no page. *)
Ltac same_page :=
  repeat first
    [ apply appends_ret; first [exact I | lia]
    | apply appends_ask; intros; exact I
    | apply appends_emit; [reflexivity | exact I]
    | apply (appends_bind _ (fun _ => True)); [| intros ? _]
    | match goal with
      | |- Pdf.appends _ _ (if (?a <? ?b)%Z then _ else _) =>
          destruct (Z.ltb_spec a b); [lia |]
      | |- Pdf.appends _ _ (match ?x with _ => _ end) => destruct x
      end ].

Section FirstPage.

Variable env : Pdf.Env.

Lemma fixed_blocks_same_page (project : Project.t) (color : PDFColor.t)
    (qr : jsstring) :
  Pdf.appends (fun c => Pdf.isAddPage c = false) (fun y => y = 135%Z)
    (Pdf.bind (Pdf.renderHeader env project color qr) (fun _ =>
     Pdf.bind (Pdf.renderStatus env project color 70) (fun y =>
     Pdf.renderInfo env project color y))).
Proof.
  apply (appends_bind _ (fun _ => True)).
  { unfold Pdf.renderHeader, Pdf.drawRoundedRect.
    appends_any ltac:(reflexivity). }
  intros _ _. apply (appends_bind _ (fun y => y = 85%Z)).
  { unfold Pdf.renderStatus, Pdf.drawRoundedRect, Pdf.setHeaderTextColor.
    same_page. }
  intros y ->.
  unfold Pdf.renderInfo, Pdf.drawRoundedRect, Pdf.setHeaderTextColor.
  do 8 (apply (appends_bind _ (fun _ => True)); [same_page | intros ? _]).
  apply (appends_bind _ (fun y => y = 125%Z)); [| intros y ->; same_page].
  apply (appends_weaken _
           (fun y => y = 97 + 7 * Z.of_nat
                                    (length (Pdf.infoItems env project)))%Z);
    [intros y ->; reflexivity |].
  apply (appends_forEach _ (fun i y => y = 97 + 7 * Z.of_nat i)%Z);
    [| reflexivity].
  intros y [label value] i Hi ->. same_page.
Qed.

Lemma milestones_same_page (project : Project.t) (color : PDFColor.t) :
  length (Project.milestones project) <= 24 ->
  Forall (fun m => ProjectMilestone.description m = [])
         (Project.milestones project) ->
  Pdf.appends (fun c => Pdf.isAddPage c = false) (fun _ => True)
    (Pdf.renderMilestones env project color 135).
Proof.
  intros Hn Hdesc.
  unfold Pdf.renderMilestones, Pdf.breakPageAfter, Pdf.setHeaderTextColor.
  destruct (0 <? length (Project.milestones project));
    [| apply appends_ret; exact I].
  apply (appends_bind _ (fun y => y = 135%Z)); [same_page |].
  intros y ->.
  do 5 (apply (appends_bind _ (fun _ => True)); [same_page | intros ? _]).
  apply (appends_bind _ (fun _ => True)); [| intros; same_page].
  apply (appends_weaken _
           (fun y => y = 145 + 5 * Z.of_nat
                                     (length (Project.milestones project)))%Z);
    [intros; exact I |].
  unfold Pdf.forEach.
  apply (appends_forEachFrom_In (fun c => Pdf.isAddPage c = false)
           (fun i y => y = 145 + 5 * Z.of_nat i)%Z
           (Pdf.renderMilestone env) (Project.milestones project)
           0 (135 + 10)%Z);
    [| reflexivity].
  intros y m i Hin Hi ->.
  rewrite Forall_forall in Hdesc. specialize (Hdesc m Hin).
  unfold Pdf.renderMilestone, Pdf.breakPageAfter. rewrite Hdesc.
  cbn [truthy].
  apply (appends_bind _ (fun y => y = 145 + 5 * Z.of_nat i)%Z);
    [same_page |].
  intros y ->.
  apply (appends_bind _ (fun _ => True)).
  { destruct (ProjectMilestone.completed m); same_page. }
  intros _ _. same_page.
Qed.

(** X22.  A record without description, technology groups, links and
    notes, whose milestones (up to 24 of them) have no description, is
    laid out on a single page: the cursor reaches the break threshold of
    the milestone loop only with the 25th entry. *)
Theorem plain_milestones_fit_one_page
    (project : Project.t) (color : PDFColor.t) (qr : jsstring) :
  truthy (Project.description project) = false ->
  Project.techStack project = [] ->
  truthyOpt (Project.repository project) = false ->
  truthyOpt (Project.documentation project) = false ->
  truthyOpt (Project.notes project) = false ->
  length (Project.milestones project) <= 24 ->
  Forall (fun m => ProjectMilestone.description m = [])
         (Project.milestones project) ->
  Pdf.getNumberOfPages (Pdf.renderDocument env project color qr) = 1.
Proof.
  intros Hd Ht Hr Ho Hnotes Hn Hdesc.
  assert (H : Pdf.appends (fun c => Pdf.isAddPage c = false) (fun _ => True)
                (Pdf.bind (Pdf.renderHeader env project color qr) (fun _ =>
                 Pdf.bind (Pdf.renderStatus env project color 70) (fun y =>
                 Pdf.bind (Pdf.renderInfo env project color y) (fun y =>
                 Pdf.bind (Pdf.renderDescription env project color y)
                   (fun y =>
                 Pdf.bind (Pdf.renderTechStack project color y) (fun y =>
                 Pdf.bind (Pdf.renderMilestones env project color y)
                   (fun y =>
                 Pdf.bind (Pdf.renderLinks project color y) (fun y =>
                 Pdf.renderNotes env project color y))))))))).
  { pose proof (fixed_blocks_same_page project color qr) as Hfixed.
    intros d. destruct (Hfixed d) as [l1 [E1 [F1 R1]]].
    destruct (milestones_same_page project color Hn Hdesc (d ++ l1))
      as [l2 [E2 [F2 _]]].
    exists (l1 ++ l2). rewrite app_assoc.
    split; [| split; [apply Forall_app; split; assumption | exact I]].
    rewrite <- E2. unfold Pdf.bind in *.
    destruct (Pdf.renderHeader env project color qr d) as [[] d1].
    destruct (Pdf.renderStatus env project color 70 d1) as [y2 d2].
    destruct (Pdf.renderInfo env project color y2 d2) as [y3 d3].
    cbn [fst snd] in E1, R1. subst y3 d3.
    unfold Pdf.renderDescription, Pdf.renderTechStack, Pdf.renderLinks,
      Pdf.renderNotes.
    rewrite Hd, Ht, Hr, Ho. cbn [length Nat.ltb Nat.leb orb Pdf.ret].
    destruct (Pdf.renderMilestones env project color 135 (d ++ l1))
      as [y6 d6].
    destruct (Project.notes project) as [[|? ?]|];
      [reflexivity | discriminate Hnotes | reflexivity]. }
  destruct (H []) as [body [E [F _]]]. cbn [app] in E.
  unfold Pdf.renderDocument. rewrite layout_then_footer.
  unfold Pdf.exec at 2. rewrite E, renderFooter_calls, footers_add_no_page.
  unfold Pdf.getNumberOfPages. f_equal. clear E H.
  induction F as [|c body Hc Hbody IH]; [reflexivity |].
  cbn [filter]. rewrite Hc. exact IH.
Qed.

End FirstPage.

Lemma plain_milestones_fit_one_page_witness :
  Pdf.getNumberOfPages
    (Pdf.renderDocument Sample.env
       (App.newProject
          (App.run Sample.session
             (flat_map (fun i => [App.TypeMilestoneTitle
                                    (lit "Etapa " ++ natToString i);
                                  App.AddMilestone])
                       (seq 1 12)))
          Sample.values (lit "2026-11-03T10:00:00.000Z"))
       Sample.blue Sample.qrImage)
  = 1.
Proof.
  apply plain_milestones_fit_one_page; try reflexivity.
  - vm_compute. lia.
  - vm_compute. repeat constructor.
Defined.

(** The 25th plain milestone is the first to be moved to a second page. *)
Example twenty_five_plain_milestones_two_pages :
  Pdf.getNumberOfPages
    (Pdf.renderDocument Sample.env
       (App.newProject
          (App.run Sample.session
             (flat_map (fun i => [App.TypeMilestoneTitle
                                    (lit "Etapa " ++ natToString i);
                                  App.AddMilestone])
                       (seq 1 25)))
          Sample.values (lit "2026-11-03T10:00:00.000Z"))
       Sample.blue Sample.qrImage)
  = 2.
Proof. vm_compute. reflexivity. Qed.
